(** * QuarkChain cluster master: a shallow embedding of
      [quarkchain/cluster/master.py] and the properties of its
      forwarding rule, life cycle, root-block serializer, mining
      dispatcher and transaction fan-out. *)

From Stdlib Require Import ZArith List Bool Lia String SpecFloat.
From stdpp Require Import base option list gmap strings.

Local Open Scope Z_scope.

(** ** Python exceptions and the effect monad

    A master method either returns or raises; on the way it sends RPCs
    to slaves, calls the root state and notifies peers.  A computation
    is the trace of these calls, in program order, with the outcome. *)

Inductive PyExn :=
| ZeroDivisionError
| OverflowError
| ValueError
| KeyError
| TypeError
| CheckFailed.

Inductive Result (A : Type) :=
| Ok (a : A)
| Raise (e : PyExn).
Arguments Ok {A} a.
Arguments Raise {A} e.

Module PyFloat.

(** Python's [float] is IEEE binary64. *)
Definition prec : Z := 53.
Definition emax : Z := 1024.

Definition float := spec_float.

(** An [int] as an exact (unrounded) operand of the division. *)
Definition of_int (z : Z) : float :=
  match z with
  | Z0 => S754_zero false
  | Zpos p => S754_finite false p 0
  | Zneg p => S754_finite true p 0
  end.

(** [a / b] on two ints: the correctly rounded quotient,
    [ZeroDivisionError] for a zero divisor and [OverflowError] when the
    quotient does not fit a float. *)
Definition true_div (a b : Z) : Result float :=
  if b =? 0 then Raise ZeroDivisionError
  else match SFdiv prec emax (of_int a) (of_int b) with
       | S754_infinity _ => Raise OverflowError
       | S754_nan => Raise OverflowError
       | q => Ok q
       end.

(** [x < y], [x > y] and [x == y] on floats. *)
Definition lt (x y : float) : bool := SFltb x y.
Definition gt (x y : float) : bool := SFltb y x.
Definition eq (x y : float) : bool := SFeqb x y.

(** A float that a division returned: neither NaN nor infinite. *)
Definition is_number (x : float) : bool :=
  match x with
  | S754_zero _ | S754_finite _ _ _ => true
  | _ => false
  end.

End PyFloat.

(** ** The trace-and-outcome monad *)

Section Monad.
Context {Ev : Type}.

Definition M (A : Type) : Type := list Ev * Result A.

Definition ret {A} (a : A) : M A := ([], Ok a).
Definition raise {A} (e : PyExn) : M A := ([], Raise e).
Definition emit (e : Ev) : M unit := ([e], Ok tt).
Definition lift {A} (r : Result A) : M A := ([], r).

Definition bind {A B} (m : M A) (k : A -> M B) : M B :=
  match m with
  | (t, Ok a) => let '(t', r) := k a in (t ++ t', r)
  | (t, Raise e) => (t, Raise e)
  end.

(** [for x in xs: ys.append(await f x)], left to right; the first
    exception ends the loop. *)
Fixpoint forM {A B} (f : A -> M B) (xs : list A) : M (list B) :=
  match xs with
  | [] => ret []
  | x :: xs' => bind (f x) (fun y => bind (forM f xs') (fun ys => ret (y :: ys)))
  end.

Definition trace_of {A} (m : M A) : list Ev := fst m.
Definition outcome_of {A} (m : M A) : Result A := snd m.
End Monad.
Arguments M Ev A : clear implicits.

Notation "'do' x <- m ; k" := (bind m (fun x => k))
  (at level 10, x name, m at level 100, k at level 200,
   format "'[v' 'do'  x  <-  m ; '/' k ']'").
Notation "m ;; k" := (bind m (fun _ => k))
  (at level 100, k at level 200, right associativity).

(** ** Python dictionaries, in insertion order

    [d[k] = v] overwrites the value of a present key where it stands and
    appends a new key at the end; [d.items()] yields the pairs in that
    order. *)

Module PyDict.
Section Dict.
Context {V : Type}.

Definition dict := list (Z * V).

Fixpoint set (k : Z) (v : V) (d : dict) : dict :=
  match d with
  | [] => [(k, v)]
  | (k', v') :: d' =>
      if k' =? k then (k, v) :: d' else (k', v') :: set k v d'
  end.

Fixpoint get (k : Z) (d : dict) : option V :=
  match d with
  | [] => None
  | (k', v') :: d' => if k' =? k then Some v' else get k d'
  end.

Definition keys (d : dict) : list Z := map fst d.
Definition values (d : dict) : list V := map snd d.
End Dict.
Arguments dict V : clear implicits.
End PyDict.

(** ** Data of the cluster *)

(** The opaque payloads the master passes around. *)
Class Payloads := {
  Address : Type;
  Header : Type;
  MinorBlock : Type;
  RootBlock : Type;
  Transaction : Type;
  Peer : Type;
  RootState : Type;
}.

(** A [ShardMask] and a [Branch] are carried by their integer [value]. *)
Record SlaveInfo := {
  info_id : string;
  info_shardMaskList : list Z;
}.

(** A [SlaveConnection]: the fields [id] and [shardMaskList]. *)
Record Slave := {
  id : string;
  shardMaskList : list Z;
}.

Record EcoInfo := {
  branch : Z;
  height : Z;
  coinbaseAmount : Z;
  difficulty : Z;
  unconfirmedHeadersCoinbaseAmount : Z;
}.

Record GetEcoInfoListResponse := {
  eco_errorCode : Z;
  ecoInfoList : list EcoInfo;
}.

Record HeadersInfo `{Payloads} := {
  headers_branch : Z;
  headerList : list Header;
}.

Record GetUnconfirmedHeadersResponse `{Payloads} := {
  headers_errorCode : Z;
  headersInfoList : list HeadersInfo;
}.

Record GetNextBlockToMineResponse `{Payloads} := {
  next_errorCode : Z;
  block : MinorBlock;
}.

(** The code of this repository that [master.py] imports:
    [quarkchain.core], [quarkchain.cluster.root_state] and the
    configuration.  They are parameters of the development. *)
Class Core `{Payloads} := {
  (** [ShardMask(mask).containShardId(shardId)] *)
  containShardId : Z -> Z -> bool;
  (** [ShardMask(mask).containBranch(Branch(branchValue))] *)
  containBranch : Z -> Z -> bool;
  (** [ShardMask(local).hasOverlap(ShardMask(mask))] *)
  mask_hasOverlap : Z -> Z -> bool;
  (** [Branch.create(shardSize, shardId).value] *)
  Branch_create : Z -> Z -> Z;
  (** [Branch(value).getShardId()] and [Branch(value).getShardSize()] *)
  getShardId : Z -> Z;
  getShardSize : Z -> Z;
  (** [address.addressInBranch(branch)]; the branch value is [None] when
      the branch was built from an unset winner. *)
  addressInBranch : Address -> option Z -> Result Address;
  (** [tx.code.getEvmTransaction().branchValue] *)
  tx_branchValue : Transaction -> Z;
  (** [rootState.addBlock(rBlock)]: the new state and either the
      returned flag or the exception raised. *)
  addBlock : RootState -> RootBlock -> RootState * Result bool;
  createBlockToMine : RootState -> list Header -> Address -> RootBlock;
  getNextBlockDifficulty : RootState -> Z;
  SHARD_SIZE : Z;
  PROOF_OF_PROGRESS_BLOCKS : Z;
}.

(** What the slaves answer to the master's RPCs. *)
Class SlaveReplies `{Payloads} := {
  reply_ping : Slave -> string * list Z;
  reply_getEcoInfoList : Slave -> GetEcoInfoListResponse;
  reply_getUnconfirmedHeaders : Slave -> GetUnconfirmedHeadersResponse;
  reply_getNextBlockToMine : Slave -> Z -> Address -> Z -> GetNextBlockToMineResponse;
  reply_addTransaction : Slave -> Transaction -> Z;
  reply_addRootBlock : Slave -> RootBlock -> Z;
}.

(** The calls that leave the master, as they appear in a trace. *)
Inductive Event `{Payloads} :=
| RpcPing (s : Slave)
| RpcGetEcoInfoList (s : Slave)
| RpcGetUnconfirmedHeaders (s : Slave)
| RpcGetNextBlockToMine (s : Slave) (branchValue : Z) (address : Address) (artificialTxCount : Z)
| RpcAddTransaction (s : Slave) (tx : Transaction)
| RpcAddRootBlock (s : Slave) (rBlock : RootBlock) (expectSwitch : bool)
| RootStateAddBlock (rBlock : RootBlock)
| PeerSendUpdatedTip (p : Peer).

(** An [asyncio] future. *)
Inductive Future :=
| Pending
| HasResult
| HasException (msg : string).

Definition done (f : Future) : bool :=
  match f with
  | Pending => false
  | _ => true
  end.

(** The network collaborator ([SimpleNetwork]) as the master uses it. *)
Record Network `{Payloads} := {
  getPeerByClusterPeerId : Z -> option Peer;
  iteratePeers : list Peer;
}.

Record MasterServer `{Payloads} := {
  rootState : RootState;
  network : option Network;
  branchToSlaves : gmap Z (list Slave);
  slavePool : list Slave;
  clusterActiveFuture : Future;
  shutdownFuture : Future;
  rootBlockUpdateQueue : list RootBlock;
  isUpdatingRootBlock : bool;
  artificialTxCount : Z;
}.

(** ** Mining dispatcher *)

Inductive MineResult `{Payloads} :=
| RootBlockToMine (b : RootBlock)      (* [(True, block)] *)
| MinorBlockToMine (b : MinorBlock)    (* [(False, block)] *)
| NoBlock.                             (* [(None, None)] *)

Section Dispatcher.
Context `{Core} `{!SlaveReplies}.

Import PyFloat.

Definition hasShard (s : Slave) (shardId : Z) : bool :=
  existsb (fun shardMask => containShardId shardMask shardId) (shardMaskList s).

Definition hasOverlap (s : Slave) (shardMask : Z) : bool :=
  existsb (fun localShardMask => mask_hasOverlap localShardMask shardMask)
          (shardMaskList s).

Definition getSlaveConnection (self : MasterServer) (branchValue : Z) : Result Slave :=
  match branchToSlaves self !! branchValue with
  | None => Raise KeyError
  | Some [] => Raise CheckFailed
  | Some (s :: _) => Ok s
  end.

(** [__getMinorBlockToMine]; [branch] is [None] for [Branch(None)],
    which no key of [branchToSlaves] equals. *)
Definition getMinorBlockToMine (self : MasterServer) (branch : option Z)
    (address : Address) : M Event (option MinorBlock) :=
  do a <- lift (addressInBranch address branch);
  match branch with
  | None => raise KeyError
  | Some branchValue =>
      do slave <- lift (getSlaveConnection self branchValue);
      emit (RpcGetNextBlockToMine slave branchValue a (artificialTxCount self));;
      let response :=
        reply_getNextBlockToMine slave branchValue a (artificialTxCount self) in
      ret (if next_errorCode response =? 0 then Some (block response) else None)
  end.

(** [(None, None) if not block else (False, block)] *)
Definition minor_or_none (b : option MinorBlock) : MineResult :=
  match b with
  | None => NoBlock
  | Some b => MinorBlockToMine b
  end.

(** *** Step R: [__createRootBlockToMineOrFallbackToMinorBlock] *)

Fixpoint merge_headersInfo (infos : list HeadersInfo)
    (shardIdToHeaderList : PyDict.dict (list Header)) : option (PyDict.dict (list Header)) :=
  match infos with
  | [] => Some shardIdToHeaderList
  | headersInfo :: infos' =>
      if negb (getShardSize (headers_branch headersInfo) =? SHARD_SIZE) then None
      else merge_headersInfo infos'
             (PyDict.set (getShardId (headers_branch headersInfo))
                         (headerList headersInfo) shardIdToHeaderList)
  end.

(** [None] stands for the early [return (None, None)]. *)
Fixpoint merge_headers (responses : list GetUnconfirmedHeadersResponse)
    (shardIdToHeaderList : PyDict.dict (list Header)) : option (PyDict.dict (list Header)) :=
  match responses with
  | [] => Some shardIdToHeaderList
  | response :: responses' =>
      if negb (headers_errorCode response =? 0) then None
      else match merge_headersInfo (headersInfoList response) shardIdToHeaderList with
           | None => None
           | Some d => merge_headers responses' d
           end
  end.

(** The proof-of-progress loop over [range(SHARD_SIZE)]. *)
Fixpoint check_proof_of_progress (self : MasterServer) (address : Address)
    (shardIdToHeaderList : PyDict.dict (list Header))
    (shardIds : list Z) (headerList : list Header) : M Event MineResult :=
  match shardIds with
  | [] => ret (RootBlockToMine (createBlockToMine (rootState self) headerList address))
  | shardId :: shardIds' =>
      let headers := default [] (PyDict.get shardId shardIdToHeaderList) in
      let headerList := headerList ++ headers in
      if Z.of_nat (length headers) <? PROOF_OF_PROGRESS_BLOCKS then
        do block <- getMinorBlockToMine self (Some (Branch_create SHARD_SIZE shardId)) address;
        ret (minor_or_none block)
      else check_proof_of_progress self address shardIdToHeaderList shardIds' headerList
  end.

(** [range(n)] *)
Definition range (n : Z) : list Z := seqZ 0 n.

Definition createRootBlockToMineOrFallbackToMinorBlock (self : MasterServer)
    (address : Address) : M Event MineResult :=
  do responses <-
    forM (fun slave => emit (RpcGetUnconfirmedHeaders slave);;
                       ret (reply_getUnconfirmedHeaders slave))
         (slavePool self);
  match merge_headers responses [] with
  | None => ret NoBlock
  | Some shardIdToHeaderList =>
      check_proof_of_progress self address shardIdToHeaderList (range SHARD_SIZE) []
  end.

(** *** The selection loop of [getNextBlockToMine] *)

Record Selection := {
  branchValueWithMaxEco : option Z;
  maxEco : float;
  dupEcoCount : Z;
  blockHeight : Z;
  (** how many times [random.random()] was called *)
  drawn : nat;
}.

(** [shardMask and not shardMask.containBranch(Branch(branchValue))] *)
Definition outside_mask (shardMask : option Z) (branchValue : Z) : bool :=
  match shardMask with
  | None => false
  | Some mask => negb (containBranch mask branchValue)
  end.

(** Lines 368-371: the candidate becomes the winner. *)
Definition replace_winner (st : Selection) (branchValue : Z) (eco : float)
    (ecoInfo : EcoInfo) : Selection :=
  {| branchValueWithMaxEco := Some branchValue;
     maxEco := eco;
     dupEcoCount := 1;
     blockHeight := height ecoInfo;
     drawn := drawn st |}.

(** Lines 377-380: [dupEcoCount += 1] and the draw against
    [1 / dupEcoCount]; [random] is the sequence of values that
    [random.random()] returns. *)
Definition reservoir (random : nat -> float) (st : Selection) (branchValue : Z)
    (eco : float) : Result Selection :=
  let dupEcoCount := dupEcoCount st + 1 in
  match true_div 1 dupEcoCount with
  | Raise e => Raise e
  | Ok threshold =>
      if lt (random (drawn st)) threshold then
        Ok {| branchValueWithMaxEco := Some branchValue;
              maxEco := eco;
              dupEcoCount := dupEcoCount;
              blockHeight := blockHeight st;
              drawn := S (drawn st) |}
      else
        Ok {| branchValueWithMaxEco := branchValueWithMaxEco st;
              maxEco := maxEco st;
              dupEcoCount := dupEcoCount;
              blockHeight := blockHeight st;
              drawn := S (drawn st) |}
  end.

(** One iteration of the loop body. *)
Definition select_step (shardMask : option Z) (randomizeOutput : bool)
    (random : nat -> float) (st : Selection) (branchValue : Z) (ecoInfo : EcoInfo)
    : Result Selection :=
  if outside_mask shardMask branchValue then Ok st
  else
    match true_div (coinbaseAmount ecoInfo) (difficulty ecoInfo) with
    | Raise e => Raise e
    | Ok eco =>
        match branchValueWithMaxEco st with
        | None => Ok (replace_winner st branchValue eco ecoInfo)
        | Some winner =>
            if gt eco (maxEco st)
               || (eq eco (maxEco st) && (0 <? winner)
                   && (height ecoInfo <? blockHeight st))
            then Ok (replace_winner st branchValue eco ecoInfo)
            else if eq eco (maxEco st) && randomizeOutput then
              if (0 <? winner) && (blockHeight st <? height ecoInfo) then Ok st
              else reservoir random st branchValue eco
            else Ok st
        end
    end.

Fixpoint select_loop (shardMask : option Z) (randomizeOutput : bool)
    (random : nat -> float) (items : PyDict.dict EcoInfo) (st : Selection)
    : Result Selection :=
  match items with
  | [] => Ok st
  | (branchValue, ecoInfo) :: items' =>
      match select_step shardMask randomizeOutput random st branchValue ecoInfo with
      | Raise e => Raise e
      | Ok st' => select_loop shardMask randomizeOutput random items' st'
      end
  end.

(** *** Polling and merging the eco infos *)

(** [ShardMask(shardMaskValue)], or [None] for the value 0. *)
Definition shardMask_of (shardMaskValue : Z) : option Z :=
  if shardMaskValue =? 0 then None else Some shardMaskValue.

(** The slaves that are sent [GET_ECO_INFO_LIST_REQUEST]. *)
Definition eco_poll_targets (self : MasterServer) (shardMask : option Z) : list Slave :=
  List.filter
    (fun slave =>
       match shardMask with
       | None => true
       | Some mask => hasOverlap slave mask
       end)
    (slavePool self).

Definition set_ecoInfos (ecoInfos : list EcoInfo) (d : PyDict.dict EcoInfo)
    : PyDict.dict EcoInfo :=
  fold_left (fun d ecoInfo => PyDict.set (branch ecoInfo) ecoInfo d) ecoInfos d.

(** [None] stands for the early [return (None, None)]. *)
Fixpoint merge_ecoInfo (responses : list GetEcoInfoListResponse)
    (branchValueToEcoInfo : PyDict.dict EcoInfo) : option (PyDict.dict EcoInfo) :=
  match responses with
  | [] => Some branchValueToEcoInfo
  | response :: responses' =>
      if negb (eco_errorCode response =? 0) then None
      else merge_ecoInfo responses'
             (set_ecoInfos (ecoInfoList response) branchValueToEcoInfo)
  end.

(** [rootCoinbaseAmount], after the loop and the [// 2]. *)
Definition rootCoinbaseAmount (branchValueToEcoInfo : PyDict.dict EcoInfo) : Z :=
  fold_left (fun acc item => acc + unconfirmedHeadersCoinbaseAmount (snd item))
            branchValueToEcoInfo 0 / 2.

Definition root_eco (self : MasterServer) (branchValueToEcoInfo : PyDict.dict EcoInfo)
    : Result float :=
  true_div (rootCoinbaseAmount branchValueToEcoInfo)
           (getNextBlockDifficulty (rootState self)).

Definition initial_selection (shardMask : option Z) (maxEco : float) : Selection :=
  {| branchValueWithMaxEco := match shardMask with None => Some 0 | Some _ => None end;
     maxEco := maxEco;
     dupEcoCount := 1;
     blockHeight := 0;
     drawn := 0 |}.

(** The winner of the selection, before any block is requested. *)
Definition select_winner (self : MasterServer) (shardMask : option Z)
    (randomizeOutput : bool) (random : nat -> float)
    (branchValueToEcoInfo : PyDict.dict EcoInfo) : Result (option Z) :=
  match root_eco self branchValueToEcoInfo with
  | Raise e => Raise e
  | Ok maxEco =>
      match select_loop shardMask randomizeOutput random branchValueToEcoInfo
                        (initial_selection shardMask maxEco) with
      | Raise e => Raise e
      | Ok st => Ok (branchValueWithMaxEco st)
      end
  end.

(** [if branchValueWithMaxEco == 0: ... root ... else: ... minor ...] *)
Definition dispatch (self : MasterServer) (address : Address) (winner : option Z)
    : M Event MineResult :=
  match winner with
  | Some 0 => createRootBlockToMineOrFallbackToMinorBlock self address
  | _ =>
      do block <- getMinorBlockToMine self winner address;
      ret (minor_or_none block)
  end.

Definition getNextBlockToMine (self : MasterServer) (address : Address)
    (shardMaskValue : Z) (randomizeOutput : bool) (random : nat -> float)
    : M Event MineResult :=
  let shardMask := shardMask_of shardMaskValue in
  do responses <-
    forM (fun slave => emit (RpcGetEcoInfoList slave);;
                       ret (reply_getEcoInfoList slave))
         (eco_poll_targets self shardMask);
  match merge_ecoInfo responses [] with
  | None => ret NoBlock
  | Some branchValueToEcoInfo =>
      do winner <- lift (select_winner self shardMask randomizeOutput random
                                       branchValueToEcoInfo);
      dispatch self address winner
  end.

End Dispatcher.

(** ** Slave link: the forwarding rule *)

Record ClusterMetadata := {
  metadata_branch : Z;
  clusterPeerId : Z;
}.

(** The connections a frame can be written to.  [NULL_CONNECTION] is the
    null sink; a peer of the network is a [P2PConnection]; a slave link is
    a [ClusterConnection]. *)
Inductive Connection `{Payloads} :=
| NULL_CONNECTION
| P2PConnection (peer : Peer)
| ClusterConnection (slave : Slave).

Section SlaveLink.
Context `{Payloads}.

Definition getPeer (self : MasterServer) (clusterPeerId : Z) : option Peer :=
  match network self with
  | None => None
  | Some net => getPeerByClusterPeerId net clusterPeerId
  end.

(** [SlaveConnection.getConnectionToForward]; [None] is Python's
    [None]: no forwarding, the frame is handled by the link itself. *)
Definition getConnectionToForward (masterServer : MasterServer)
    (metadata : ClusterMetadata) : option Connection :=
  if clusterPeerId metadata =? 0 then None
  else match getPeer masterServer (clusterPeerId metadata) with
       | None => Some NULL_CONNECTION
       | Some peer => Some (P2PConnection peer)
       end.

Definition validateConnection (connection : Connection) : bool :=
  match connection with
  | NULL_CONNECTION => true
  | P2PConnection _ => true
  | ClusterConnection _ => false
  end.
End SlaveLink.

(** ** Life cycle: bring-up and shutdown *)

Section Lifecycle.
Context `{Core} `{!SlaveReplies}.

Definition set_shutdownFuture (f : Future) (self : MasterServer) : MasterServer :=
  {| rootState := rootState self;
     network := network self;
     branchToSlaves := branchToSlaves self;
     slavePool := slavePool self;
     clusterActiveFuture := clusterActiveFuture self;
     shutdownFuture := f;
     rootBlockUpdateQueue := rootBlockUpdateQueue self;
     isUpdatingRootBlock := isUpdatingRootBlock self;
     artificialTxCount := artificialTxCount self |}.

Definition set_clusterActiveFuture (f : Future) (self : MasterServer) : MasterServer :=
  {| rootState := rootState self;
     network := network self;
     branchToSlaves := branchToSlaves self;
     slavePool := slavePool self;
     clusterActiveFuture := f;
     shutdownFuture := shutdownFuture self;
     rootBlockUpdateQueue := rootBlockUpdateQueue self;
     isUpdatingRootBlock := isUpdatingRootBlock self;
     artificialTxCount := artificialTxCount self |}.

Definition set_registry (pool : list Slave) (index : gmap Z (list Slave))
    (self : MasterServer) : MasterServer :=
  {| rootState := rootState self;
     network := network self;
     branchToSlaves := index;
     slavePool := pool;
     clusterActiveFuture := clusterActiveFuture self;
     shutdownFuture := shutdownFuture self;
     rootBlockUpdateQueue := rootBlockUpdateQueue self;
     isUpdatingRootBlock := isUpdatingRootBlock self;
     artificialTxCount := artificialTxCount self |}.

Definition shutdown (self : MasterServer) : MasterServer :=
  let self :=
    if negb (done (shutdownFuture self)) then set_shutdownFuture HasResult self
    else self in
  if negb (done (clusterActiveFuture self)) then
    set_clusterActiveFuture (HasException "failed to start the cluster") self
  else self.

(** [SlaveConnection(...)]: the constructor checks that the mask list is
    not empty. *)
Definition new_SlaveConnection (slaveInfo : SlaveInfo) : Result Slave :=
  match info_shardMaskList slaveInfo with
  | [] => Raise CheckFailed
  | _ => Ok {| id := info_id slaveInfo; shardMaskList := info_shardMaskList slaveInfo |}
  end.

(** [sendPing] and the two comparisons with the configuration. *)
Definition verify_ping (self : MasterServer) (slaveInfo : SlaveInfo) (slave : Slave)
    : M Event MasterServer :=
  emit (RpcPing slave);;
  let '(id, shardMaskList) := reply_ping slave in
  let self := if negb (bool_decide (id = info_id slaveInfo)) then shutdown self else self in
  let self :=
    if negb (bool_decide (shardMaskList = info_shardMaskList slaveInfo))
    then shutdown self else self in
  ret self.

(** [branchToSlaves.setdefault(branch.value, []).append(slave)] for
    every shard the slave has. *)
Definition register_shards (slave : Slave) (index : gmap Z (list Slave)) : gmap Z (list Slave) :=
  fold_left
    (fun index shardId =>
       let branchValue := Branch_create SHARD_SIZE shardId in
       if hasShard slave shardId then
         <[branchValue := default [] (index !! branchValue) ++ [slave]]> index
       else index)
    (range SHARD_SIZE) index.

(** One iteration of the loop of [__connectToSlaves]. *)
Definition connect_slave (self : MasterServer) (slaveInfo : SlaveInfo)
    : M Event MasterServer :=
  do slave <- lift (new_SlaveConnection slaveInfo);
  do self <- verify_ping self slaveInfo slave;
  ret (set_registry (slavePool self ++ [slave])
                    (register_shards slave (branchToSlaves self)) self).

Fixpoint connectToSlaves (self : MasterServer) (slaveInfoList : list SlaveInfo)
    : M Event MasterServer :=
  match slaveInfoList with
  | [] => ret self
  | slaveInfo :: rest =>
      do self <- connect_slave self slaveInfo;
      connectToSlaves self rest
  end.
End Lifecycle.

(** ** Root-block update serializer *)

Section Serializer.
Context `{Core} `{!SlaveReplies}.

(** [broadcastRpc(ADD_ROOT_BLOCK_REQUEST, AddRootBlockRequest(rBlock, False))]
    and the [gather] of the error codes. *)
Definition broadcast_addRootBlock (self : MasterServer) (rBlock : RootBlock)
    : M Event (list Z) :=
  forM (fun slaveConn => emit (RpcAddRootBlock slaveConn rBlock false);;
                         ret (reply_addRootBlock slaveConn rBlock))
       (slavePool self).

(** [updateTip = updateTip or self.rootState.addBlock(rBlock)] inside
    [try ... except ValueError: continue].  [or] does not evaluate its
    right operand when the left one is true.  The result is the new
    [updateTip], or [None] for the [continue]. *)
Definition try_addBlock (updateTip : bool) (rs : RootState) (rBlock : RootBlock)
    : M Event (option bool * RootState) :=
  if updateTip then ret (Some true, rs)
  else
    emit (RootStateAddBlock rBlock);;
    match addBlock rs rBlock with
    | (rs', Ok updated) => ret (Some updated, rs')
    | (rs', Raise ValueError) => ret (None, rs')
    | (rs', Raise e) => raise e
    end.

(** The [while] loop: it ends when the queue is empty. *)
Fixpoint drain (self : MasterServer) (queue : list RootBlock) (updateTip : bool)
    (rs : RootState) : M Event (bool * RootState) :=
  match queue with
  | [] => ret (updateTip, rs)
  | rBlock :: queue' =>
      do r <- try_addBlock updateTip rs rBlock;
      match r with
      | (None, rs') => drain self queue' updateTip rs'
      | (Some updateTip', rs') =>
          do resultList <- broadcast_addRootBlock self rBlock;
          if forallb (fun errorCode => errorCode =? 0) resultList
          then drain self queue' updateTip' rs'
          else raise CheckFailed
      end
  end.

Definition after_drain (rs : RootState) (self : MasterServer) : MasterServer :=
  {| rootState := rs;
     network := network self;
     branchToSlaves := branchToSlaves self;
     slavePool := slavePool self;
     clusterActiveFuture := clusterActiveFuture self;
     shutdownFuture := shutdownFuture self;
     rootBlockUpdateQueue := [];
     isUpdatingRootBlock := false;
     artificialTxCount := artificialTxCount self |}.

(** [for peer in self.network.iteratePeers(): peer.sendUpdatedTip()] *)
Definition notify_peers (self : MasterServer) (updateTip : bool) : M Event unit :=
  match network self with
  | Some net =>
      if updateTip then
        do _ <- forM (fun peer => emit (PeerSendUpdatedTip peer)) (iteratePeers net);
        ret tt
      else ret tt
  | None => ret tt
  end.

Definition updateRooBlockAsync (self : MasterServer) : M Event MasterServer :=
  if negb (isUpdatingRootBlock self) then raise CheckFailed
  else
    do r <- drain self (rootBlockUpdateQueue self) false (rootState self);
    notify_peers self (fst r);;
    ret (after_drain (snd r) self).
End Serializer.

(** ** Transaction fan-out *)

Section FanOut.
Context `{Core} `{!SlaveReplies}.

Definition slave_addTransaction (slave : Slave) (tx : Transaction) : M Event bool :=
  emit (RpcAddTransaction slave tx);;
  ret (reply_addTransaction slave tx =? 0).

Definition addTransaction (self : MasterServer) (tx : Transaction) : M Event bool :=
  let branchValue := tx_branchValue tx in
  match branchToSlaves self !! branchValue with
  | None => ret false
  | Some slaves =>
      do results <- forM (fun slave => slave_addTransaction slave tx) slaves;
      ret (forallb (fun r => r) results)
  end.
End FanOut.

(** ** A sample cluster

    Two slaves and two shards, with integers for the payloads; the
    examples below run the master on it. *)

Module Sample.

Definition payloads : Payloads :=
  {| Address := Z; Header := Z; MinorBlock := Z; RootBlock := Z;
     Transaction := Z; Peer := string; RootState := Z |}.

(** A mask matches the bits of a shard id below its leading bit; a
    branch value is the shard size with the shard id below it. *)
Definition low_bits (mask : Z) : Z := Z.shiftl 1 (Z.log2 mask) - 1.

Definition mask_containShardId (mask shardId : Z) : bool :=
  Z.land (low_bits mask) shardId =? Z.land mask (low_bits mask).

Definition branch_getShardSize (value : Z) : Z := Z.shiftl 1 (Z.log2 value).
Definition branch_getShardId (value : Z) : Z := Z.lxor value (branch_getShardSize value).

Definition masks_haveOverlap (m1 m2 : Z) : bool :=
  let bitMask := Z.shiftl 1 (Z.min (Z.log2 m1) (Z.log2 m2)) - 1 in
  Z.land m1 bitMask =? Z.land m2 bitMask.

(** The root state is the height of its tip: a block below zero is
    invalid, a block above the tip becomes the tip. *)
Definition root_addBlock (tip rBlock : Z) : Z * Result bool :=
  if rBlock <? 0 then (tip, Raise ValueError)
  else if tip <? rBlock then (rBlock, Ok true)
  else (tip, Ok false).

Definition core : @Core payloads :=
  {| containShardId := mask_containShardId;
     containBranch := fun mask value => mask_containShardId mask (branch_getShardId value);
     mask_hasOverlap := masks_haveOverlap;
     Branch_create := Z.lor;
     getShardId := branch_getShardId;
     getShardSize := branch_getShardSize;
     addressInBranch := fun (address : @Address payloads) branch =>
       match branch with
       | None => Raise TypeError
       | Some _ => Ok address
       end;
     tx_branchValue := fun tx : @Transaction payloads => tx;
     addBlock := root_addBlock;
     createBlockToMine := fun _ (headerList : list (@Header payloads)) _ =>
       Z.of_nat (length headerList);
     getNextBlockDifficulty := fun _ => 10;
     SHARD_SIZE := 2;
     PROOF_OF_PROGRESS_BLOCKS := 1 |}.

(** Slave [s1] runs shard 0 (branch value 2), slave [s2] shard 1
    (branch value 3). *)
Definition s1 : Slave := {| id := "s1"; shardMaskList := [2] |}.
Definition s2 : Slave := {| id := "s2"; shardMaskList := [3] |}.

Definition is_s1 (s : Slave) : bool := bool_decide (id s = "s1").

(** Scenario S2 of the specification: shard 0 has eco 15, shard 1 has
    eco 5, the root has eco 10. *)
Definition ecoA : EcoInfo :=
  {| branch := 2; height := 5; coinbaseAmount := 30; difficulty := 2;
     unconfirmedHeadersCoinbaseAmount := 100 |}.
Definition ecoB : EcoInfo :=
  {| branch := 3; height := 3; coinbaseAmount := 50; difficulty := 10;
     unconfirmedHeadersCoinbaseAmount := 100 |}.

Definition eco_reply (s : Slave) : GetEcoInfoListResponse :=
  {| eco_errorCode := 0; ecoInfoList := if is_s1 s then [ecoA] else [ecoB] |}.

(** Every slave reports shard 1 only. *)
Definition stray_reply (s : Slave) : GetEcoInfoListResponse :=
  {| eco_errorCode := 0; ecoInfoList := [ecoB] |}.

(** Every shard has two unconfirmed headers. *)
Definition headers_reply (s : Slave) : @GetUnconfirmedHeadersResponse payloads :=
  {| headers_errorCode := 0;
     headersInfoList :=
       if is_s1 s
       then [ {| headers_branch := 2; headerList := [11; 12] : list (@Header payloads) |} ]
       else [ {| headers_branch := 3; headerList := [21; 22] : list (@Header payloads) |} ] |}.

(** Shard 1 has no unconfirmed header. *)
Definition headers_reply_short (s : Slave) : @GetUnconfirmedHeadersResponse payloads :=
  {| headers_errorCode := 0;
     headersInfoList :=
       if is_s1 s
       then [ {| headers_branch := 2; headerList := [11; 12] : list (@Header payloads) |} ]
       else [ {| headers_branch := 3; headerList := [] : list (@Header payloads) |} ] |}.

Definition replies (eco : Slave -> GetEcoInfoListResponse)
    (headers : Slave -> @GetUnconfirmedHeadersResponse payloads)
    (pingId : Slave -> string) : @SlaveReplies payloads :=
  {| reply_ping := fun s => (pingId s, shardMaskList s);
     reply_getEcoInfoList := eco;
     reply_getUnconfirmedHeaders := headers;
     reply_getNextBlockToMine := fun s branchValue _ _ =>
       {| next_errorCode := 0; block := (100 + branchValue) : @MinorBlock payloads |};
     reply_addTransaction := fun s _ => if is_s1 s then 0 else 1;
     reply_addRootBlock := fun _ _ => 0 |}.

Definition net : @Network payloads :=
  {| getPeerByClusterPeerId := fun c =>
       if c =? 7 then Some ("p7"%string : @Peer payloads) else None;
     iteratePeers := ["p7"; "p8"]%string : list (@Peer payloads) |}.

(** The master after bring-up. *)
Definition master : @MasterServer payloads :=
  {| rootState := 0 : @RootState payloads;
     network := Some net;
     branchToSlaves := {[ 2 := [s1]; 3 := [s2] ]};
     slavePool := [s1; s2];
     clusterActiveFuture := HasResult;
     shutdownFuture := Pending;
     rootBlockUpdateQueue := [];
     isUpdatingRootBlock := false;
     artificialTxCount := 0 |}.

(** The master before bring-up. *)
Definition fresh : @MasterServer payloads :=
  {| rootState := 0 : @RootState payloads;
     network := None;
     branchToSlaves := ∅;
     slavePool := [];
     clusterActiveFuture := Pending;
     shutdownFuture := Pending;
     rootBlockUpdateQueue := [];
     isUpdatingRootBlock := false;
     artificialTxCount := 0 |}.

Definition with_queue (queue : list (@RootBlock payloads)) (self : @MasterServer payloads)
    : @MasterServer payloads :=
  {| rootState := rootState self;
     network := network self;
     branchToSlaves := branchToSlaves self;
     slavePool := slavePool self;
     clusterActiveFuture := clusterActiveFuture self;
     shutdownFuture := shutdownFuture self;
     rootBlockUpdateQueue := queue;
     isUpdatingRootBlock := true;
     artificialTxCount := artificialTxCount self |}.

(** The floats 0.0 and 1.0. *)
Definition zero : PyFloat.float := S754_zero false.
Definition one : PyFloat.float := S754_finite false 4503599627370496 (-52).

(** A tie: the winner is shard 1 at height 5 with eco 1.0 and the
    candidate, shard 0, has eco 1.0 at height 3. *)
Definition tie_state : Selection :=
  {| branchValueWithMaxEco := Some 3; maxEco := one; dupEcoCount := 1;
     blockHeight := 5; drawn := 0 |}.
Definition tie_candidate : EcoInfo :=
  {| branch := 2; height := 3; coinbaseAmount := 1; difficulty := 1;
     unconfirmedHeadersCoinbaseAmount := 0 |}.

(** The same tie with the winner recorded at the candidate's height. *)
Definition level_state : Selection :=
  {| branchValueWithMaxEco := Some 3; maxEco := one; dupEcoCount := 1;
     blockHeight := 3; drawn := 0 |}.

(** A shard whose unconfirmed headers carry a coinbase amount of 1. *)
Definition oddA : EcoInfo :=
  {| branch := 2; height := 5; coinbaseAmount := 30; difficulty := 2;
     unconfirmedHeadersCoinbaseAmount := 1 |}.

(** Two shards without coinbase, at heights 5 and 3. *)
Definition idleA : EcoInfo :=
  {| branch := 2; height := 5; coinbaseAmount := 0; difficulty := 1;
     unconfirmedHeadersCoinbaseAmount := 0 |}.
Definition idleB : EcoInfo :=
  {| branch := 3; height := 3; coinbaseAmount := 0; difficulty := 1;
     unconfirmedHeadersCoinbaseAmount := 0 |}.

(** Two shards of eco 2.0, at heights 5 and 3. *)
Definition busyA : EcoInfo :=
  {| branch := 2; height := 5; coinbaseAmount := 4; difficulty := 2;
     unconfirmedHeadersCoinbaseAmount := 0 |}.
Definition busyB : EcoInfo :=
  {| branch := 3; height := 3; coinbaseAmount := 6; difficulty := 3;
     unconfirmedHeadersCoinbaseAmount := 0 |}.

(** The configuration of slave [s1], and a slave that answers PING with
    the id [s2]. *)
Definition info1 : SlaveInfo := {| info_id := "s1"; info_shardMaskList := [2] |}.
Definition wrong_id (s : Slave) : string := "s2".

(** [random.random()] returning 0.75 every time. *)
Definition three_quarters : PyFloat.float := S754_finite false 6755399441055744 (-53).

End Sample.

(** ** Definitions used to state the properties *)

Section Statements.
Context `{Core}.

(** The sum of [unconfirmedHeadersCoinbaseAmount] over the entries of a
    merged map. *)
Definition sum_unconfirmed (d : PyDict.dict EcoInfo) : Z :=
  foldr Z.add 0 (map (fun item => unconfirmedHeadersCoinbaseAmount (snd item)) d).

(** The entries of a merged map that pass the mask filter of the loop. *)
Definition inside_mask (shardMask : option Z) (d : PyDict.dict EcoInfo)
    : PyDict.dict EcoInfo :=
  List.filter (fun item => negb (outside_mask shardMask (fst item))) d.

(** The headers of the shards, concatenated in the order of the ids. *)
Definition headers_of (d : PyDict.dict (list Header)) (shardIds : list Z) : list Header :=
  concat (map (fun shardId => default [] (PyDict.get shardId d)) shardIds).

(** The shard has fewer headers than the proof of progress asks for. *)
Definition lacks_progress (d : PyDict.dict (list Header)) (shardId : Z) : bool :=
  Z.of_nat (length (default [] (PyDict.get shardId d))) <? PROOF_OF_PROGRESS_BLOCKS.
End Statements.

Section LifecycleStatements.
Context `{Core} `{!SlaveReplies}.

(** The PING answer of the slave differs from its configuration. *)
Definition ping_mismatch (slaveInfo : SlaveInfo) : bool :=
  match new_SlaveConnection slaveInfo with
  | Raise _ => false
  | Ok slave =>
      negb (bool_decide (fst (reply_ping slave) = info_id slaveInfo))
      || negb (bool_decide (snd (reply_ping slave) = info_shardMaskList slaveInfo))
  end.

(** The shutdown future and the readiness future of a master. *)
Definition futures (self : MasterServer) : Future * Future :=
  (shutdownFuture self, clusterActiveFuture self).

(** The broadcast of one root block to every slave of the pool. *)
Definition broadcast_events (self : MasterServer) (rBlock : RootBlock) : list Event :=
  map (fun slaveConn => RpcAddRootBlock slaveConn rBlock false) (slavePool self).
End LifecycleStatements.

(** ** Definitions used to state further properties *)

Section MoreStatements.
Context `{Core} `{!SlaveReplies}.

(** The eco info that was reported last for a branch value. *)
Definition last_reported (branchValue : Z) (ecoInfos : list EcoInfo) : option EcoInfo :=
  List.find (fun ecoInfo => branch ecoInfo =? branchValue) (rev ecoInfos).

(** All eco infos of a list of responses, in the order of arrival. *)
Definition reported (responses : list GetEcoInfoListResponse) : list EcoInfo :=
  concat (map ecoInfoList responses).

(** A headers response that makes the root step give up: an error code,
    or a branch of another shard size. *)
Definition bad_headers (response : GetUnconfirmedHeadersResponse) : bool :=
  negb (headers_errorCode response =? 0)
  || existsb (fun headersInfo => negb (getShardSize (headers_branch headersInfo) =? SHARD_SIZE))
             (headersInfoList response).
End MoreStatements.

(** ** Further fixtures on the sample cluster *)

Module Fixtures.
Import Sample.

(** Slave [s2] answers the eco request with an error code. *)
Definition eco_reply_error (s : Slave) : GetEcoInfoListResponse :=
  if is_s1 s then eco_reply s else {| eco_errorCode := 1; ecoInfoList := [] |}.

(** Slave [s2] answers the headers request with an error code. *)
Definition headers_reply_error (s : Slave) : @GetUnconfirmedHeadersResponse payloads :=
  if is_s1 s then headers_reply s
  else {| headers_errorCode := 1; headersInfoList := [] |}.

(** The sample collaborators with a next root difficulty of zero. *)
Definition core_zero_difficulty : @Core payloads :=
  {| containShardId := mask_containShardId;
     containBranch := fun mask value => mask_containShardId mask (branch_getShardId value);
     mask_hasOverlap := masks_haveOverlap;
     Branch_create := Z.lor;
     getShardId := branch_getShardId;
     getShardSize := branch_getShardSize;
     addressInBranch := fun (address : @Address payloads) branch =>
       match branch with
       | None => Raise TypeError
       | Some _ => Ok address
       end;
     tx_branchValue := fun tx : @Transaction payloads => tx;
     addBlock := root_addBlock;
     createBlockToMine := fun _ (headerList : list (@Header payloads)) _ =>
       Z.of_nat (length headerList);
     getNextBlockDifficulty := fun _ => 0;
     SHARD_SIZE := 2;
     PROOF_OF_PROGRESS_BLOCKS := 1 |}.

(** A shard that reports a difficulty of zero. *)
Definition haltedB : EcoInfo :=
  {| branch := 3; height := 3; coinbaseAmount := 50; difficulty := 0;
     unconfirmedHeadersCoinbaseAmount := 100 |}.



(** A slave configured with the mask 6, which contains neither shard 0
    nor shard 1. *)
Definition info_far : SlaveInfo := {| info_id := "far"; info_shardMaskList := [6] |}.
Definition s_far : Slave := {| id := "far"; shardMaskList := [6] |}.

(** The configuration of slave [s2], and the master after the bring-up
    of [s1] and [s2] from the fresh master. *)
Definition info2 : SlaveInfo := {| info_id := "s2"; info_shardMaskList := [3] |}.

Definition brought_up : @MasterServer payloads :=
  {| rootState := 0 : @RootState payloads;
     network := None;
     branchToSlaves := {[ 2 := [s1]; 3 := [s2] ]};
     slavePool := [s1; s2];
     clusterActiveFuture := Pending;
     shutdownFuture := Pending;
     rootBlockUpdateQueue := [];
     isUpdatingRootBlock := false;
     artificialTxCount := 0 |}.

(** Shard 0 reported twice, by a replica, with a newer height. *)
Definition ecoA' : EcoInfo :=
  {| branch := 2; height := 6; coinbaseAmount := 30; difficulty := 2;
     unconfirmedHeadersCoinbaseAmount := 100 |}.
End Fixtures.

Section RegistryStatements.
Context `{Core} `{!SlaveReplies}.

(** One turn of the loop of [register_shards] over the shard ids. *)
Definition register_shard (slave : Slave) (index : gmap Z (list Slave)) (shardId : Z)
    : gmap Z (list Slave) :=
  if hasShard slave shardId then
    <[Branch_create SHARD_SIZE shardId :=
        default [] (index !! Branch_create SHARD_SIZE shardId) ++ [slave]]> index
  else index.

(** Every list of the registry is non-empty, and every slave listed
    under a branch value is in the pool and has a shard of that branch. *)
Definition registry_sound (self : MasterServer) : Prop :=
  forall branchValue slaves,
    branchToSlaves self !! branchValue = Some slaves ->
    slaves <> []
    /\ forall slave,
        In slave slaves ->
        In slave (slavePool self)
        /\ exists shardId,
            0 <= shardId < SHARD_SIZE
            /\ branchValue = Branch_create SHARD_SIZE shardId
            /\ hasShard slave shardId = true.
End RegistryStatements.

Section SerializerStatements.
Context `{Core} `{!SlaveReplies}.

(** The requests to the slaves among the calls of a trace. *)
Definition is_broadcast (ev : Event) : bool :=
  match ev with
  | RpcAddRootBlock _ _ _ => true
  | _ => false
  end.

Definition broadcasts (t : list Event) : list Event := List.filter is_broadcast t.

(** The root blocks that a trace passes to [rootState.addBlock]. *)
Definition added_blocks (t : list Event) : list RootBlock :=
  omap (fun ev => match ev with RootStateAddBlock rBlock => Some rBlock | _ => None end) t.

(** [updateRootBlock]: the block is queued; when no drain is under way
    the flag is set and a drain is scheduled, which the second component
    tells. *)
Definition enqueue (rBlock : RootBlock) (updating : bool) (self : MasterServer)
    : MasterServer :=
  {| rootState := rootState self;
     network := network self;
     branchToSlaves := branchToSlaves self;
     slavePool := slavePool self;
     clusterActiveFuture := clusterActiveFuture self;
     shutdownFuture := shutdownFuture self;
     rootBlockUpdateQueue := rootBlockUpdateQueue self ++ [rBlock];
     isUpdatingRootBlock := updating;
     artificialTxCount := artificialTxCount self |}.

Definition updateRootBlock (self : MasterServer) (rBlock : RootBlock)
    : MasterServer * bool :=
  if negb (isUpdatingRootBlock self) then (enqueue rBlock true self, true)
  else (enqueue rBlock (isUpdatingRootBlock self) self, false).

(** A sequence of calls of [updateRootBlock] with no drain running in
    between: the final master and the number of drains scheduled. *)
Fixpoint updateRootBlocks (self : MasterServer) (rBlocks : list RootBlock)
    : MasterServer * nat :=
  match rBlocks with
  | [] => (self, 0%nat)
  | rBlock :: rBlocks' =>
      let '(self1, scheduled) := updateRootBlock self rBlock in
      let '(self2, n) := updateRootBlocks self1 rBlocks' in
      (self2, ((if scheduled then 1 else 0) + n)%nat)
  end.
End SerializerStatements.

Module SerializerFixtures.
Import Sample.

(** Slave [s2] answers every broadcast of a root block with an error
    code. *)
Definition replies_nack : @SlaveReplies payloads :=
  {| reply_ping := fun s => (id s, shardMaskList s);
     reply_getEcoInfoList := eco_reply;
     reply_getUnconfirmedHeaders := headers_reply;
     reply_getNextBlockToMine := fun s branchValue _ _ =>
       {| next_errorCode := 0; block := (100 + branchValue) : @MinorBlock payloads |};
     reply_addTransaction := fun s _ => 0;
     reply_addRootBlock := fun s _ => if is_s1 s then 0 else 1 |}.
End SerializerFixtures.

(** ** The rest of the master: mesh setup, start, client requests *)

Record GetAccountDataResponse := {
  account_errorCode : Z;
  transactionCount : Z;
  balance : Z;
}.

Record ShardStats := {
  stats_branch : Z;
  stats_height : Z;
  txCount60s : Z;
}.

Record GetStatsResponse := {
  stats_errorCode : Z;
  shardStatsList : list ShardStats;
}.

(** More of the imported code and of the slaves' answers. *)
Class MoreCore `{Payloads} := {
  (** the bytes of a minor block *)
  BlockData : Type;
  (** [address.getShardId(shardSize)] *)
  address_getShardId : Address -> Z -> Z;
  (** [rootState.validateBlock(block)], which raises on failure *)
  validateBlock : RootState -> RootBlock -> Result unit;
  (** [rootState.tip.height] *)
  tip_height : RootState -> Z;
}.

Class MoreReplies `{MoreCore} := {
  (** [resp.resultList] of CONNECT_TO_SLAVES *)
  reply_connectToSlaves : Slave -> list SlaveInfo -> list string;
  reply_getAccountData : Slave -> Address -> GetAccountDataResponse;
  reply_addMinorBlock : Slave -> BlockData -> Z;
  reply_getStats : Slave -> GetStatsResponse;
}.

Inductive MoreEvent `{MoreCore} :=
| Earlier (ev : Event)
| RpcConnectToSlaves (s : Slave) (slaveInfoList : list SlaveInfo)
| RpcGetAccountData (s : Slave) (address : Address)
| RpcAddMinorBlock (s : Slave) (blockData : BlockData)
| RpcGetStats (s : Slave)
| RootStateValidateBlock (block : RootBlock).

(** A computation over the calls above, as one over all calls. *)
Definition earlier `{MoreCore} {A} (m : M Event A) : M MoreEvent A :=
  (map Earlier (fst m), snd m).

Section MeshAndStart.
Context `{Core} `{!SlaveReplies} `{!MoreCore} `{!MoreReplies}.

(** [SlaveConnection.sendConnectToSlaves]: the first non-empty result
    makes it return [False]. *)
Definition sendConnectToSlaves (slave : Slave) (slaveInfoList : list SlaveInfo)
    : M MoreEvent bool :=
  emit (RpcConnectToSlaves slave slaveInfoList);;
  let resultList := reply_connectToSlaves slave slaveInfoList in
  if negb (length resultList =? length slaveInfoList)%nat then raise CheckFailed
  else ret (forallb (fun result => (String.length result =? 0)%nat) resultList).

(** [__setupSlaveToSlaveConnections] over the slaves that are left. *)
Fixpoint setupSlaveToSlaveConnections (self : MasterServer) (slaves : list Slave)
    (slaveInfoList : list SlaveInfo) : M MoreEvent MasterServer :=
  match slaves with
  | [] => ret self
  | slave :: slaves' =>
      do success <- sendConnectToSlaves slave slaveInfoList;
      let self := if negb success then shutdown self else self in
      setupSlaveToSlaveConnections self slaves' slaveInfoList
  end.

(** [__hasAllShards] *)
Definition hasAllShards (self : MasterServer) : bool :=
  (Z.of_nat (size (branchToSlaves self)) =? SHARD_SIZE)
  && forallb (fun item => (0 <? length (snd item))%nat) (map_to_list (branchToSlaves self)).

(** How [__initCluster] ends: it returns early on missing shards; it
    resolves the readiness future; or [set_result] finds the future
    already resolved and raises [InvalidStateError]. *)
Inductive InitOutcome :=
| MissingShards (self : MasterServer)
| ClusterActive (self : MasterServer)
| InvalidStateError (self : MasterServer).

Definition initCluster (self : MasterServer) (slaveInfoList : list SlaveInfo)
    : M MoreEvent InitOutcome :=
  do self <- earlier (connectToSlaves self slaveInfoList);
  if negb (hasAllShards self) then ret (MissingShards self)
  else
    do self <- setupSlaveToSlaveConnections self (slavePool self) slaveInfoList;
    if done (clusterActiveFuture self) then ret (InvalidStateError self)
    else ret (ClusterActive (set_clusterActiveFuture HasResult self)).

(** A slave reports a failure to connect to some other slave. *)
Definition mesh_failure (slaveInfoList : list SlaveInfo) (slave : Slave) : bool :=
  negb (forallb (fun result => (String.length result =? 0)%nat)
                (reply_connectToSlaves slave slaveInfoList)).
End MeshAndStart.

Section ClientRequests.
Context `{Core} `{!SlaveReplies} `{!MoreCore} `{!MoreReplies}.

(** [SlaveConnection.getAccountData] *)
Definition slave_getAccountData (slave : Slave) (address : Address)
    : M MoreEvent GetAccountDataResponse :=
  emit (RpcGetAccountData slave address);;
  let resp := reply_getAccountData slave address in
  if negb (account_errorCode resp =? 0) then raise CheckFailed else ret resp.

(** [MasterServer.getAccountData]: the branch value and the response. *)
Definition getAccountData (self : MasterServer) (address : Address)
    : M MoreEvent (Z * GetAccountDataResponse) :=
  let shardId := address_getShardId address SHARD_SIZE in
  let branchValue := Branch_create SHARD_SIZE shardId in
  do slave <- lift (getSlaveConnection self branchValue);
  do resp <- slave_getAccountData slave address;
  ret (Branch_create SHARD_SIZE shardId, resp).

Definition getTransactionCount (self : MasterServer) (address : Address)
    : M MoreEvent (Z * Z) :=
  do r <- getAccountData self address;
  ret (fst r, transactionCount (snd r)).

Definition getBalance (self : MasterServer) (address : Address) : M MoreEvent (Z * Z) :=
  do r <- getAccountData self address;
  ret (fst r, balance (snd r)).

Definition addRawMinorBlock (self : MasterServer) (branchValue : Z) (blockData : BlockData)
    : M MoreEvent bool :=
  match branchToSlaves self !! branchValue with
  | None => ret false
  | Some _ =>
      do slave <- lift (getSlaveConnection self branchValue);
      emit (RpcAddMinorBlock slave blockData);;
      ret (reply_addMinorBlock slave blockData =? 0)
  end.

(** [addRootBlock]: validate, queue, and drain inline when no drain is
    under way. *)
Definition addRootBlock (self : MasterServer) (block : RootBlock)
    : M MoreEvent MasterServer :=
  emit (RootStateValidateBlock block);;
  do _ <- lift (validateBlock (rootState self) block);
  if negb (isUpdatingRootBlock self)
  then earlier (updateRooBlockAsync (enqueue block true self))
  else ret (enqueue block (isUpdatingRootBlock self) self).
End ClientRequests.

Module MoreSample.
Import Sample Fixtures.

Definition more_core : @MoreCore payloads :=
  {| BlockData := list Z;
     address_getShardId := fun (address : @Address payloads) shardSize => address mod shardSize;
     validateBlock := fun (tip : @RootState payloads) (block : @RootBlock payloads) =>
       if block <? 0 then Raise ValueError else Ok tt;
     tip_height := fun tip : @RootState payloads => tip |}.

(** Two shard statistics, for branch 2 and branch 3. *)
Definition statsA : ShardStats := {| stats_branch := 2; stats_height := 5; txCount60s := 40 |}.
Definition statsB : ShardStats := {| stats_branch := 3; stats_height := 3; txCount60s := 2 |}.

(** The slaves' other answers: [mesh] is the result list of
    CONNECT_TO_SLAVES; an address below zero is answered with an error
    code; [stats] is the answer to GET_STATS. *)
Definition more_replies (mesh : Slave -> list string) (stats : Slave -> GetStatsResponse)
    : @MoreReplies payloads more_core :=
  {| reply_connectToSlaves := fun s _ => mesh s;
     reply_getAccountData := fun s (address : @Address payloads) =>
       {| account_errorCode := if address <? 0 then 1 else 0;
          transactionCount := 3; balance := 70 |};
     reply_addMinorBlock := fun s (blockData : @BlockData payloads more_core) =>
       Z.of_nat (length (blockData : list Z));
     reply_getStats := stats |}.

Definition mesh_ok (s : Slave) : list string := [""; ""]%string.
Definition mesh_refused (s : Slave) : list string :=
  if is_s1 s then [""; ""]%string else [""; "refused"]%string.

Definition stats_reply (s : Slave) : GetStatsResponse :=
  {| stats_errorCode := 0; shardStatsList := if is_s1 s then [statsA] else [statsB] |}.

(** The master after a start that succeeded. *)
Definition active : @MasterServer payloads :=
  {| rootState := 0 : @RootState payloads;
     network := None;
     branchToSlaves := {[ 2 := [s1]; 3 := [s2] ]};
     slavePool := [s1; s2];
     clusterActiveFuture := HasResult;
     shutdownFuture := Pending;
     rootBlockUpdateQueue := [];
     isUpdatingRootBlock := false;
     artificialTxCount := 0 |}.
End MoreSample.

(** ** Statistics *)

Record Stats := {
  shardSize : Z;
  rootHeight : Z;
  total_txCount60s : Z;
  (** one entry per shard id: [None] for the empty dictionary, otherwise
      the values under ["height"] and ["txCount60s"] *)
  shards : list (option (Z * Z));
}.

(** [getStats] returns the statistics, or indexing [shards] raises
    [IndexError]. *)
Inductive StatsOutcome :=
| StatsReturned (stats : Stats)
| StatsIndexError.

Section Statistics.
Context `{Core} `{!SlaveReplies} `{!MoreCore} `{!MoreReplies}.

Definition set_shardStats (shardStatsList : list ShardStats) (d : PyDict.dict ShardStats)
    : PyDict.dict ShardStats :=
  fold_left (fun d shardStats => PyDict.set (stats_branch shardStats) shardStats d)
            shardStatsList d.

(** The merge of the responses; the first error code fails the [check]. *)
Fixpoint merge_stats (responses : list GetStatsResponse) (d : PyDict.dict ShardStats)
    : Result (PyDict.dict ShardStats) :=
  match responses with
  | [] => Ok d
  | resp :: responses' =>
      if negb (stats_errorCode resp =? 0) then Raise CheckFailed
      else merge_stats responses' (set_shardStats (shardStatsList resp) d)
  end.

(** [l[i] = v] on a Python list: a negative index counts from the end,
    an index out of range raises [IndexError] ([None]). *)
Definition py_setitem {A} (l : list A) (i : Z) (v : A) : option (list A) :=
  let n := Z.of_nat (length l) in
  if (0 <=? i) && (i <? n) then Some (<[Z.to_nat i := v]> l)
  else if (- n <=? i) && (i <? 0) then Some (<[Z.to_nat (i + n) := v]> l)
  else None.

(** The loop that fills [shards]. *)
Fixpoint fill_shards (values : list ShardStats) (shards : list (option (Z * Z)))
    : option (list (option (Z * Z))) :=
  match values with
  | [] => Some shards
  | shardStats :: values' =>
      match py_setitem shards (getShardId (stats_branch shardStats))
                       (Some (stats_height shardStats, txCount60s shardStats)) with
      | None => None
      | Some shards' => fill_shards values' shards'
      end
  end.

Definition getStats (self : MasterServer) : M MoreEvent StatsOutcome :=
  do responses <-
    forM (fun slave => emit (RpcGetStats slave);; ret (reply_getStats slave))
         (slavePool self);
  do branchValueToShardStats <- lift (merge_stats responses []);
  if negb (Z.of_nat (length branchValueToShardStats) =? SHARD_SIZE) then raise CheckFailed
  else
    match fill_shards (PyDict.values branchValueToShardStats)
                      (replicate (Z.to_nat SHARD_SIZE) None) with
    | None => ret StatsIndexError
    | Some shards =>
        ret (StatsReturned
               {| shardSize := SHARD_SIZE;
                  rootHeight := tip_height (rootState self);
                  total_txCount60s :=
                    fold_left Z.add (map txCount60s (PyDict.values branchValueToShardStats)) 0;
                  shards := shards |})
    end.

(** The statistics that were reported last for a branch value. *)
Definition last_stats (branchValue : Z) (reports : list ShardStats) : option ShardStats :=
  List.find (fun shardStats => stats_branch shardStats =? branchValue) (rev reports).
End Statistics.
(** * Properties *)

(** ** Floats *)

Example true_div_3_2 :
  PyFloat.true_div 3 2 = Ok (S754_finite false 6755399441055744 (-52)).
Proof. vm_compute. reflexivity. Qed.

Example true_div_by_zero : PyFloat.true_div 3 0 = Raise ZeroDivisionError.
Proof. reflexivity. Qed.

Example true_div_third_lt_half :
  match PyFloat.true_div 1 3, PyFloat.true_div 1 2 with
  | Ok x, Ok y => PyFloat.lt x y
  | _, _ => false
  end = true.
Proof. vm_compute. reflexivity. Qed.


Section SampleRuns.
Import Sample.
#[local] Existing Instance payloads.
#[local] Existing Instance core.

Example sample_S2 :
  @getNextBlockToMine _ core (replies eco_reply headers_reply id) master 0 0 true
     (fun _ => three_quarters)
  = ([RpcGetEcoInfoList s1; RpcGetEcoInfoList s2; RpcGetNextBlockToMine s1 2 0 0],
     Ok (MinorBlockToMine (102 : @MinorBlock payloads))).
Proof. vm_compute. reflexivity. Qed.
End SampleRuns.

(** Ties round to even, a zero keeps the sign of the quotient, a quotient
    below the smallest float is 0.0 and one above the largest raises. *)
Example true_div_half_even :
  PyFloat.true_div (2 ^ 53 + 1) 1 = Ok (S754_finite false 4503599627370496 1)
  /\ PyFloat.true_div (2 ^ 53 + 3) 1 = Ok (S754_finite false 4503599627370498 1).
Proof. split; vm_compute; reflexivity. Qed.

Example true_div_third :
  PyFloat.true_div 1 3 = Ok (S754_finite false 6004799503160661 (-54)).
Proof. vm_compute. reflexivity. Qed.

Example true_div_signed_zero :
  PyFloat.true_div 0 (-5) = Ok (S754_zero true)
  /\ PyFloat.true_div 1 (2 ^ 1076) = Ok (S754_zero false).
Proof. split; vm_compute; reflexivity. Qed.

Example true_div_overflow : PyFloat.true_div (10 ^ 400) 1 = Raise OverflowError.
Proof. vm_compute. reflexivity. Qed.

(** ** Comparison of floats *)

Section FloatFacts.
Import PyFloat.

Lemma SFcompare_Eq_inv (x y : float) :
  SFcompare x y = Some Eq ->
  x = y \/ exists s s', x = S754_zero s /\ y = S754_zero s'.
Proof.
  destruct x as [sx|sx| |sx mx ex], y as [sy|sy| |sy my ey]; simpl;
    try discriminate; try (destruct sx; discriminate);
    try (destruct sy; discriminate).
  - intros _. right. eauto.
  - destruct sx, sy; intros [=]; left; reflexivity.
  - intros Hc. left.
    assert (Hs : sx = sy /\ ex = ey /\ mx = my).
    { destruct sx, sy; try discriminate;
        destruct (Z.compare_spec ex ey) as [He|He|He]; try discriminate;
        injection Hc as Hc; split; try reflexivity; split; try assumption.
      - apply Pos.compare_eq. unfold Pos.compare.
        destruct (Pos.compare_cont Eq mx my); simpl in Hc; congruence.
      - apply Pos.compare_eq. unfold Pos.compare.
        destruct (Pos.compare_cont Eq mx my); simpl in Hc; congruence. }
    destruct Hs as (-> & -> & ->). reflexivity.
Qed.

Lemma SFcompare_refl_not_Lt (x : float) : SFcompare x x <> Some Lt.
Proof.
  destruct x as [s|s| |s m e]; simpl; try discriminate.
  - destruct s; discriminate.
  - rewrite Z.compare_refl.
    assert (Hm : Pos.compare_cont Eq m m = Eq) by apply Pos.compare_refl.
    rewrite Hm. destruct s; discriminate.
Qed.

Lemma lt_irrefl (x : float) : lt x x = false.
Proof.
  unfold lt, SFltb. pose proof (SFcompare_refl_not_Lt x) as Hx.
  destruct (SFcompare x x) as [[]|]; congruence.
Qed.

Lemma SFcompare_zero_r (x : float) (s s' : bool) :
  SFcompare x (S754_zero s) = SFcompare x (S754_zero s').
Proof. destruct x; reflexivity. Qed.

Lemma SFcompare_zero_l (x : float) (s s' : bool) :
  SFcompare (S754_zero s) x = SFcompare (S754_zero s') x.
Proof. destruct x; reflexivity. Qed.

(** Equal floats compare alike with any third one. *)
Lemma eq_compare_l (x y r : float) :
  eq x y = true -> SFcompare x r = SFcompare y r.
Proof.
  unfold eq, SFeqb. intros Hxy.
  destruct (SFcompare x y) as [[]|] eqn:Hc; try discriminate.
  destruct (SFcompare_Eq_inv _ _ Hc) as [->|(s & s' & -> & ->)];
    [reflexivity | apply SFcompare_zero_l].
Qed.

Lemma eq_compare_r (x y r : float) :
  eq x y = true -> SFcompare r x = SFcompare r y.
Proof.
  unfold eq, SFeqb. intros Hxy.
  destruct (SFcompare x y) as [[]|] eqn:Hc; try discriminate.
  destruct (SFcompare_Eq_inv _ _ Hc) as [->|(s & s' & -> & ->)];
    [reflexivity | apply SFcompare_zero_r].
Qed.

Lemma eq_not_gt (x y : float) : eq x y = true -> gt x y = false.
Proof.
  intros Hxy. unfold gt, SFltb. unfold eq, SFeqb in Hxy.
  destruct (SFcompare x y) as [[]|] eqn:Hc; try discriminate.
  destruct (SFcompare_Eq_inv _ _ Hc) as [->|(s & s' & -> & ->)].
  - pose proof (SFcompare_refl_not_Lt y) as Hy.
    destruct (SFcompare y y) as [[]|]; congruence.
  - reflexivity.
Qed.

Lemma eq_not_lt (x y : float) : eq x y = true -> lt x y = false.
Proof.
  unfold eq, lt, SFeqb, SFltb. destruct (SFcompare x y) as [[]|]; congruence.
Qed.

Lemma gt_not_eq (x y : float) : gt x y = true -> eq x y = false.
Proof.
  intros Hg. destruct (eq x y) eqn:He; [|reflexivity].
  rewrite (eq_not_gt _ _ He) in Hg. discriminate.
Qed.

Lemma eq_gt_l (x y r : float) : eq x y = true -> gt x r = gt y r.
Proof. intros Hxy. unfold gt, SFltb. rewrite (eq_compare_r x y r Hxy). reflexivity. Qed.

Lemma eq_eq_l (x y r : float) : eq x y = true -> eq x r = eq y r.
Proof. intros Hxy. unfold eq, SFeqb. rewrite (eq_compare_l x y r Hxy). reflexivity. Qed.

Lemma eq_number_refl (x : float) : is_number x = true -> eq x x = true.
Proof.
  destruct x as [s|s| |s m e]; simpl; try discriminate; intros _.
  - reflexivity.
  - unfold eq, SFeqb. simpl. rewrite Z.compare_refl.
    assert (Hm : Pos.compare_cont Eq m m = Eq) by apply Pos.compare_refl.
    rewrite Hm. destruct s; reflexivity.
Qed.

Lemma eq_sym (x y : float) : eq x y = true -> eq y x = true.
Proof.
  intros Hxy. pose proof Hxy as Hxy'. unfold eq, SFeqb in Hxy.
  destruct (SFcompare x y) as [[]|] eqn:Hc; try discriminate.
  destruct (SFcompare_Eq_inv _ _ Hc) as [->|(s & s' & -> & ->)];
    [exact Hxy' | reflexivity].
Qed.

(** A division that returns yields a number. *)
Lemma true_div_is_number (a b : Z) (q : float) :
  true_div a b = Ok q -> is_number q = true.
Proof.
  unfold true_div. destruct (b =? 0); [discriminate|].
  destruct (SFdiv prec emax (of_int a) (of_int b)); intros [= <-]; reflexivity.
Qed.

Lemma true_div_zero (d : Z) :
  d <> 0 -> true_div 0 d = Ok (S754_zero (d <? 0)).
Proof.
  intros Hd. unfold true_div. destruct (Z.eqb_spec d 0) as [|_]; [contradiction|].
  destruct d; [contradiction| |]; reflexivity.
Qed.
End FloatFacts.

(** ** Rounding: the quotient [1 / n] is a float *)

Lemma digits2_pos_size p : digits2_pos p = Pos.size p.
Proof. induction p; simpl; congruence. Qed.

Lemma Zdigits2_log2 m : 0 < m -> Zdigits2 m = Z.log2 m + 1.
Proof.
  destruct m as [|p|p]; try lia. intros _. simpl.
  destruct p; simpl; rewrite ?digits2_pos_size; lia.
Qed.

Lemma Zdigits2_nonneg m : 0 <= Zdigits2 m.
Proof. destruct m; simpl; lia. Qed.

Lemma Zdigits2_mono a b : 0 <= a <= b -> Zdigits2 a <= Zdigits2 b.
Proof.
  intros [Ha Hab]. destruct (Z.eq_dec a 0) as [->|Hne].
  - apply Zdigits2_nonneg.
  - rewrite !Zdigits2_log2 by lia. pose proof (Z.log2_le_mono a b Hab). lia.
Qed.

Lemma Zdigits2_succ a : 0 <= a -> Zdigits2 (a + 1) <= Zdigits2 a + 1.
Proof.
  intros Ha. destruct (Z.eq_dec a 0) as [->|Hne]; [simpl; lia|].
  rewrite !Zdigits2_log2 by lia. pose proof (Z.log2_succ_le a). unfold Z.succ in *. lia.
Qed.

Lemma Zdigits2_pow2_bound a k : 0 <= k -> 0 <= a <= 2 ^ k -> Zdigits2 a <= k + 1.
Proof.
  intros Hk [Ha Hak]. destruct (Z.eq_dec a 0) as [->|Hne]; [simpl; lia|].
  rewrite Zdigits2_log2 by lia.
  pose proof (Z.log2_le_mono a (2 ^ k) Hak) as H. rewrite Z.log2_pow2 in H by lia. lia.
Qed.

Lemma shr_1_bounds mrs : 0 <= shr_m mrs -> 0 <= shr_m (shr_1 mrs) <= shr_m mrs.
Proof.
  destruct mrs as [m r s]. simpl. destruct m as [|p|p]; simpl; try lia.
  destruct p; simpl; lia.
Qed.

Lemma iter_shr_1_bounds p : forall mrs,
  0 <= shr_m mrs -> 0 <= shr_m (SpecFloat.iter_pos shr_1 p mrs) <= shr_m mrs.
Proof.
  induction p as [p IH|p IH|]; intros mrs Hm; simpl.
  - pose proof (shr_1_bounds mrs Hm) as H1.
    pose proof (IH (shr_1 mrs) ltac:(lia)) as H2.
    pose proof (IH (SpecFloat.iter_pos shr_1 p (shr_1 mrs)) ltac:(lia)) as H3. lia.
  - pose proof (IH mrs Hm) as H2.
    pose proof (IH (SpecFloat.iter_pos shr_1 p mrs) ltac:(lia)) as H3. lia.
  - apply shr_1_bounds; assumption.
Qed.

Lemma shr_record_of_loc_m m l : shr_m (shr_record_of_loc m l) = m.
Proof. destruct l as [|[]]; reflexivity. Qed.

Lemma round_nearest_even_bounds m l : m <= round_nearest_even m l <= m + 1.
Proof. destruct l as [|[]]; simpl; try lia. destruct (Z.even m); lia. Qed.

Lemma shr_fexp_bounds m e l :
  0 <= m ->
  let '(mrs, e') := shr_fexp 53 1024 m e l in
  0 <= shr_m mrs <= m /\
  (e' = e \/ (e < e' /\ e' = fexp 53 1024 (Zdigits2 m + e))).
Proof.
  intros Hm. unfold shr_fexp, shr.
  destruct (fexp 53 1024 (Zdigits2 m + e) - e) as [|p|p] eqn:Hn.
  - rewrite shr_record_of_loc_m. split; [lia|left; reflexivity].
  - pose proof (iter_shr_1_bounds p (shr_record_of_loc m l)) as Hb.
    rewrite shr_record_of_loc_m in Hb. split; [apply Hb; lia|]. right. lia.
  - rewrite shr_record_of_loc_m. split; [lia|left; reflexivity].
Qed.

Lemma binary_round_aux_number sx mx ex lx :
  0 <= mx -> Zdigits2 mx + ex <= 1 -> -1074 <= ex ->
  match binary_round_aux 53 1024 sx mx ex lx with
  | S754_zero _ | S754_finite _ _ _ => True
  | _ => False
  end.
Proof.
  intros Hm Hc He. unfold binary_round_aux.
  pose proof (shr_fexp_bounds mx ex lx Hm) as H1.
  destruct (shr_fexp 53 1024 mx ex lx) as [mrs1 e1].
  destruct H1 as [Hm1 He1].
  set (m2 := round_nearest_even (shr_m mrs1) (loc_of_shr_record mrs1)).
  pose proof (round_nearest_even_bounds (shr_m mrs1) (loc_of_shr_record mrs1)) as Hr.
  fold m2 in Hr.
  assert (Hm2 : 0 <= m2) by lia.
  pose proof (shr_fexp_bounds m2 e1 loc_Exact Hm2) as H2.
  destruct (shr_fexp 53 1024 m2 e1 loc_Exact) as [mrs2 e2].
  destruct H2 as [Hm3 He2].
  pose proof (Zdigits2_nonneg mx) as Hd0.
  assert (Hd2 : Zdigits2 m2 <= Zdigits2 mx + 1).
  { transitivity (Zdigits2 (mx + 1)).
    - apply Zdigits2_mono. lia.
    - apply Zdigits2_succ. lia. }
  assert (He1' : e1 <= 1 /\ Zdigits2 m2 + e1 <= 1024).
  { destruct He1 as [->|[_ ->]].
    - lia.
    - unfold fexp, emin. lia. }
  assert (He2' : e2 <= 971).
  { destruct He2 as [->|[_ ->]]; [lia|].
    unfold fexp, emin. lia. }
  destruct (shr_m mrs2) as [|p|p] eqn:Hs; [exact I | | lia].
  destruct (Z.leb_spec e2 (1024 - 53)) as [_|Hgt]; [exact I|]. lia.
Qed.

Lemma SFdiv_one_number (p : positive) :
  match SFdiv 53 1024 (S754_finite false 1 0) (S754_finite false p 0) with
  | S754_zero _ | S754_finite _ _ _ => True
  | _ => False
  end.
Proof.
  unfold SFdiv.
  destruct (SFdiv_core_binary 53 1024 1 0 (Z.pos p) 0) as [[mz ez] lz] eqn:Hcore.
  apply binary_round_aux_number;
    unfold SFdiv_core_binary in Hcore;
    set (d2 := Zdigits2 (Z.pos p)) in *;
    assert (Hd2 : 1 <= d2) by (unfold d2; simpl; lia);
    set (e' := Z.min (fexp 53 1024 (Zdigits2 1 + 0 - (d2 + 0))) (0 - 0)) in *;
    assert (He' : -1074 <= e' <= -53)
      by (unfold e', fexp, emin; simpl Zdigits2; lia);
    destruct (0 - 0 - e') as [|s|s] eqn:Hs; try lia;
    pose proof (Z_div_mod (Z.shiftl 1 (Z.pos s)) (Z.pos p) ltac:(lia)) as Hdm;
    destruct (Z.div_eucl (Z.shiftl 1 (Z.pos s)) (Z.pos p)) as [q r];
    injection Hcore as <- <- _;
    rewrite Z.shiftl_1_l in Hdm;
    assert (Hq : 0 <= q <= 2 ^ Z.pos s) by nia.
  - lia.
  - pose proof (Zdigits2_pow2_bound q (Z.pos s) ltac:(lia) Hq). lia.
  - lia.
Qed.

(** [1 / n] never raises for a positive [n]. *)
Lemma true_div_one_total (n : Z) :
  0 < n -> exists q, PyFloat.true_div 1 n = Ok q.
Proof.
  intros Hn. unfold PyFloat.true_div.
  destruct (Z.eqb_spec n 0) as [|_]; [lia|].
  destruct n as [|p|p]; try lia.
  pose proof (SFdiv_one_number p) as Hp.
  unfold PyFloat.of_int, PyFloat.prec, PyFloat.emax.
  destruct (SFdiv 53 1024 (S754_finite false 1 0) (S754_finite false p 0));
    try contradiction; eauto.
Qed.

(** ** The monad *)

Section MonadFacts.
Context {Ev : Type}.

Lemma bind_ret_l {A B} (a : A) (k : A -> M Ev B) : bind (ret a) k = k a.
Proof. unfold bind, ret. destruct (k a). reflexivity. Qed.

Lemma bind_lift_Ok {A B} (a : A) (k : A -> M Ev B) : bind (lift (Ok a)) k = k a.
Proof. apply bind_ret_l. Qed.

Lemma bind_lift_Raise {A B} (e : PyExn) (k : A -> M Ev B) :
  bind (lift (Raise e)) k = ([], Raise e).
Proof. reflexivity. Qed.

Lemma bind_emit {B} (e : Ev) (m : M Ev B) :
  (emit e ;; m) = (e :: fst m, snd m).
Proof. unfold bind, emit. destruct m. reflexivity. Qed.

(** A loop of requests that all return: the requests appear in the
    order of the list, and so do the answers. *)
Lemma forM_emit {A B} (ev : A -> Ev) (f : A -> B) (xs : list A) :
  forM (fun x => emit (ev x) ;; ret (f x)) xs = (map ev xs, Ok (map f xs)).
Proof.
  induction xs as [|x xs IH]; [reflexivity|].
  cbn [forM]. rewrite IH. unfold bind, emit, ret. simpl.
  rewrite app_nil_r. reflexivity.
Qed.

Lemma bind_pair_Ok {A B} (t : list Ev) (a : A) (k : A -> M Ev B) :
  bind (t, Ok a) k = (t ++ fst (k a), snd (k a)).
Proof. unfold bind. destruct (k a). reflexivity. Qed.
End MonadFacts.

(** ** Mining dispatcher: the selection rule *)

Section SelectionRule.
Context `{Core}.
Import PyFloat.

Lemma select_step_outside shardMask randomizeOutput random st branchValue ecoInfo :
  outside_mask shardMask branchValue = true ->
  select_step shardMask randomizeOutput random st branchValue ecoInfo = Ok st.
Proof. intros Ho. unfold select_step. rewrite Ho. reflexivity. Qed.

Lemma select_step_unset shardMask randomizeOutput random st branchValue ecoInfo eco :
  outside_mask shardMask branchValue = false ->
  true_div (coinbaseAmount ecoInfo) (difficulty ecoInfo) = Ok eco ->
  branchValueWithMaxEco st = None ->
  select_step shardMask randomizeOutput random st branchValue ecoInfo
  = Ok (replace_winner st branchValue eco ecoInfo).
Proof. intros Ho He Hw. unfold select_step. rewrite Ho, He, Hw. reflexivity. Qed.

Lemma select_step_greater shardMask randomizeOutput random st branchValue ecoInfo eco :
  outside_mask shardMask branchValue = false ->
  true_div (coinbaseAmount ecoInfo) (difficulty ecoInfo) = Ok eco ->
  gt eco (maxEco st) = true ->
  select_step shardMask randomizeOutput random st branchValue ecoInfo
  = Ok (replace_winner st branchValue eco ecoInfo).
Proof.
  intros Ho He Hg. unfold select_step. rewrite Ho, He, Hg.
  destruct (branchValueWithMaxEco st); reflexivity.
Qed.

Lemma select_step_tie_fixed shardMask random st branchValue ecoInfo eco winner :
  outside_mask shardMask branchValue = false ->
  true_div (coinbaseAmount ecoInfo) (difficulty ecoInfo) = Ok eco ->
  eq eco (maxEco st) = true ->
  branchValueWithMaxEco st = Some winner ->
  select_step shardMask false random st branchValue ecoInfo
  = Ok (if (0 <? winner) && (height ecoInfo <? blockHeight st)
        then replace_winner st branchValue eco ecoInfo
        else st).
Proof.
  intros Ho He Heq Hw. unfold select_step.
  rewrite Ho, He, Hw, Heq, (eq_not_gt _ _ Heq). simpl.
  destruct ((0 <? winner) && (height ecoInfo <? blockHeight st)); reflexivity.
Qed.

(** The draw of the reservoir always takes place: [1 / dupEcoCount]
    does not raise. *)
Lemma reservoir_total random st branchValue eco :
  0 <= dupEcoCount st ->
  exists threshold,
    true_div 1 (dupEcoCount st + 1) = Ok threshold /\
    reservoir random st branchValue eco
    = Ok {| branchValueWithMaxEco :=
              if lt (random (drawn st)) threshold then Some branchValue
              else branchValueWithMaxEco st;
            maxEco := if lt (random (drawn st)) threshold then eco else maxEco st;
            dupEcoCount := dupEcoCount st + 1;
            blockHeight := blockHeight st;
            drawn := S (drawn st) |}.
Proof.
  intros Hd. destruct (true_div_one_total (dupEcoCount st + 1)) as [t Ht]; [lia|].
  exists t. split; [exact Ht|]. unfold reservoir. rewrite Ht.
  destruct (lt (random (drawn st)) t); reflexivity.
Qed.

(** The counter of ties is at least one all along the loop. *)
Lemma select_step_dup_pos shardMask randomizeOutput random st branchValue ecoInfo st' :
  0 < dupEcoCount st ->
  select_step shardMask randomizeOutput random st branchValue ecoInfo = Ok st' ->
  0 < dupEcoCount st'.
Proof.
  intros Hd. unfold select_step, reservoir.
  repeat match goal with
         | |- context [match ?x with _ => _ end] => destruct x
         end; intros [= <-]; simpl; lia.
Qed.

Lemma select_loop_dup_pos shardMask randomizeOutput random items : forall st st',
  0 < dupEcoCount st ->
  select_loop shardMask randomizeOutput random items st = Ok st' ->
  0 < dupEcoCount st'.
Proof.
  induction items as [|[branchValue ecoInfo] items IH]; intros st st' Hd; simpl.
  - intros [= <-]. exact Hd.
  - destruct (select_step shardMask randomizeOutput random st branchValue ecoInfo)
      as [st1|e] eqn:Hs; [|discriminate].
    apply IH. eapply select_step_dup_pos; eassumption.
Qed.

(** C2 (amended).  With [randomizeOutput], a candidate that passes the
    mask filter, ties with the current maximum and does not take the
    deterministic replacement (a winner is set, and it is not a shard
    recorded at a height strictly above the candidate's) is skipped when
    the winner is a shard and the candidate is strictly higher than the
    recorded height; otherwise [dupEcoCount] grows by one, one random
    value is drawn, and the candidate becomes the winner exactly when
    the draw is below [1 / dupEcoCount]. *)
Theorem tie_break_reservoir shardMask random st branchValue ecoInfo eco winner :
  outside_mask shardMask branchValue = false ->
  true_div (coinbaseAmount ecoInfo) (difficulty ecoInfo) = Ok eco ->
  eq eco (maxEco st) = true ->
  branchValueWithMaxEco st = Some winner ->
  0 < dupEcoCount st ->
  ~ (0 < winner /\ height ecoInfo < blockHeight st) ->
  if (0 <? winner) && (blockHeight st <? height ecoInfo)
  then select_step shardMask true random st branchValue ecoInfo = Ok st
  else exists threshold,
      true_div 1 (dupEcoCount st + 1) = Ok threshold /\
      select_step shardMask true random st branchValue ecoInfo
      = Ok {| branchValueWithMaxEco :=
                if lt (random (drawn st)) threshold then Some branchValue
                else Some winner;
              maxEco := if lt (random (drawn st)) threshold then eco else maxEco st;
              dupEcoCount := dupEcoCount st + 1;
              blockHeight := blockHeight st;
              drawn := S (drawn st) |}.
Proof.
  intros Ho He Heq Hw Hd Hdet.
  assert (Hno : (0 <? winner) && (height ecoInfo <? blockHeight st) = false).
  { apply andb_false_iff.
    destruct (Z.ltb_spec 0 winner); [|now left].
    destruct (Z.ltb_spec (height ecoInfo) (blockHeight st)); [|now right].
    exfalso. apply Hdet. split; assumption. }
  assert (Hstep : select_step shardMask true random st branchValue ecoInfo
                  = if (0 <? winner) && (blockHeight st <? height ecoInfo)
                    then Ok st else reservoir random st branchValue eco).
  { unfold select_step.
    rewrite Ho, He, Hw, Heq, (eq_not_gt _ _ Heq).
    cbn [orb andb]. rewrite Hno. reflexivity. }
  rewrite Hstep.
  destruct ((0 <? winner) && (blockHeight st <? height ecoInfo)); [reflexivity|].
  destruct (reservoir_total random st branchValue eco) as (t & Ht & Hr); [lia|].
  exists t. rewrite Hw in Hr. split; assumption.
Qed.

Lemma fixture_low_first random bA eA bB eB ecoA ecoB r :
  0 < bB ->
  true_div (coinbaseAmount eA) (difficulty eA) = Ok ecoA ->
  true_div (coinbaseAmount eB) (difficulty eB) = Ok ecoB ->
  eq ecoA ecoB = true ->
  gt ecoA r = true ->
  height eB < height eA ->
  exists st,
    select_loop None false random [(bB, eB); (bA, eA)] (initial_selection None r) = Ok st
    /\ branchValueWithMaxEco st = Some bB.
Proof.
  intros HbB HA HB Heq Hg Hh.
  assert (HgB : gt ecoB r = true) by (rewrite <- (eq_gt_l _ _ r Heq); exact Hg).
  cbn [select_loop].
  rewrite (select_step_greater None false random (initial_selection None r) bB eB ecoB
             eq_refl HB HgB).
  rewrite (select_step_tie_fixed None random
             (replace_winner (initial_selection None r) bB ecoB eB) bA eA ecoA bB
             eq_refl HA Heq eq_refl).
  cbn [replace_winner blockHeight].
  destruct (Z.ltb_spec (height eA) (height eB)); [lia|].
  rewrite andb_false_r. eexists. split; reflexivity.
Qed.

Lemma fixture_low_last random bA eA bB eB ecoA ecoB r :
  0 < bA ->
  true_div (coinbaseAmount eA) (difficulty eA) = Ok ecoA ->
  true_div (coinbaseAmount eB) (difficulty eB) = Ok ecoB ->
  eq ecoA ecoB = true ->
  gt ecoA r = true ->
  height eB < height eA ->
  exists st,
    select_loop None false random [(bA, eA); (bB, eB)] (initial_selection None r) = Ok st
    /\ branchValueWithMaxEco st = Some bB.
Proof.
  intros HbA HA HB Heq Hg Hh.
  cbn [select_loop].
  rewrite (select_step_greater None false random (initial_selection None r) bA eA ecoA
             eq_refl HA Hg).
  rewrite (select_step_tie_fixed None random
             (replace_winner (initial_selection None r) bA ecoA eA) bB eB ecoB bA
             eq_refl HB (eq_sym _ _ Heq) eq_refl).
  cbn [replace_winner blockHeight].
  destruct (Z.ltb_spec 0 bA); [|lia].
  destruct (Z.ltb_spec (height eB) (height eA)); [|lia].
  eexists. split; reflexivity.
Qed.

(** C3 (amended).  A candidate with eco strictly greater than the
    current maximum becomes the winner, with [dupEcoCount] back to 1 and
    its height recorded.  Without [randomizeOutput] and once a winner is
    set, a candidate whose eco equals the maximum becomes the winner
    exactly when the winner is a shard recorded strictly above the
    candidate's height.  Hence with two shards of equal eco, strictly
    greater than the zero eco of the root, the shard of lower height
    wins in both iteration orders. *)
Theorem selection_rule :
  (forall shardMask randomizeOutput random st branchValue ecoInfo eco,
      outside_mask shardMask branchValue = false ->
      true_div (coinbaseAmount ecoInfo) (difficulty ecoInfo) = Ok eco ->
      gt eco (maxEco st) = true ->
      exists st',
        select_step shardMask randomizeOutput random st branchValue ecoInfo = Ok st'
        /\ branchValueWithMaxEco st' = Some branchValue
        /\ maxEco st' = eco
        /\ dupEcoCount st' = 1
        /\ blockHeight st' = height ecoInfo)
  /\ (forall shardMask random st branchValue ecoInfo eco winner,
        outside_mask shardMask branchValue = false ->
        true_div (coinbaseAmount ecoInfo) (difficulty ecoInfo) = Ok eco ->
        eq eco (maxEco st) = true ->
        branchValueWithMaxEco st = Some winner ->
        select_step shardMask false random st branchValue ecoInfo
        = Ok (if (0 <? winner) && (height ecoInfo <? blockHeight st)
              then replace_winner st branchValue eco ecoInfo
              else st))
  /\ (forall random bLow eLow bHigh eHigh ecoLow ecoHigh rootEco,
        0 < bLow -> 0 < bHigh ->
        true_div (coinbaseAmount eLow) (difficulty eLow) = Ok ecoLow ->
        true_div (coinbaseAmount eHigh) (difficulty eHigh) = Ok ecoHigh ->
        eq ecoLow ecoHigh = true ->
        eq rootEco (S754_zero false) = true ->
        gt ecoLow rootEco = true ->
        height eLow < height eHigh ->
        exists st1 st2,
          select_loop None false random [(bLow, eLow); (bHigh, eHigh)]
                      (initial_selection None rootEco) = Ok st1
          /\ branchValueWithMaxEco st1 = Some bLow
          /\ select_loop None false random [(bHigh, eHigh); (bLow, eLow)]
                         (initial_selection None rootEco) = Ok st2
          /\ branchValueWithMaxEco st2 = Some bLow).
Proof.
  split; [|split].
  - intros shardMask randomizeOutput random st branchValue ecoInfo eco Ho He Hg.
    eexists. split; [eapply select_step_greater; eassumption|].
    repeat split.
  - intros. apply select_step_tie_fixed; assumption.
  - intros random bLow eLow bHigh eHigh ecoLow ecoHigh rootEco
           HbL HbH HL HH Heq _ Hg Hh.
    assert (HgH : gt ecoHigh rootEco = true)
      by (rewrite <- (eq_gt_l _ _ rootEco Heq); exact Hg).
    destruct (fixture_low_first random bHigh eHigh bLow eLow ecoHigh ecoLow rootEco
                HbL HH HL (eq_sym _ _ Heq) HgH Hh) as (st1 & H1 & W1).
    destruct (fixture_low_last random bHigh eHigh bLow eLow ecoHigh ecoLow rootEco
                HbH HH HL (eq_sym _ _ Heq) HgH Hh) as (st2 & H2 & W2).
    exists st1, st2. repeat split; assumption.
Qed.
End SelectionRule.

Section SelectionExamples.
Import Sample.

Example true_div_one : PyFloat.true_div 1 1 = Ok one.
Proof. vm_compute. reflexivity. Qed.

(** C2, as stated, fails: the candidate ties with the winner, a shard
    recorded at height 5, and is not higher than it, yet [dupEcoCount]
    is not incremented and no draw decides: the candidate of height 3
    replaces the winner whatever [random.random()] would return. *)
Lemma tie_break_reservoir_counterexample :
  PyFloat.true_div (coinbaseAmount tie_candidate) (difficulty tie_candidate) = Ok one
  /\ PyFloat.eq one (maxEco tie_state) = true
  /\ (blockHeight tie_state <? height tie_candidate) = false
  /\ (forall random,
        @select_step _ core None true random tie_state 2 tie_candidate
        = Ok {| branchValueWithMaxEco := Some 2; maxEco := one; dupEcoCount := 1;
                blockHeight := 3; drawn := 0 |})
  /\ 1 <> dupEcoCount tie_state + 1.
Proof.
  split; [vm_compute; reflexivity|].
  split; [vm_compute; reflexivity|].
  split; [reflexivity|].
  split; [intros random; vm_compute; reflexivity|].
  vm_compute. discriminate.
Qed.

Lemma tie_break_reservoir_witness :
  if (0 <? 3) && (blockHeight level_state <? height tie_candidate)
  then @select_step _ core None true (fun _ => three_quarters) level_state 2 tie_candidate
       = Ok level_state
  else exists threshold,
      PyFloat.true_div 1 (dupEcoCount level_state + 1) = Ok threshold /\
      @select_step _ core None true (fun _ => three_quarters) level_state 2 tie_candidate
      = Ok {| branchValueWithMaxEco :=
                if PyFloat.lt three_quarters threshold then Some 2 else Some 3;
              maxEco := if PyFloat.lt three_quarters threshold then one
                        else maxEco level_state;
              dupEcoCount := dupEcoCount level_state + 1;
              blockHeight := blockHeight level_state;
              drawn := S (drawn level_state) |}.
Proof.
  apply (@tie_break_reservoir _ core None (fun _ => three_quarters)
           level_state 2 tie_candidate one 3).
  - reflexivity.
  - vm_compute. reflexivity.
  - vm_compute. reflexivity.
  - reflexivity.
  - simpl. lia.
  - simpl. lia.
Defined.

(** On the same tie a draw of 0.75 keeps the winner and a draw of 0.0
    replaces it. *)
Example reservoir_draws :
  @select_step _ core None true (fun _ => three_quarters) level_state 2 tie_candidate
  = Ok {| branchValueWithMaxEco := Some 3; maxEco := one; dupEcoCount := 2;
          blockHeight := 3; drawn := 1 |}
  /\ @select_step _ core None true (fun _ => zero) level_state 2 tie_candidate
     = Ok {| branchValueWithMaxEco := Some 2; maxEco := one; dupEcoCount := 2;
             blockHeight := 3; drawn := 1 |}.
Proof. split; vm_compute; reflexivity. Qed.

(** C3, as stated, fails twice.  Two shards of equal eco 0.0 and a root
    of eco 0.0: the root stays the winner, not the shard of lower height.
    And with a mask, the first candidate replaces the unset winner on a
    tie although no shard is the winner. *)
Lemma selection_rule_counterexample :
  (forall random,
      @select_loop _ core None false random [(2, idleA); (3, idleB)]
                   (initial_selection None zero)
      = Ok (initial_selection None zero))
  /\ branchValueWithMaxEco (initial_selection None zero) = Some 0
  /\ (forall random,
        @select_step _ core (Some 2) false random (initial_selection (Some 2) zero)
                     2 idleA
        = Ok {| branchValueWithMaxEco := Some 2; maxEco := zero; dupEcoCount := 1;
                blockHeight := 5; drawn := 0 |})
  /\ PyFloat.true_div (coinbaseAmount idleA) (difficulty idleA) = Ok zero
  /\ PyFloat.eq zero (maxEco (initial_selection (Some 2) zero)) = true
  /\ branchValueWithMaxEco (initial_selection (Some 2) zero) = None.
Proof.
  split; [intros random; vm_compute; reflexivity|].
  split; [reflexivity|].
  split; [intros random; vm_compute; reflexivity|].
  split; [vm_compute; reflexivity|].
  split; reflexivity.
Qed.

Lemma selection_rule_witness :
  (exists st',
      @select_step _ core None false (fun _ => zero) (initial_selection None zero)
                   2 busyA = Ok st'
      /\ branchValueWithMaxEco st' = Some 2
      /\ dupEcoCount st' = 1
      /\ blockHeight st' = 5)
  /\ @select_step _ core None false (fun _ => zero) tie_state 2 tie_candidate
     = Ok (replace_winner tie_state 2 one tie_candidate)
  /\ (exists st1 st2,
        @select_loop _ core None false (fun _ => zero) [(3, busyB); (2, busyA)]
                     (initial_selection None zero) = Ok st1
        /\ branchValueWithMaxEco st1 = Some 3
        /\ @select_loop _ core None false (fun _ => zero) [(2, busyA); (3, busyB)]
                        (initial_selection None zero) = Ok st2
        /\ branchValueWithMaxEco st2 = Some 3).
Proof.
  destruct (@selection_rule _ core) as (Hgreater & Htie & Hfix).
  split; [|split].
  - destruct (Hgreater None false (fun _ => zero) (initial_selection None zero) 2 busyA
                (S754_finite false 4503599627370496 (-51)))
      as (st' & Hs & Hw & _ & Hd & Hh).
    + reflexivity.
    + vm_compute. reflexivity.
    + vm_compute. reflexivity.
    + exists st'. repeat split; assumption.
  - apply (Htie None (fun _ => zero) tie_state 2 tie_candidate one 3).
    + reflexivity.
    + vm_compute. reflexivity.
    + vm_compute. reflexivity.
    + reflexivity.
  - apply (Hfix (fun _ => zero) 3 busyB 2 busyA
                (S754_finite false 4503599627370496 (-51))
                (S754_finite false 4503599627370496 (-51)) zero).
    + lia.
    + lia.
    + vm_compute. reflexivity.
    + vm_compute. reflexivity.
    + vm_compute. reflexivity.
    + vm_compute. reflexivity.
    + vm_compute. reflexivity.
    + simpl. lia.
Defined.
End SelectionExamples.

(** ** Dictionaries *)

Section DictFacts.
Context {V : Type}.
Implicit Types (d : PyDict.dict V) (k : Z) (v : V).

Lemma dict_get_set_eq k v d : PyDict.get k (PyDict.set k v d) = Some v.
Proof.
  induction d as [|[k' v'] d IH]; simpl.
  - rewrite Z.eqb_refl. reflexivity.
  - destruct (Z.eqb_spec k' k) as [->|Hne]; simpl.
    + rewrite Z.eqb_refl. reflexivity.
    + destruct (Z.eqb_spec k' k); [contradiction|exact IH].
Qed.

Lemma dict_get_set_ne k k' v d :
  k <> k' -> PyDict.get k' (PyDict.set k v d) = PyDict.get k' d.
Proof.
  intros Hne. induction d as [|[k0 v0] d IH]; simpl.
  - destruct (Z.eqb_spec k k'); [contradiction|reflexivity].
  - destruct (Z.eqb_spec k0 k) as [->|Hk]; simpl.
    + destruct (Z.eqb_spec k k'); [contradiction|reflexivity].
    + destruct (Z.eqb_spec k0 k'); [reflexivity|exact IH].
Qed.


Lemma dict_set_keys_In k v d k' :
  In k' (PyDict.keys (PyDict.set k v d)) <-> k' = k \/ In k' (PyDict.keys d).
Proof.
  unfold PyDict.keys. induction d as [|[k0 v0] d IH]; simpl.
  - intuition.
  - destruct (Z.eqb_spec k0 k) as [->|Hk]; simpl.
    + intuition.
    + rewrite IH. intuition.
Qed.

(** A dictionary holds a key once. *)
Lemma dict_set_NoDup k v d :
  NoDup (PyDict.keys d) -> NoDup (PyDict.keys (PyDict.set k v d)).
Proof.
  unfold PyDict.keys. induction d as [|[k0 v0] d IH]; simpl; intros Hnd.
  - apply NoDup_cons_2; [apply not_elem_of_nil|constructor].
  - apply NoDup_cons in Hnd as [Hnotin Hnd].
    destruct (Z.eqb_spec k0 k) as [->|Hk]; simpl.
    + apply NoDup_cons_2; assumption.
    + apply NoDup_cons_2; [|apply IH; exact Hnd].
      rewrite list_elem_of_In. intros Hin.
      apply (dict_set_keys_In k v d k0) in Hin as [?|Hin]; [congruence|].
      apply Hnotin. rewrite list_elem_of_In. exact Hin.
Qed.
End DictFacts.

(** ** Mining dispatcher: the economy of the root *)

Section RootEco.
Context `{Core}.
Import PyFloat.

Lemma fold_left_sum (f : Z * EcoInfo -> Z) (d : PyDict.dict EcoInfo) (acc : Z) :
  fold_left (fun acc item => acc + f item) d acc = acc + foldr Z.add 0 (map f d).
Proof.
  revert acc. induction d as [|item d IH]; intros acc; simpl.
  - lia.
  - rewrite IH. lia.
Qed.

Lemma rootCoinbaseAmount_floor (d : PyDict.dict EcoInfo) :
  rootCoinbaseAmount d = sum_unconfirmed d / 2.
Proof.
  unfold rootCoinbaseAmount, sum_unconfirmed.
  rewrite (fold_left_sum (fun item => unconfirmedHeadersCoinbaseAmount (snd item))).
  reflexivity.
Qed.

Lemma set_ecoInfos_NoDup (ecoInfos : list EcoInfo) : forall d,
  NoDup (PyDict.keys d) -> NoDup (PyDict.keys (set_ecoInfos ecoInfos d)).
Proof.
  unfold set_ecoInfos.
  induction ecoInfos as [|e ecoInfos IH]; intros d Hd; simpl; [exact Hd|].
  apply IH. apply dict_set_NoDup. exact Hd.
Qed.

Lemma merge_ecoInfo_NoDup (responses : list GetEcoInfoListResponse) : forall d0 d,
  NoDup (PyDict.keys d0) ->
  merge_ecoInfo responses d0 = Some d ->
  NoDup (PyDict.keys d).
Proof.
  induction responses as [|r responses IH]; intros d0 d Hd0; simpl.
  - intros [= <-]. exact Hd0.
  - destruct (negb (eco_errorCode r =? 0)); [discriminate|].
    apply IH. apply set_ecoInfos_NoDup. exact Hd0.
Qed.



(** C6 (amended).  The economy of the root that initialises the
    selection is the true division, by the next root difficulty, of the
    floor of half the sum of [unconfirmedHeadersCoinbaseAmount] over the
    merged branches (one entry per branch); the halving is exact when
    the sum is even and loses one unit when it is odd. *)
Theorem root_eco_floor (self : MasterServer)
    (responses : list GetEcoInfoListResponse) (d : PyDict.dict EcoInfo) :
  merge_ecoInfo responses [] = Some d ->
  NoDup (PyDict.keys d)
  /\ rootCoinbaseAmount d = sum_unconfirmed d / 2
  /\ 2 * rootCoinbaseAmount d <= sum_unconfirmed d <= 2 * rootCoinbaseAmount d + 1
  /\ (2 * rootCoinbaseAmount d = sum_unconfirmed d <-> Z.even (sum_unconfirmed d) = true)
  /\ root_eco self d
     = true_div (sum_unconfirmed d / 2) (getNextBlockDifficulty (rootState self))
  /\ (forall shardMask randomizeOutput random maxEco,
        root_eco self d = Ok maxEco ->
        select_winner self shardMask randomizeOutput random d
        = match select_loop shardMask randomizeOutput random d
                            (initial_selection shardMask maxEco) with
          | Ok st => Ok (branchValueWithMaxEco st)
          | Raise e => Raise e
          end).
Proof.
  intros Hm. pose proof (rootCoinbaseAmount_floor d) as Hr.
  split; [apply (merge_ecoInfo_NoDup responses [] d); [constructor|exact Hm]|].
  split; [exact Hr|].
  pose proof (Z.div_mod (sum_unconfirmed d) 2 ltac:(lia)) as Hdm.
  pose proof (Z.mod_pos_bound (sum_unconfirmed d) 2 ltac:(lia)) as Hb.
  split; [lia|].
  split.
  - rewrite Zeven_mod, Z.eqb_eq. lia.
  - split.
    + unfold root_eco. rewrite Hr. reflexivity.
    + intros shardMask randomizeOutput random maxEco Hroot.
      unfold select_winner. rewrite Hroot. reflexivity.
Qed.
End RootEco.

Section RootEcoExamples.
Import Sample.

(** C6, as stated, fails: with a sum of 1 the code halves to 0 and the
    root eco is 0.0, while half the sum divided by the difficulty 10 is
    1/20. *)
Lemma root_eco_floor_counterexample :
  merge_ecoInfo [ {| eco_errorCode := 0; ecoInfoList := [oddA] |} ] [] = Some [(2, oddA)]
  /\ sum_unconfirmed [(2, oddA)] = 1
  /\ rootCoinbaseAmount [(2, oddA)] = 0
  /\ 2 * rootCoinbaseAmount [(2, oddA)] <> sum_unconfirmed [(2, oddA)]
  /\ @root_eco _ core master [(2, oddA)] = Ok zero
  /\ exists exact,
      PyFloat.true_div (sum_unconfirmed [(2, oddA)])
                       (2 * @getNextBlockDifficulty _ core (rootState master)) = Ok exact
      /\ PyFloat.eq zero exact = false
      /\ PyFloat.gt exact zero = true.
Proof.
  split; [reflexivity|].
  split; [reflexivity|].
  split; [reflexivity|].
  split; [vm_compute; discriminate|].
  split; [vm_compute; reflexivity|].
  eexists. split; [vm_compute; reflexivity|].
  split; vm_compute; reflexivity.
Qed.

Lemma root_eco_floor_witness :
  NoDup (PyDict.keys [(2, ecoA); (3, ecoB)])
  /\ rootCoinbaseAmount [(2, ecoA); (3, ecoB)] = 100
  /\ @root_eco _ core master [(2, ecoA); (3, ecoB)] = PyFloat.true_div 100 10.
Proof.
  destruct (@root_eco_floor _ core master
              [ eco_reply s1; eco_reply s2 ] [(2, ecoA); (3, ecoB)])
    as (Hnd & Hfloor & _ & _ & Heco & _).
  - reflexivity.
  - split; [exact Hnd|]. split; [exact Hfloor|exact Heco].
Defined.
End RootEcoExamples.

(** ** Mining dispatcher: polling, masks and the two paths *)

Section Dispatch.
Context `{Core} `{!SlaveReplies}.
Import PyFloat.


(** The function, with its requests spelled out. *)
Lemma getNextBlockToMine_run self address shardMaskValue randomizeOutput random :
  let shardMask := shardMask_of shardMaskValue in
  let targets := eco_poll_targets self shardMask in
  getNextBlockToMine self address shardMaskValue randomizeOutput random
  = match merge_ecoInfo (map reply_getEcoInfoList targets) [] with
    | None => (map RpcGetEcoInfoList targets, Ok NoBlock)
    | Some d =>
        match select_winner self shardMask randomizeOutput random d with
        | Raise e => (map RpcGetEcoInfoList targets, Raise e)
        | Ok winner =>
            (map RpcGetEcoInfoList targets ++ trace_of (dispatch self address winner),
             outcome_of (dispatch self address winner))
        end
    end.
Proof.
  intros shardMask targets. unfold getNextBlockToMine.
  fold shardMask. fold targets. rewrite forM_emit, bind_pair_Ok.
  destruct (merge_ecoInfo (map reply_getEcoInfoList targets) []) as [d|]; simpl.
  - destruct (select_winner self shardMask randomizeOutput random d) as [w|e]; simpl.
    + destruct (dispatch self address w). reflexivity.
    + rewrite app_nil_r. reflexivity.
  - rewrite app_nil_r. reflexivity.
Qed.


(** From an unset winner no request is built: the call raises. *)
Lemma getMinorBlockToMine_unset self address :
  exists e, getMinorBlockToMine self None address = ([], Raise e).
Proof.
  unfold getMinorBlockToMine.
  destruct (addressInBranch address None) as [a|e]; [|exists e; reflexivity].
  exists KeyError. reflexivity.
Qed.






(** Only the entries that pass the mask take part in the selection. *)
Lemma select_loop_inside_mask shardMask randomizeOutput random items : forall st,
  select_loop shardMask randomizeOutput random items st
  = select_loop shardMask randomizeOutput random (inside_mask shardMask items) st.
Proof.
  unfold inside_mask.
  induction items as [|[branchValue ecoInfo] items IH]; intros st; simpl; [reflexivity|].
  destruct (outside_mask shardMask branchValue) eqn:Ho; simpl.
  - rewrite (select_step_outside _ _ _ _ _ _ Ho). apply IH.
  - destruct (select_step shardMask randomizeOutput random st branchValue ecoInfo);
      [apply IH|reflexivity].
Qed.

Lemma select_loop_all_outside shardMask randomizeOutput random items st :
  (forall branchValue ecoInfo,
      In (branchValue, ecoInfo) items -> outside_mask shardMask branchValue = true) ->
  select_loop shardMask randomizeOutput random items st = Ok st.
Proof.
  intros Hall. rewrite select_loop_inside_mask.
  replace (inside_mask shardMask items) with (@nil (Z * EcoInfo)); [reflexivity|].
  unfold inside_mask. induction items as [|[b e] items IH]; [reflexivity|].
  simpl. rewrite (Hall b e (or_introl Logic.eq_refl)). simpl.
  apply IH. intros b' e' Hin. apply (Hall b' e'). right. exact Hin.
Qed.

Lemma shardMask_of_nonzero shardMaskValue :
  shardMaskValue <> 0 -> shardMask_of shardMaskValue = Some shardMaskValue.
Proof.
  intros Hv. unfold shardMask_of.
  destruct (Z.eqb_spec shardMaskValue 0); [contradiction|reflexivity].
Qed.

End Dispatch.

Section MaskedDispatch.
Context `{Core} `{!SlaveReplies}.




(** C10.  With a non-zero mask value, when the eco infos were fetched,
    the root eco was computed and no merged branch is contained in the
    mask, the loop leaves the winner unset, which is not the branch
    value 0 of the root: the root path is not taken, the minor path is
    entered with the unset winner, no block request is sent and the call
    ends with an exception instead of [(None, None)]. *)
Theorem masked_dispatch_without_candidate
    self address shardMaskValue randomizeOutput random d maxEco :
  shardMaskValue <> 0 ->
  merge_ecoInfo (map reply_getEcoInfoList
                     (eco_poll_targets self (Some shardMaskValue))) [] = Some d ->
  (forall branchValue ecoInfo,
      In (branchValue, ecoInfo) d -> containBranch shardMaskValue branchValue = false) ->
  root_eco self d = Ok maxEco ->
  select_loop (Some shardMaskValue) randomizeOutput random d
              (initial_selection (Some shardMaskValue) maxEco)
  = Ok (initial_selection (Some shardMaskValue) maxEco)
  /\ branchValueWithMaxEco (initial_selection (Some shardMaskValue) maxEco) = None
  /\ select_winner self (Some shardMaskValue) randomizeOutput random d = Ok None
  /\ (None : option Z) <> Some 0
  /\ dispatch self address None
     = (do block <- getMinorBlockToMine self None address; ret (minor_or_none block))
  /\ exists e,
      getNextBlockToMine self address shardMaskValue randomizeOutput random
      = (map RpcGetEcoInfoList (eco_poll_targets self (Some shardMaskValue)), Raise e).
Proof.
  intros Hv Hm Hout Hroot.
  assert (Hloop : select_loop (Some shardMaskValue) randomizeOutput random d
                    (initial_selection (Some shardMaskValue) maxEco)
                  = Ok (initial_selection (Some shardMaskValue) maxEco)).
  { apply select_loop_all_outside. intros b e Hin. simpl.
    rewrite (Hout b e Hin). reflexivity. }
  assert (Hw : select_winner self (Some shardMaskValue) randomizeOutput random d = Ok None).
  { unfold select_winner. rewrite Hroot, Hloop. reflexivity. }
  split; [exact Hloop|]. split; [reflexivity|]. split; [exact Hw|].
  split; [discriminate|]. split; [reflexivity|].
  destruct (getMinorBlockToMine_unset self address) as [e He].
  exists e. rewrite getNextBlockToMine_run, (shardMask_of_nonzero _ Hv), Hm, Hw.
  unfold dispatch. rewrite He. simpl. rewrite app_nil_r. reflexivity.
Qed.
End MaskedDispatch.

Section MaskedDispatchExamples.
Import Sample.
#[local] Existing Instance payloads.

Lemma masked_dispatch_without_candidate_witness :
  @select_winner _ core master (Some 2) true (fun _ => three_quarters) [(3, ecoB)]
  = Ok None
  /\ exists e,
      @getNextBlockToMine _ core (replies stray_reply headers_reply id) master
         0 2 true (fun _ => three_quarters)
      = (map RpcGetEcoInfoList
             (@eco_poll_targets _ core master (Some 2)), Raise e).
Proof.
  destruct (@masked_dispatch_without_candidate payloads core
              (replies stray_reply headers_reply id)
              master (0 : @Address payloads) 2 true (fun _ => three_quarters)
              [(3, ecoB)]
              (S754_finite false 5629499534213120 (-50)))
    as (_ & _ & Hw & _ & _ & Hrun).
  - lia.
  - vm_compute. reflexivity.
  - intros branchValue ecoInfo [[= <- <-]|[]]. vm_compute. reflexivity.
  - vm_compute. reflexivity.
  - split; [exact Hw|exact Hrun].
Defined.

(** On the sample cluster the exception is the [TypeError] of
    [addressInBranch]. *)
Example unset_winner_raises :
  @getNextBlockToMine _ core (replies stray_reply headers_reply id) master
     0 2 true (fun _ => three_quarters)
  = ([RpcGetEcoInfoList s1], Raise TypeError).
Proof. vm_compute. reflexivity. Qed.
End MaskedDispatchExamples.

(** ** Mining dispatcher: the root block or the fallback *)

Section RootPath.
Context `{Core} `{!SlaveReplies}.

Lemma headers_of_app d (xs ys : list Z) :
  headers_of d (xs ++ ys) = headers_of d xs ++ headers_of d ys.
Proof. unfold headers_of. rewrite map_app, concat_app. reflexivity. Qed.

(** Every shard of the list has made progress: the root block is
    created from the headers in the order of the list. *)
Lemma check_proof_of_progress_root self address d shardIds : forall headerList,
  (forall shardId, In shardId shardIds -> lacks_progress d shardId = false) ->
  check_proof_of_progress self address d shardIds headerList
  = ret (RootBlockToMine
           (createBlockToMine (rootState self)
                              (headerList ++ headers_of d shardIds) address)).
Proof.
  induction shardIds as [|shardId shardIds IH]; intros headerList Hall.
  - simpl. unfold headers_of. simpl. rewrite app_nil_r. reflexivity.
  - cbn [check_proof_of_progress].
    pose proof (Hall shardId (or_introl Logic.eq_refl)) as Hs.
    unfold lacks_progress in Hs. rewrite Hs.
    rewrite IH by (intros s Hin; apply Hall; right; exact Hin).
    unfold headers_of. simpl. rewrite <- app_assoc. reflexivity.
Qed.

(** The first shard of the list that lacks progress gets the
    fallback. *)
Lemma check_proof_of_progress_fallback self address d before shardId after :
  forall headerList,
  (forall j, In j before -> lacks_progress d j = false) ->
  lacks_progress d shardId = true ->
  check_proof_of_progress self address d (before ++ shardId :: after) headerList
  = (do block <- getMinorBlockToMine self (Some (Branch_create SHARD_SIZE shardId)) address;
     ret (minor_or_none block)).
Proof.
  induction before as [|j before IH]; intros headerList Hbefore Hlack.
  - cbn [app check_proof_of_progress]. unfold lacks_progress in Hlack.
    rewrite Hlack. reflexivity.
  - cbn [app check_proof_of_progress].
    pose proof (Hbefore j (or_introl Logic.eq_refl)) as Hj.
    unfold lacks_progress in Hj. rewrite Hj.
    apply IH; [|exact Hlack]. intros k Hk. apply Hbefore. right. exact Hk.
Qed.

Lemma range_In n shardId : In shardId (range n) <-> 0 <= shardId < n.
Proof. unfold range. rewrite <- list_elem_of_In, elem_of_seqZ. lia. Qed.

(** [range(n)] counts upwards: the ids below [shardId] come first. *)
Lemma range_split n shardId :
  0 <= shardId < n ->
  range n = range shardId ++ shardId :: seqZ (shardId + 1) (n - shardId - 1).
Proof.
  intros Hs. unfold range.
  replace n with (shardId + (n - shardId)) at 1 by lia.
  rewrite seqZ_app by lia. f_equal.
  rewrite seqZ_cons by lia. rewrite ?Z.add_0_l.
  replace (Z.succ shardId) with (shardId + 1) by lia.
  replace (Z.pred (n - shardId)) with (n - shardId - 1) by lia.
  reflexivity.
Qed.

Lemma createRoot_run self address :
  createRootBlockToMineOrFallbackToMinorBlock self address
  = match merge_headers (map reply_getUnconfirmedHeaders (slavePool self)) [] with
    | None => (map RpcGetUnconfirmedHeaders (slavePool self), Ok NoBlock)
    | Some d =>
        let rest := check_proof_of_progress self address d (range SHARD_SIZE) [] in
        (map RpcGetUnconfirmedHeaders (slavePool self) ++ trace_of rest, outcome_of rest)
    end.
Proof.
  unfold createRootBlockToMineOrFallbackToMinorBlock.
  rewrite forM_emit, bind_pair_Ok.
  destruct (merge_headers (map reply_getUnconfirmedHeaders (slavePool self)) []);
    simpl; [reflexivity|rewrite app_nil_r; reflexivity].
Qed.

(** C5.  A root winner enters the root-creation step.  Once the
    unconfirmed headers of all slaves are fetched and merged, the step
    walks the shard ids 0, 1, ... below [SHARD_SIZE]: at the first id
    with fewer than [PROOF_OF_PROGRESS_BLOCKS] headers it requests a
    minor block on that shard and returns the block as a minor block, or
    no block when the request fails; when every shard meets the
    threshold it returns the root block created from all headers in the
    order of the shard ids. *)
Theorem root_or_fallback self address d :
  merge_headers (map reply_getUnconfirmedHeaders (slavePool self)) [] = Some d ->
  let run := createRootBlockToMineOrFallbackToMinorBlock self address in
  let requests := map RpcGetUnconfirmedHeaders (slavePool self) in
  dispatch self address (Some 0) = run
  /\ (forall shardId,
        0 <= shardId < SHARD_SIZE ->
        lacks_progress d shardId = true ->
        (forall j, 0 <= j < shardId -> lacks_progress d j = false) ->
        let branchValue := Branch_create SHARD_SIZE shardId in
        let minor := getMinorBlockToMine self (Some branchValue) address in
        trace_of run = requests ++ trace_of minor
        /\ outcome_of run
           = match outcome_of minor with
             | Ok (Some b) => Ok (MinorBlockToMine b)
             | Ok None => Ok NoBlock
             | Raise e => Raise e
             end
        /\ (forall slave slaves a,
              branchToSlaves self !! branchValue = Some (slave :: slaves) ->
              addressInBranch address (Some branchValue) = Ok a ->
              let response :=
                reply_getNextBlockToMine slave branchValue a (artificialTxCount self) in
              run = (requests ++ [RpcGetNextBlockToMine slave branchValue a
                                                         (artificialTxCount self)],
                     Ok (if next_errorCode response =? 0
                         then MinorBlockToMine (block response)
                         else NoBlock))))
  /\ ((forall shardId, 0 <= shardId < SHARD_SIZE -> lacks_progress d shardId = false) ->
      run = (requests,
             Ok (RootBlockToMine
                   (createBlockToMine (rootState self)
                                      (headers_of d (range SHARD_SIZE)) address)))).
Proof.
  intros Hm run requests. subst run requests.
  rewrite createRoot_run, Hm. cbn zeta.
  split; [unfold dispatch; rewrite createRoot_run, Hm; reflexivity|]. split.
  - intros shardId Hs Hlack Hbefore.
    set (branchValue := Branch_create SHARD_SIZE shardId).
    set (minor := getMinorBlockToMine self (Some branchValue) address).
    rewrite (range_split _ _ Hs).
    rewrite check_proof_of_progress_fallback;
      [|intros j Hj; apply Hbefore, range_In, Hj|exact Hlack].
    fold branchValue minor. unfold trace_of, outcome_of. cbn [fst snd].
    assert (Hbind : (do block <- minor; ret (minor_or_none block))
                    = (fst minor,
                       match snd minor with
                       | Ok (Some b) => Ok (MinorBlockToMine b)
                       | Ok None => Ok NoBlock
                       | Raise e => Raise e
                       end)).
    { destruct minor as [t [[b|]|e]]; simpl; rewrite ?app_nil_r; reflexivity. }
    rewrite Hbind. cbn [fst snd].
    split; [reflexivity|]. split; [reflexivity|].
    intros slave slaves a Hslaves Ha.
    set (response :=
           reply_getNextBlockToMine slave branchValue a (artificialTxCount self)).
    assert (Hminor : minor
                     = ([RpcGetNextBlockToMine slave branchValue a (artificialTxCount self)],
                        Ok (if next_errorCode response =? 0
                            then Some (block response) else None))).
    { subst minor. unfold getMinorBlockToMine. rewrite Ha, bind_lift_Ok.
      unfold getSlaveConnection. rewrite Hslaves, bind_lift_Ok. reflexivity. }
    rewrite Hminor. cbn [fst snd].
    destruct (next_errorCode response =? 0); reflexivity.
  - intros Hall.
    rewrite check_proof_of_progress_root
      by (intros s Hin; apply Hall, range_In, Hin).
    unfold trace_of, outcome_of, ret. cbn [fst snd app].
    rewrite app_nil_r. reflexivity.
Qed.
End RootPath.

Section RootPathExamples.
Import Sample.
#[local] Existing Instance payloads.

Lemma root_or_fallback_witness :
  @createRootBlockToMineOrFallbackToMinorBlock _ core
     (replies eco_reply headers_reply_short id) master 0
  = ([RpcGetUnconfirmedHeaders s1; RpcGetUnconfirmedHeaders s2;
      RpcGetNextBlockToMine s2 3 0 0],
     Ok (MinorBlockToMine (103 : @MinorBlock payloads)))
  /\ @createRootBlockToMineOrFallbackToMinorBlock _ core
       (replies eco_reply headers_reply id) master 0
     = ([RpcGetUnconfirmedHeaders s1; RpcGetUnconfirmedHeaders s2],
        Ok (RootBlockToMine (4 : @RootBlock payloads))).
Proof.
  split.
  - destruct (@root_or_fallback payloads core (replies eco_reply headers_reply_short id)
                master (0 : @Address payloads) [(0, [11; 12]); (1, [])])
      as (_ & Hfallback & _); [vm_compute; reflexivity|].
    destruct (Hfallback 1) as (_ & _ & Hrun).
    + vm_compute. split; [discriminate|reflexivity].
    + vm_compute. reflexivity.
    + intros j Hj. assert (j = 0) as -> by lia. vm_compute. reflexivity.
    + apply (Hrun s2 [] (0 : @Address payloads)); vm_compute; reflexivity.
  - destruct (@root_or_fallback payloads core (replies eco_reply headers_reply id)
                master (0 : @Address payloads) [(0, [11; 12]); (1, [21; 22])])
      as (_ & _ & Hroot); [vm_compute; reflexivity|].
    apply Hroot. intros shardId Hs. change (@SHARD_SIZE payloads core) with 2 in Hs.
    assert (shardId = 0 \/ shardId = 1) as [-> | ->] by lia; vm_compute; reflexivity.
Defined.
End RootPathExamples.

(** ** Mining dispatcher: a mask and the root path *)

Section MaskedRoot.
Context `{Core} `{!SlaveReplies}.










End MaskedRoot.

Section MaskedRootExamples.
Import Sample Fixtures.
#[local] Existing Instance payloads.


End MaskedRootExamples.

(** ** Slave link: the forwarding rule *)

Section Forwarding.
Context `{Payloads}.

(** C9.  A frame with [clusterPeerId = 0] has no forwarding target: the
    link handles it itself.  A frame with another id always has one:
    the peer that the network registers under the id, and the null sink
    when there is none (or no network).  [validateConnection] accepts
    the null sink and the peer connections and nothing else, so every
    target of the rule is accepted. *)
Theorem forwarding_rule (masterServer : MasterServer) (metadata : ClusterMetadata) :
  (clusterPeerId metadata = 0 ->
   getConnectionToForward masterServer metadata = None)
  /\ (clusterPeerId metadata <> 0 ->
      getConnectionToForward masterServer metadata
      = Some (match getPeer masterServer (clusterPeerId metadata) with
              | Some peer => P2PConnection peer
              | None => NULL_CONNECTION
              end))
  /\ (forall peer,
        getPeer masterServer (clusterPeerId metadata) = Some peer <->
        exists net, network masterServer = Some net
                    /\ getPeerByClusterPeerId net (clusterPeerId metadata) = Some peer)
  /\ (forall connection,
        validateConnection connection = true <->
        connection = NULL_CONNECTION \/ exists peer, connection = P2PConnection peer)
  /\ (forall target,
        getConnectionToForward masterServer metadata = Some target ->
        validateConnection target = true /\ clusterPeerId metadata <> 0).
Proof.
  unfold getConnectionToForward.
  split; [|split; [|split; [|split]]].
  - intros ->. reflexivity.
  - intros Hc. destruct (Z.eqb_spec (clusterPeerId metadata) 0); [contradiction|].
    destruct (getPeer masterServer (clusterPeerId metadata)); reflexivity.
  - intros peer. unfold getPeer. destruct (network masterServer) as [net|].
    + split; [intros Hp; exists net; auto|intros (net' & [= <-] & Hp); exact Hp].
    + split; [discriminate|intros (net' & Hn & _); discriminate].
  - intros [ |peer|slave]; simpl.
    + split; [left; reflexivity|reflexivity].
    + split; [intros _; right; eexists; reflexivity|reflexivity].
    + split; [discriminate|intros [Hn|(peer & Hp)]; discriminate].
  - intros target. destruct (Z.eqb_spec (clusterPeerId metadata) 0); [discriminate|].
    destruct (getPeer masterServer (clusterPeerId metadata));
      intros [= <-]; split; auto.
Qed.
End Forwarding.

Section ForwardingExamples.
Import Sample.
#[local] Existing Instance payloads.

Example forward_to_peer :
  getConnectionToForward master {| metadata_branch := 2; clusterPeerId := 7 |}
  = Some (P2PConnection "p7"%string).
Proof. reflexivity. Qed.

Example forward_to_null_sink :
  getConnectionToForward master {| metadata_branch := 2; clusterPeerId := 9 |}
  = Some NULL_CONNECTION
  /\ getConnectionToForward fresh {| metadata_branch := 2; clusterPeerId := 7 |}
     = Some NULL_CONNECTION.
Proof. split; reflexivity. Qed.

Example no_forward_to_slave : validateConnection (ClusterConnection s1) = false.
Proof. reflexivity. Qed.
End ForwardingExamples.

(** ** Transaction fan-out *)

Section FanOutFacts.
Context `{Core} `{!SlaveReplies}.

Lemma fan_out_requests (tx : Transaction) (slaves : list Slave) :
  forM (fun slave => slave_addTransaction slave tx) slaves
  = (map (fun slave => RpcAddTransaction slave tx) slaves,
     Ok (map (fun slave => reply_addTransaction slave tx =? 0) slaves)).
Proof. unfold slave_addTransaction. apply forM_emit. Qed.

Lemma forallb_map_id {A} (f : A -> bool) (xs : list A) :
  forallb (fun r => r) (map f xs) = forallb f xs.
Proof. induction xs as [|x xs IH]; simpl; [reflexivity|]. rewrite IH. reflexivity. Qed.

(** C7.  [addTransaction] reads the branch of the transaction.  When
    [branchToSlaves] has no such key it returns [False] and sends
    nothing.  Otherwise it sends the transaction to every slave of the
    branch, in the order of the list, and returns [True] exactly when
    every one of them answers with the error code 0. *)
Theorem addTransaction_fan_out (self : MasterServer) (tx : Transaction) :
  match branchToSlaves self !! tx_branchValue tx with
  | None => addTransaction self tx = ([], Ok false)
  | Some slaves =>
      trace_of (addTransaction self tx)
      = map (fun slave => RpcAddTransaction slave tx) slaves
      /\ exists result,
          outcome_of (addTransaction self tx) = Ok result
          /\ (result = true <->
              forall slave, In slave slaves -> reply_addTransaction slave tx = 0)
  end.
Proof.
  unfold addTransaction.
  destruct (branchToSlaves self !! tx_branchValue tx) as [slaves|]; [|reflexivity].
  rewrite fan_out_requests, bind_pair_Ok. unfold trace_of, outcome_of, ret.
  cbn [fst snd]. split; [apply app_nil_r|].
  eexists. split; [reflexivity|].
  rewrite forallb_map_id, forallb_forall.
  split; intros Hall slave Hin; specialize (Hall slave Hin); lia.
Qed.
End FanOutFacts.

Section FanOutExamples.
Import Sample.
#[local] Existing Instance payloads.

(** Slave [s1] accepts, slave [s2] refuses, branch 5 is unknown. *)
Example addTransaction_runs :
  @addTransaction _ core (replies eco_reply headers_reply id) master (2 : @Transaction payloads)
  = ([RpcAddTransaction s1 2], Ok true)
  /\ @addTransaction _ core (replies eco_reply headers_reply id) master (3 : @Transaction payloads)
     = ([RpcAddTransaction s2 3], Ok false)
  /\ @addTransaction _ core (replies eco_reply headers_reply id) master (5 : @Transaction payloads)
     = ([], Ok false).
Proof. repeat split; vm_compute; reflexivity. Qed.
End FanOutExamples.

(** ** Life cycle: handshake and shutdown *)

Section LifecycleFacts.
Context `{Core} `{!SlaveReplies}.

Lemma shutdown_shutdownFuture self :
  shutdownFuture (shutdown self)
  = if done (shutdownFuture self) then shutdownFuture self else HasResult.
Proof.
  unfold shutdown.
  destruct (done (shutdownFuture self)) eqn:Hs, (done (clusterActiveFuture self)) eqn:Hc;
    simpl; rewrite ?Hc; reflexivity.
Qed.

Lemma shutdown_clusterActiveFuture self :
  clusterActiveFuture (shutdown self)
  = if done (clusterActiveFuture self) then clusterActiveFuture self
    else HasException "failed to start the cluster".
Proof.
  unfold shutdown.
  destruct (done (shutdownFuture self)) eqn:Hs, (done (clusterActiveFuture self)) eqn:Hc;
    simpl; rewrite ?Hc; reflexivity.
Qed.

Lemma shutdown_resolved self :
  done (shutdownFuture self) = true ->
  done (clusterActiveFuture self) = true ->
  shutdown self = self.
Proof. intros Hs Hc. unfold shutdown. rewrite Hs. simpl. rewrite Hc. reflexivity. Qed.

Lemma shutdown_done self :
  done (shutdownFuture (shutdown self)) = true
  /\ done (clusterActiveFuture (shutdown self)) = true.
Proof.
  rewrite shutdown_shutdownFuture, shutdown_clusterActiveFuture.
  destruct (done (shutdownFuture self)) eqn:Hs, (done (clusterActiveFuture self)) eqn:Hc;
    auto.
Qed.

Lemma shutdown_idempotent self : shutdown (shutdown self) = shutdown self.
Proof. destruct (shutdown_done self) as [Hs Hc]. apply shutdown_resolved; assumption. Qed.

Lemma futures_set_registry pool index self :
  futures (set_registry pool index self) = futures self.
Proof. reflexivity. Qed.

(** One handshake: the futures are those of [shutdown] when the answer
    differs from the configuration and are untouched otherwise. *)
Lemma connect_slave_futures self slaveInfo t self' :
  connect_slave self slaveInfo = (t, Ok self') ->
  futures self' = futures (if ping_mismatch slaveInfo then shutdown self else self).
Proof.
  unfold connect_slave, ping_mismatch.
  destruct (new_SlaveConnection slaveInfo) as [slave|e]; [|discriminate].
  rewrite bind_lift_Ok. unfold verify_ping.
  destruct (reply_ping slave) as [pingId pingMasks]. cbn [fst snd].
  rewrite bind_emit. unfold bind, ret. cbn [fst snd].
  intros [= _ <-]. rewrite futures_set_registry.
  destruct (bool_decide (pingId = info_id slaveInfo)),
           (bool_decide (pingMasks = info_shardMaskList slaveInfo)); cbn [negb orb];
    rewrite ?shutdown_idempotent; reflexivity.
Qed.

Lemma futures_shutdown self1 self2 :
  futures self1 = futures self2 -> futures (shutdown self1) = futures (shutdown self2).
Proof.
  unfold futures. intros [= Hs Hc].
  rewrite !shutdown_shutdownFuture, !shutdown_clusterActiveFuture, Hs, Hc. reflexivity.
Qed.

Lemma connectToSlaves_futures slaveInfoList : forall self t self',
  connectToSlaves self slaveInfoList = (t, Ok self') ->
  futures self'
  = futures (if existsb ping_mismatch slaveInfoList then shutdown self else self).
Proof.
  induction slaveInfoList as [|slaveInfo rest IH]; intros self t self'.
  - simpl. intros [= _ <-]. reflexivity.
  - cbn [connectToSlaves existsb].
    destruct (connect_slave self slaveInfo) as [t1 [self1|e]] eqn:Hstep; [|discriminate].
    rewrite bind_pair_Ok. intros Hrest.
    assert (Hrest' : connectToSlaves self1 rest
                     = (fst (connectToSlaves self1 rest), Ok self')).
    { destruct (connectToSlaves self1 rest) as [t2 r]. simpl in *. congruence. }
    rewrite (IH _ _ _ Hrest').
    pose proof (connect_slave_futures _ _ _ _ Hstep) as Hfut.
    destruct (ping_mismatch slaveInfo), (existsb ping_mismatch rest); cbn [orb].
    + rewrite (futures_shutdown _ _ Hfut), shutdown_idempotent. reflexivity.
    + exact Hfut.
    + apply futures_shutdown. exact Hfut.
    + exact Hfut.
Qed.

Lemma connect_slave_returns self slaveInfo :
  info_shardMaskList slaveInfo <> [] ->
  exists slave self', connect_slave self slaveInfo = ([RpcPing slave], Ok self').
Proof.
  intros Hne. unfold connect_slave, new_SlaveConnection.
  destruct (info_shardMaskList slaveInfo) as [|mask masks] eqn:Hl; [contradiction|].
  rewrite bind_lift_Ok. unfold verify_ping.
  match goal with
  | |- context [reply_ping ?s] =>
      exists s; destruct (reply_ping s) as [pingId pingMasks]
  end.
  rewrite bind_emit. unfold bind, ret. cbn [fst snd app]. eauto.
Qed.

(** Bring-up goes through every configured slave when each has a shard
    mask. *)
Lemma connectToSlaves_returns slaveInfoList : forall self,
  (forall slaveInfo, In slaveInfo slaveInfoList -> info_shardMaskList slaveInfo <> []) ->
  exists t self', connectToSlaves self slaveInfoList = (t, Ok self').
Proof.
  induction slaveInfoList as [|slaveInfo rest IH]; intros self Hmasks.
  - exists [], self. reflexivity.
  - cbn [connectToSlaves].
    destruct (connect_slave_returns self slaveInfo
                (Hmasks slaveInfo (or_introl Logic.eq_refl))) as (slave & self1 & Hstep).
    destruct (IH self1) as (t & self' & Hrest);
      [intros i Hi; apply Hmasks; right; exact Hi|].
    rewrite Hstep, bind_pair_Ok, Hrest. cbn [fst snd]. eauto.
Qed.

(** C8.  If the PING answer of a slave differs in the id or in the
    shard-mask list from its [SlaveInfo], bring-up leaves the master shut
    down.  [shutdown] resolves the shutdown future and, when the
    readiness future is still pending, resolves it with an error; a
    future that is already resolved is left as it is, so a second
    [shutdown] changes nothing. *)
Theorem handshake_mismatch_shuts_down :
  (forall self slaveInfoList,
      (forall slaveInfo, In slaveInfo slaveInfoList -> info_shardMaskList slaveInfo <> []) ->
      existsb ping_mismatch slaveInfoList = true ->
      exists t self',
        connectToSlaves self slaveInfoList = (t, Ok self')
        /\ futures self' = futures (shutdown self))
  /\ (forall self,
        shutdownFuture (shutdown self)
        = (if done (shutdownFuture self) then shutdownFuture self else HasResult)
        /\ clusterActiveFuture (shutdown self)
           = (if done (clusterActiveFuture self) then clusterActiveFuture self
              else HasException "failed to start the cluster")
        /\ done (shutdownFuture (shutdown self)) = true
        /\ done (clusterActiveFuture (shutdown self)) = true)
  /\ (forall self, shutdown (shutdown self) = shutdown self)
  /\ (forall self,
        done (shutdownFuture self) = true ->
        done (clusterActiveFuture self) = true ->
        shutdown self = self).
Proof.
  split; [|split; [|split]].
  - intros self slaveInfoList Hmasks Hmis.
    destruct (connectToSlaves_returns slaveInfoList self Hmasks) as (t & self' & Hrun).
    exists t, self'. split; [exact Hrun|].
    rewrite (connectToSlaves_futures _ _ _ _ Hrun), Hmis. reflexivity.
  - intros self. destruct (shutdown_done self) as [Hs Hc].
    split; [apply shutdown_shutdownFuture|].
    split; [apply shutdown_clusterActiveFuture|]. split; assumption.
  - apply shutdown_idempotent.
  - apply shutdown_resolved.
Qed.
End LifecycleFacts.

Section LifecycleExamples.
Import Sample.
#[local] Existing Instance payloads.

Lemma handshake_mismatch_shuts_down_witness :
  (exists t self',
      @connectToSlaves _ core (replies eco_reply headers_reply wrong_id) fresh [info1]
      = (t, Ok self')
      /\ futures self' = (HasResult, HasException "failed to start the cluster"))
  /\ shutdown (shutdown fresh) = shutdown fresh
  /\ shutdown (shutdown master) = shutdown master.
Proof.
  destruct (@handshake_mismatch_shuts_down payloads core
              (replies eco_reply headers_reply wrong_id))
    as (Hbring & _ & Hidem & _).
  split; [|split; apply Hidem].
  destruct (Hbring fresh [info1]) as (t & self' & Hrun & Hfut).
  - intros slaveInfo [<-|[]]. discriminate.
  - vm_compute. reflexivity.
  - exists t, self'. split; [exact Hrun|exact Hfut].
Defined.

(** Scenario B2: the configuration says [s1], the slave says [s2]. *)
Example bring_up_B2 :
  @connect_slave _ core (replies eco_reply headers_reply wrong_id) fresh info1
  = ([RpcPing s1],
     Ok {| rootState := 0 : @RootState payloads;
           network := None;
           branchToSlaves := {[ 2 := [s1] ]};
           slavePool := [s1];
           clusterActiveFuture := HasException "failed to start the cluster";
           shutdownFuture := HasResult;
           rootBlockUpdateQueue := [];
           isUpdatingRootBlock := false;
           artificialTxCount := 0 |}).
Proof. vm_compute. reflexivity. Qed.

(** The same slave answering with its own id: no shutdown. *)
Example bring_up_match :
  match outcome_of
          (@connectToSlaves _ core (replies eco_reply headers_reply id) fresh [info1]) with
  | Ok self' => futures self' = (Pending, Pending)
  | Raise _ => False
  end.
Proof. vm_compute. reflexivity. Qed.
End LifecycleExamples.

(** ** Root-block update serializer *)

Section SerializerFacts.
Context `{Core} `{!SlaveReplies}.

Lemma bind_assoc {Ev A B C} (m : M Ev A) (f : A -> M Ev B) (g : B -> M Ev C) :
  bind (bind m f) g = bind m (fun x => bind (f x) g).
Proof.
  destruct m as [t [a|e]]; simpl; [|reflexivity].
  destruct (f a) as [t' [b|e']]; simpl; [|reflexivity].
  destruct (g b) as [t'' r]. rewrite app_assoc. reflexivity.
Qed.

Lemma broadcast_addRootBlock_run self rBlock :
  broadcast_addRootBlock self rBlock
  = (broadcast_events self rBlock,
     Ok (map (fun slaveConn => reply_addRootBlock slaveConn rBlock) (slavePool self))).
Proof. unfold broadcast_addRootBlock, broadcast_events. apply forM_emit. Qed.

(** Blocks that arrive while the loop runs are appended to the queue
    and popped by the same loop: draining [q1 ++ q2] is draining [q1]
    and going on with [q2]. *)
Lemma drain_app self q1 q2 : forall updateTip rs,
  drain self (q1 ++ q2) updateTip rs
  = (do r <- drain self q1 updateTip rs; drain self q2 (fst r) (snd r)).
Proof.
  induction q1 as [|rBlock q1 IH]; intros updateTip rs.
  - cbn [app drain]. rewrite bind_ret_l. reflexivity.
  - cbn [app drain]. rewrite bind_assoc.
    destruct (try_addBlock updateTip rs rBlock) as [t [[[u|] rs']|e]]; [| |reflexivity].
    + rewrite !bind_pair_Ok. cbn [fst snd]. rewrite bind_assoc.
      rewrite broadcast_addRootBlock_run, !bind_pair_Ok. cbn [fst snd].
      destruct (forallb _ _); [rewrite IH|]; reflexivity.
    + rewrite !bind_pair_Ok. cbn [fst snd]. rewrite IH. reflexivity.
Qed.

(** Once [updateTip] is true the root state is never called again:
    every later block of the queue is broadcast to the slaves as it is,
    and the root state stays where it was. *)
Lemma drain_after_tip_update self queue : forall rs,
  (forall rBlock slaveConn,
      In rBlock queue -> In slaveConn (slavePool self) ->
      reply_addRootBlock slaveConn rBlock = 0) ->
  drain self queue true rs
  = (concat (map (broadcast_events self) queue), Ok (true, rs)).
Proof.
  induction queue as [|rBlock queue IH]; intros rs Hok; [reflexivity|].
  cbn [drain try_addBlock]. rewrite bind_ret_l.
  rewrite broadcast_addRootBlock_run, bind_pair_Ok. cbn [fst snd].
  assert (Hall : forallb (fun errorCode => errorCode =? 0)
                   (map (fun slaveConn => reply_addRootBlock slaveConn rBlock)
                        (slavePool self)) = true).
  { apply forallb_forall. intros c Hc. apply in_map_iff in Hc as (s & <- & Hs).
    apply Z.eqb_eq. apply Hok; [left; reflexivity|exact Hs]. }
  rewrite Hall, IH by (intros b s Hb Hs; apply Hok; [right; exact Hb|exact Hs]).
  reflexivity.
Qed.
End SerializerFacts.

Section SerializerExamples.
Import Sample.
#[local] Existing Instance payloads.

(** Scenario R1 with no tip update before the invalid block: blocks 0,
    -1 and 5 are queued, -1 is invalid.  [addBlock] is called on each,
    0 and 5 are broadcast in that order, the peers are notified once. *)
Example drain_R1 :
  @updateRooBlockAsync _ core (replies eco_reply headers_reply id)
     (with_queue [0; -1; 5] master)
  = ([RootStateAddBlock 0; RpcAddRootBlock s1 0 false; RpcAddRootBlock s2 0 false;
      RootStateAddBlock (-1);
      RootStateAddBlock 5; RpcAddRootBlock s1 5 false; RpcAddRootBlock s2 5 false;
      PeerSendUpdatedTip "p7"%string; PeerSendUpdatedTip "p8"%string],
     Ok (after_drain (5 : @RootState payloads) (with_queue [0; -1; 5] master))).
Proof. vm_compute. reflexivity. Qed.

(** C1 fails on the code.  Blocks 5, -1 and 7 are queued; block 5
    updates the tip.  After it [addBlock] is not called any more: the
    invalid block -1 is not skipped but broadcast to every slave, block 7
    is broadcast without being added, and the root state keeps the tip
    5 although block 7 is above it. *)
Theorem drain_stops_adding_after_tip_update :
  let run := @updateRooBlockAsync _ core (replies eco_reply headers_reply id)
               (with_queue [5; -1; 7] master) in
  run = ([RootStateAddBlock 5; RpcAddRootBlock s1 5 false; RpcAddRootBlock s2 5 false;
          RpcAddRootBlock s1 (-1) false; RpcAddRootBlock s2 (-1) false;
          RpcAddRootBlock s1 7 false; RpcAddRootBlock s2 7 false;
          PeerSendUpdatedTip "p7"%string; PeerSendUpdatedTip "p8"%string],
         Ok (after_drain (5 : @RootState payloads) (with_queue [5; -1; 7] master)))
  /\ ~ In (RootStateAddBlock (-1)) (trace_of run)
  /\ ~ In (RootStateAddBlock 7) (trace_of run)
  /\ @addBlock _ core 5 (-1) = (5, Raise ValueError)
  /\ In (RpcAddRootBlock s1 (-1) false) (trace_of run)
  /\ @addBlock _ core 5 7 = (7, Ok true).
Proof.
  assert (Hrun :
    @updateRooBlockAsync _ core (replies eco_reply headers_reply id)
       (with_queue [5; -1; 7] master)
    = ([RootStateAddBlock 5; RpcAddRootBlock s1 5 false; RpcAddRootBlock s2 5 false;
        RpcAddRootBlock s1 (-1) false; RpcAddRootBlock s2 (-1) false;
        RpcAddRootBlock s1 7 false; RpcAddRootBlock s2 7 false;
        PeerSendUpdatedTip "p7"%string; PeerSendUpdatedTip "p8"%string],
       Ok (after_drain (5 : @RootState payloads) (with_queue [5; -1; 7] master))))
    by (vm_compute; reflexivity).
  intros run. subst run. rewrite Hrun. unfold trace_of. cbn [fst].
  split; [reflexivity|].
  split; [intros Hin; repeat (destruct Hin as [Heq|Hin]; [discriminate|]); exact Hin|].
  split; [intros Hin; repeat (destruct Hin as [Heq|Hin]; [discriminate|]); exact Hin|].
  split; [reflexivity|].
  split; [simpl; tauto|reflexivity].
Qed.
End SerializerExamples.

(** * Further properties of the master *)

(** ** The order of floats *)

Section FloatOrder.
Import PyFloat.

Lemma SFcompare_not_Lt_trans (x y z : float) :
  is_number x = true -> is_number y = true -> is_number z = true ->
  SFcompare y x <> Some Lt -> SFcompare z y <> Some Lt -> SFcompare z x <> Some Lt.
Proof.
  destruct x as [sx|sx| |sx mx ex], y as [sy|sy| |sy my ey], z as [sz|sz| |sz mz ez];
    simpl; try discriminate; intros _ _ _;
    repeat match goal with s : bool |- _ => destruct s end;
    try congruence;
    repeat match goal with
           | |- context [Z.compare ?a ?b] => destruct (Z.compare_spec a b)
           | |- context [PosDef.Pos.compare_cont Eq ?a ?b] =>
               change (PosDef.Pos.compare_cont Eq a b) with (Pos.compare a b);
               destruct (Pos.compare_spec a b)
           end; simpl; try congruence; try lia.
Qed.

Lemma SFcompare_Lt_asym (x y : float) :
  SFcompare x y = Some Lt -> SFcompare y x <> Some Lt.
Proof.
  destruct x as [sx|sx| |sx mx ex], y as [sy|sy| |sy my ey];
    simpl; try discriminate;
    repeat match goal with s : bool |- _ => destruct s end;
    try congruence;
    repeat match goal with
           | |- context [Z.compare ?a ?b] => destruct (Z.compare_spec a b)
           | |- context [PosDef.Pos.compare_cont Eq ?a ?b] =>
               change (PosDef.Pos.compare_cont Eq a b) with (Pos.compare a b);
               destruct (Pos.compare_spec a b)
           end; simpl; try congruence; try lia.
Qed.

Lemma gt_false_iff (x y : float) : gt x y = false <-> SFcompare y x <> Some Lt.
Proof.
  unfold gt, SFltb. destruct (SFcompare y x) as [[]|]; split; congruence.
Qed.

(** [not (a > b)] and [not (b > c)] give [not (a > c)]. *)
Lemma not_gt_trans (a b c : float) :
  is_number a = true -> is_number b = true -> is_number c = true ->
  gt a b = false -> gt b c = false -> gt a c = false.
Proof.
  rewrite !gt_false_iff. intros Ha Hb Hc Hab Hbc.
  apply (SFcompare_not_Lt_trans a b c); assumption.
Qed.

Lemma gt_asym (a b : float) : gt a b = true -> gt b a = false.
Proof.
  intros Hab. apply gt_false_iff. apply SFcompare_Lt_asym.
  unfold gt, SFltb in Hab. destruct (SFcompare b a) as [[]|]; congruence.
Qed.

Lemma gt_irrefl (a : float) : gt a a = false.
Proof. apply lt_irrefl. Qed.
End FloatOrder.

(** ** Mining dispatcher: the winner has the greatest eco *)

Section SelectionMaximal.
Context `{Core}.
Import PyFloat.

Local Ltac select_max_done :=
  repeat split; auto using gt_irrefl, gt_asym; try discriminate; try congruence.

Lemma select_step_max shardMask randomizeOutput random st branchValue ecoInfo st' :
  select_step shardMask randomizeOutput random st branchValue ecoInfo = Ok st' ->
  outside_mask shardMask branchValue = false ->
  is_number (maxEco st) = true ->
  exists eco,
    true_div (coinbaseAmount ecoInfo) (difficulty ecoInfo) = Ok eco
    /\ is_number (maxEco st') = true
    /\ gt eco (maxEco st') = false
    /\ branchValueWithMaxEco st' <> None
    /\ (branchValueWithMaxEco st <> None -> gt (maxEco st) (maxEco st') = false)
    /\ ((branchValueWithMaxEco st' = branchValueWithMaxEco st /\ maxEco st' = maxEco st)
        \/ (branchValueWithMaxEco st' = Some branchValue /\ maxEco st' = eco)).
Proof.
  intros Hstep Ho Hnum. unfold select_step in Hstep. rewrite Ho in Hstep.
  destruct (true_div (coinbaseAmount ecoInfo) (difficulty ecoInfo)) as [eco|x] eqn:He;
    [|discriminate].
  exists eco. split; [reflexivity|].
  pose proof (true_div_is_number _ _ _ He) as Hen.
  destruct (branchValueWithMaxEco st) as [winner|] eqn:Hw.
  - destruct (gt eco (maxEco st)) eqn:Hg.
    + injection Hstep as <-. cbn [replace_winner maxEco branchValueWithMaxEco].
      select_max_done.
    + cbn [orb] in Hstep. destruct (eq eco (maxEco st)) eqn:Heq.
      * pose proof (eq_not_gt _ _ (eq_sym _ _ Heq)) as Hge.
        cbn [andb] in Hstep.
        destruct ((0 <? winner) && (height ecoInfo <? blockHeight st)).
        -- injection Hstep as <-. cbn [replace_winner maxEco branchValueWithMaxEco].
           select_max_done.
        -- cbn [andb] in Hstep. destruct randomizeOutput.
           ++ destruct ((0 <? winner) && (blockHeight st <? height ecoInfo)).
              ** injection Hstep as <-. rewrite Hw.
                 select_max_done.
              ** unfold reservoir in Hstep.
                 destruct (true_div 1 (dupEcoCount st + 1)) as [thr|x]; [|discriminate].
                 destruct (lt (random (drawn st)) thr); injection Hstep as <-;
                   cbn [maxEco branchValueWithMaxEco]; rewrite ?Hw;
                   select_max_done.
           ++ injection Hstep as <-. rewrite Hw.
              select_max_done.
      * cbn [andb] in Hstep. injection Hstep as <-. rewrite Hw.
        select_max_done.
  - injection Hstep as <-. cbn [replace_winner maxEco branchValueWithMaxEco].
    select_max_done.
Qed.

Lemma select_loop_max shardMask randomizeOutput random items : forall st st',
  select_loop shardMask randomizeOutput random items st = Ok st' ->
  is_number (maxEco st) = true ->
  is_number (maxEco st') = true
  /\ (branchValueWithMaxEco st <> None ->
      branchValueWithMaxEco st' <> None /\ gt (maxEco st) (maxEco st') = false)
  /\ (forall b e,
        In (b, e) items -> outside_mask shardMask b = false ->
        exists eco,
          true_div (coinbaseAmount e) (difficulty e) = Ok eco
          /\ gt eco (maxEco st') = false
          /\ branchValueWithMaxEco st' <> None)
  /\ ((branchValueWithMaxEco st' = branchValueWithMaxEco st /\ maxEco st' = maxEco st)
      \/ exists b e,
          In (b, e) items /\ outside_mask shardMask b = false
          /\ branchValueWithMaxEco st' = Some b
          /\ true_div (coinbaseAmount e) (difficulty e) = Ok (maxEco st')).
Proof.
  induction items as [|[b0 e0] items IH]; intros st st' Hloop Hnum.
  - injection Hloop as <-. repeat split; auto using gt_irrefl. intros b e [].
  - cbn [select_loop] in Hloop.
    destruct (select_step shardMask randomizeOutput random st b0 e0) as [st1|x] eqn:Hstep;
      [|discriminate].
    destruct (outside_mask shardMask b0) eqn:Ho.
    + rewrite (select_step_outside _ _ _ _ _ _ Ho) in Hstep. injection Hstep as <-.
      destruct (IH _ _ Hloop Hnum) as (Hn & Hmono & Hall & Hwin).
      split; [exact Hn|]. split; [exact Hmono|]. split.
      * intros b e [[= <- <-]|Hin] Hb; [congruence|]. apply (Hall b e); assumption.
      * destruct Hwin as [Hkeep|(b & e & Hin & Hrest)]; [left; exact Hkeep|].
        right. exists b, e. split; [right; exact Hin|exact Hrest].
    + destruct (select_step_max _ _ _ _ _ _ _ Hstep Ho Hnum)
        as (eco0 & He0 & Hn1 & Hle0 & Hw1 & Hmono1 & Hwin1).
      destruct (IH _ _ Hloop Hn1) as (Hn & Hmono & Hall & Hwin).
      destruct (Hmono Hw1) as [Hw' Hle1].
      pose proof (true_div_is_number _ _ _ He0) as Hen0.
      split; [exact Hn|]. split; [|split].
      * intros Hw. split; [exact Hw'|].
        apply (not_gt_trans (maxEco st) (maxEco st1) (maxEco st')); auto.
      * intros b e [[= <- <-]|Hin] Hb.
        -- exists eco0. split; [exact He0|]. split; [|exact Hw'].
           apply (not_gt_trans eco0 (maxEco st1) (maxEco st')); auto.
        -- apply (Hall b e); assumption.
      * destruct Hwin as [[Hk1 Hk2]|(b & e & Hin & Hrest)].
        -- destruct Hwin1 as [[Hk3 Hk4]|[Hb0 Hm0]].
           ++ left. split; congruence.
           ++ right. exists b0, e0. split; [left; reflexivity|].
              split; [exact Ho|]. split; congruence.
        -- right. exists b, e. split; [right; exact Hin|exact Hrest].
Qed.
End SelectionMaximal.

Section SelectionWinner.
Context `{Core}.
Import PyFloat.

Lemma select_step_returns shardMask randomizeOutput random st branchValue ecoInfo :
  (outside_mask shardMask branchValue = false ->
   exists eco, true_div (coinbaseAmount ecoInfo) (difficulty ecoInfo) = Ok eco) ->
  0 < dupEcoCount st ->
  exists st', select_step shardMask randomizeOutput random st branchValue ecoInfo = Ok st'.
Proof.
  intros Hdiv Hdup. unfold select_step.
  destruct (outside_mask shardMask branchValue); [eauto|].
  destruct (Hdiv Logic.eq_refl) as [eco ->].
  destruct (branchValueWithMaxEco st) as [winner|]; [|eauto].
  destruct (gt eco (maxEco st) || _); [eauto|].
  destruct (eq eco (maxEco st) && randomizeOutput); [|eauto].
  destruct ((0 <? winner) && _); [eauto|].
  destruct (reservoir_total random st branchValue eco) as (t & _ & ->); [lia|eauto].
Qed.

(** The loop returns when every division of a candidate inside the mask
    does. *)
Lemma select_loop_returns shardMask randomizeOutput random items : forall st,
  (forall b e, In (b, e) items -> outside_mask shardMask b = false ->
               exists eco, true_div (coinbaseAmount e) (difficulty e) = Ok eco) ->
  0 < dupEcoCount st ->
  exists st', select_loop shardMask randomizeOutput random items st = Ok st'.
Proof.
  induction items as [|[b0 e0] items IH]; intros st Hdiv Hdup; [simpl; eauto|].
  cbn [select_loop].
  destruct (select_step_returns shardMask randomizeOutput random st b0 e0)
    as [st1 Hstep]; [intros Ho; apply (Hdiv b0 e0); [left; reflexivity|exact Ho]|exact Hdup|].
  rewrite Hstep. apply IH.
  - intros b e Hin. apply Hdiv. right. exact Hin.
  - eapply select_step_dup_pos; eassumption.
Qed.

(** The selection returns a branch of greatest eco: no candidate inside
    the mask, and without a mask not the root either, has an eco above
    that of the winner; the winner is the root (only without a mask), a
    reported branch inside the mask, or unset (only with a mask that no
    reported branch is in). *)
Theorem selected_eco_is_greatest (self : MasterServer) shardMask randomizeOutput random
    (d : PyDict.dict EcoInfo) (winner : option Z) :
  select_winner self shardMask randomizeOutput random d = Ok winner ->
  exists best,
    (forall b e,
        In (b, e) d -> outside_mask shardMask b = false ->
        exists eco,
          true_div (coinbaseAmount e) (difficulty e) = Ok eco /\ gt eco best = false)
    /\ (shardMask = None ->
        exists rootEco, root_eco self d = Ok rootEco /\ gt rootEco best = false)
    /\ match winner with
       | None =>
           shardMask <> None
           /\ forall b e, In (b, e) d -> outside_mask shardMask b = true
       | Some w =>
           (shardMask = None /\ w = 0 /\ root_eco self d = Ok best)
           \/ exists e,
               In (w, e) d /\ outside_mask shardMask w = false
               /\ true_div (coinbaseAmount e) (difficulty e) = Ok best
       end.
Proof.
  unfold select_winner.
  destruct (root_eco self d) as [rootEco|x] eqn:Hroot; [|discriminate].
  destruct (select_loop shardMask randomizeOutput random d
                        (initial_selection shardMask rootEco)) as [st|x] eqn:Hloop;
    [|discriminate].
  intros [= <-].
  assert (Hnum : is_number (maxEco (initial_selection shardMask rootEco)) = true)
    by (apply (true_div_is_number _ _ _ Hroot)).
  destruct (select_loop_max _ _ _ _ _ _ Hloop Hnum) as (_ & Hmono & Hall & Hwin).
  exists (maxEco st). split; [|split].
  - intros b e Hin Ho. destruct (Hall b e Hin Ho) as (eco & He & Hle & _). eauto.
  - intros ->. exists rootEco. split; [reflexivity|].
    apply Hmono. discriminate.
  - destruct Hwin as [[Hw Hm]|(b & e & Hin & Ho & Hw & He)].
    + rewrite Hw. destruct shardMask as [mask|]; cbn [initial_selection branchValueWithMaxEco].
      * split; [discriminate|]. intros b e Hin.
        destruct (outside_mask (Some mask) b) eqn:Ho; [reflexivity|].
        destruct (Hall b e Hin Ho) as (_ & _ & _ & Hne).
        rewrite Hw in Hne. contradiction.
      * left. split; [reflexivity|]. split; [reflexivity|].
        rewrite Hm. reflexivity.
    + rewrite Hw. right. exists e. auto.
Qed.

(** A candidate inside the mask whose eco is strictly above that of
    every other candidate inside the mask, and without a mask above that
    of the root, is the winner, whatever the order of the candidates, the
    randomisation and the draws; and the selection returns. *)
Theorem strict_maximum_wins (self : MasterServer) shardMask randomizeOutput random
    (d : PyDict.dict EcoInfo) (b : Z) (e : EcoInfo) (eco rootEco : float) :
  root_eco self d = Ok rootEco ->
  In (b, e) d ->
  outside_mask shardMask b = false ->
  true_div (coinbaseAmount e) (difficulty e) = Ok eco ->
  (forall b' e',
      In (b', e') d -> outside_mask shardMask b' = false -> b' <> b ->
      exists eco',
        true_div (coinbaseAmount e') (difficulty e') = Ok eco' /\ gt eco eco' = true) ->
  (forall e', In (b, e') d -> e' = e) ->
  (shardMask = None -> gt eco rootEco = true) ->
  select_winner self shardMask randomizeOutput random d = Ok (Some b).
Proof.
  intros Hroot Hin Ho He Hothers Hone Hgt. unfold select_winner. rewrite Hroot.
  assert (Hnum : is_number (maxEco (initial_selection shardMask rootEco)) = true)
    by (apply (true_div_is_number _ _ _ Hroot)).
  destruct (select_loop_returns shardMask randomizeOutput random d
              (initial_selection shardMask rootEco)) as [st Hloop].
  { intros b' e' Hin' Ho'. destruct (Z.eq_dec b' b) as [->|Hne].
    - rewrite (Hone e' Hin'). eauto.
    - destruct (Hothers b' e' Hin' Ho' Hne) as (eco' & He' & _). eauto. }
  { simpl. lia. }
  rewrite Hloop. f_equal.
  destruct (select_loop_max _ _ _ _ _ _ Hloop Hnum) as (_ & Hmono & Hall & Hwin).
  destruct (Hall b e Hin Ho) as (eco0 & He0 & Hle & Hset).
  rewrite He in He0. injection He0 as <-.
  destruct Hwin as [[Hw Hm]|(b' & e' & Hin' & Ho' & Hw & He')].
  - destruct shardMask as [mask|]; simpl in Hw.
    + rewrite Hw in Hset. contradiction.
    + simpl in Hm. rewrite Hm, (Hgt Logic.eq_refl) in Hle. discriminate.
  - rewrite Hw. f_equal. destruct (Z.eq_dec b' b) as [->|Hne]; [reflexivity|].
    destruct (Hothers b' e' Hin' Ho' Hne) as (eco' & He'' & Hg).
    rewrite He' in He''. injection He'' as <-. rewrite Hg in Hle. discriminate.
Qed.
End SelectionWinner.

Section SelectionWinnerExamples.
Import Sample.
#[local] Existing Instance payloads.

Lemma selected_eco_is_greatest_witness :
  exists best,
    (forall b e,
        In (b, e) [(2, ecoA); (3, ecoB)] -> @outside_mask _ core None b = false ->
        exists eco,
          PyFloat.true_div (coinbaseAmount e) (difficulty e) = Ok eco
          /\ PyFloat.gt eco best = false)
    /\ PyFloat.true_div (coinbaseAmount ecoA) (difficulty ecoA) = Ok best.
Proof.
  destruct (@selected_eco_is_greatest payloads core master None true
              (fun _ => three_quarters) [(2, ecoA); (3, ecoB)] (Some 2))
    as (best & Hall & _ & Hwin).
  - vm_compute. reflexivity.
  - exists best. split; [exact Hall|].
    destruct Hwin as [(_ & Hw & _)|(e & Hin & _ & He)]; [discriminate|].
    destruct Hin as [[= <-]|[[=]|[]]]. exact He.
Defined.

Lemma strict_maximum_wins_witness :
  @select_winner _ core master None true (fun _ => zero) [(3, ecoB); (2, ecoA)]
  = Ok (Some 2).
Proof.
  apply (@strict_maximum_wins payloads core master None true (fun _ => zero)
           [(3, ecoB); (2, ecoA)] 2 ecoA
           (S754_finite false 8444249301319680 (-49))
           (S754_finite false 5629499534213120 (-49))).
  - vm_compute. reflexivity.
  - right. left. reflexivity.
  - reflexivity.
  - vm_compute. reflexivity.
  - intros b' e' [[= <- <-]|[[= <- <-]|[]]] _ Hne; [|contradiction].
    eexists. split; [vm_compute; reflexivity|]. vm_compute. reflexivity.
  - intros e' [[=]|[[= <-]|[]]]. reflexivity.
  - intros _. vm_compute. reflexivity.
Defined.
End SelectionWinnerExamples.

(** ** Mining dispatcher: merging the answers *)

Section Merging.
Context `{Core} `{!SlaveReplies}.
Import PyFloat.

Lemma last_reported_app k (l1 l2 : list EcoInfo) :
  last_reported k (l1 ++ l2)
  = match last_reported k l2 with
    | Some e => Some e
    | None => last_reported k l1
    end.
Proof.
  unfold last_reported. rewrite rev_app_distr.
  induction (rev l2) as [|e l IH]; simpl; [reflexivity|].
  destruct (branch e =? k); [reflexivity|exact IH].
Qed.

Lemma dict_get_set k k' (v : EcoInfo) (d : PyDict.dict EcoInfo) :
  PyDict.get k' (PyDict.set k v d) = if k =? k' then Some v else PyDict.get k' d.
Proof.
  destruct (Z.eqb_spec k k') as [->|Hne].
  - apply dict_get_set_eq.
  - apply dict_get_set_ne. exact Hne.
Qed.

Lemma get_set_ecoInfos k (ecoInfos : list EcoInfo) : forall d,
  PyDict.get k (set_ecoInfos ecoInfos d)
  = match last_reported k ecoInfos with
    | Some e => Some e
    | None => PyDict.get k d
    end.
Proof.
  unfold set_ecoInfos.
  induction ecoInfos as [|e ecoInfos IH] using rev_ind; intros d; [reflexivity|].
  rewrite fold_left_app, last_reported_app. cbn [fold_left].
  rewrite dict_get_set. unfold last_reported at 1. cbn [rev app List.find].
  destruct (branch e =? k); [reflexivity|apply IH].
Qed.

Lemma get_merge_ecoInfo k (responses : list GetEcoInfoListResponse) : forall d0 d,
  merge_ecoInfo responses d0 = Some d ->
  PyDict.get k d
  = match last_reported k (reported responses) with
    | Some e => Some e
    | None => PyDict.get k d0
    end.
Proof.
  induction responses as [|r responses IH]; intros d0 d.
  - simpl. intros [= <-]. reflexivity.
  - cbn [merge_ecoInfo]. destruct (negb (eco_errorCode r =? 0)); [discriminate|].
    intros Hm. rewrite (IH _ _ Hm). unfold reported. cbn [map concat].
    rewrite last_reported_app, get_set_ecoInfos.
    destruct (last_reported k (concat (map ecoInfoList responses))); reflexivity.
Qed.

Lemma merge_ecoInfo_None (responses : list GetEcoInfoListResponse) : forall d0,
  merge_ecoInfo responses d0 = None <->
  exists response, In response responses /\ eco_errorCode response <> 0.
Proof.
  induction responses as [|r responses IH]; intros d0; cbn [merge_ecoInfo].
  - split; [discriminate|intros (r & [] & _)].
  - destruct (Z.eqb_spec (eco_errorCode r) 0) as [Hz|Hnz]; cbn [negb].
    + rewrite IH. split.
      * intros (r' & Hin & Hne). exists r'. split; [right; exact Hin|exact Hne].
      * intros (r' & [<-|Hin] & Hne); [contradiction|]. exists r'. auto.
    + split; [|reflexivity]. intros _. exists r. split; [left; reflexivity|exact Hnz].
Qed.

(** Merging is last-writer-wins: the merged map holds, for every branch
    value, the eco info that was reported last under it, and nothing for
    a branch value that no polled slave reported. *)
Theorem merged_map_last_writer_wins (responses : list GetEcoInfoListResponse)
    (d : PyDict.dict EcoInfo) :
  merge_ecoInfo responses [] = Some d ->
  forall branchValue,
    PyDict.get branchValue d = last_reported branchValue (reported responses).
Proof.
  intros Hm k. rewrite (get_merge_ecoInfo k responses [] d Hm).
  destruct (last_reported k (reported responses)); reflexivity.
Qed.

(** One polled slave answering with an error code is enough for the
    dispatcher to return no block: every overlapping slave is still asked
    for its eco infos, nothing else is requested, and nothing is raised
    whatever the other answers and the root difficulty are. *)
Theorem eco_error_gives_no_block (self : MasterServer) (address : Address)
    (shardMaskValue : Z) (randomizeOutput : bool) (random : nat -> float)
    (slave : Slave) :
  In slave (eco_poll_targets self (shardMask_of shardMaskValue)) ->
  eco_errorCode (reply_getEcoInfoList slave) <> 0 ->
  getNextBlockToMine self address shardMaskValue randomizeOutput random
  = (map RpcGetEcoInfoList (eco_poll_targets self (shardMask_of shardMaskValue)),
     Ok NoBlock).
Proof.
  intros Hin Herr. rewrite getNextBlockToMine_run. cbn zeta.
  assert (Hnone : merge_ecoInfo
                    (map reply_getEcoInfoList
                         (eco_poll_targets self (shardMask_of shardMaskValue))) [] = None).
  { apply merge_ecoInfo_None. exists (reply_getEcoInfoList slave).
    split; [apply in_map; exact Hin|exact Herr]. }
  rewrite Hnone. reflexivity.
Qed.

Lemma merge_ecoInfo_Some (responses : list GetEcoInfoListResponse) d0 :
  (forall response, In response responses -> eco_errorCode response = 0) ->
  exists d, merge_ecoInfo responses d0 = Some d.
Proof.
  intros Hok. destruct (merge_ecoInfo responses d0) as [d|] eqn:Hm; [eauto|].
  apply merge_ecoInfo_None in Hm as (r & Hin & Hne). destruct (Hne (Hok r Hin)).
Qed.

(** A next root difficulty of zero makes the dispatcher raise
    [ZeroDivisionError] once the eco infos are fetched, also when a shard
    mask keeps the root out of the selection. *)
Theorem zero_root_difficulty_raises (self : MasterServer) (address : Address)
    (shardMaskValue : Z) (randomizeOutput : bool) (random : nat -> float) :
  (forall slave, In slave (eco_poll_targets self (shardMask_of shardMaskValue)) ->
                 eco_errorCode (reply_getEcoInfoList slave) = 0) ->
  getNextBlockDifficulty (rootState self) = 0 ->
  getNextBlockToMine self address shardMaskValue randomizeOutput random
  = (map RpcGetEcoInfoList (eco_poll_targets self (shardMask_of shardMaskValue)),
     Raise ZeroDivisionError).
Proof.
  intros Hok Hzero. rewrite getNextBlockToMine_run. cbn zeta.
  destruct (merge_ecoInfo_Some
              (map reply_getEcoInfoList (eco_poll_targets self (shardMask_of shardMaskValue)))
              []) as [d Hd].
  { intros r Hr. apply in_map_iff in Hr as (s & <- & Hs). apply Hok. exact Hs. }
  rewrite Hd. unfold select_winner, root_eco, true_div. rewrite Hzero. reflexivity.
Qed.

(** The first candidate inside the mask with a difficulty of zero stops
    the loop with [ZeroDivisionError], when the candidates before it
    divide; a candidate outside the mask is never divided. *)
Theorem zero_difficulty_candidate_raises shardMask randomizeOutput random
    (before after : PyDict.dict EcoInfo) (branchValue : Z) (ecoInfo : EcoInfo)
    (st : Selection) :
  (forall b e, In (b, e) before -> outside_mask shardMask b = false ->
               exists eco, true_div (coinbaseAmount e) (difficulty e) = Ok eco) ->
  0 < dupEcoCount st ->
  difficulty ecoInfo = 0 ->
  select_loop shardMask randomizeOutput random
              (before ++ (branchValue, ecoInfo) :: after) st
  = if outside_mask shardMask branchValue
    then select_loop shardMask randomizeOutput random (before ++ after) st
    else Raise ZeroDivisionError.
Proof.
  revert st. induction before as [|[b0 e0] before IH]; intros st Hdiv Hdup Hzero.
  - cbn [app select_loop]. unfold select_step at 1.
    destruct (outside_mask shardMask branchValue); [reflexivity|].
    unfold true_div. rewrite Hzero. reflexivity.
  - cbn [app select_loop].
    destruct (select_step_returns shardMask randomizeOutput random st b0 e0)
      as [st1 Hstep];
      [intros Ho; apply (Hdiv b0 e0); [left; reflexivity|exact Ho]|exact Hdup|].
    rewrite Hstep. apply IH; [|eapply select_step_dup_pos; eassumption|exact Hzero].
    intros b e Hin. apply Hdiv. right. exact Hin.
Qed.
End Merging.

(** ** Mining dispatcher: giving up on the root block *)

Section HeadersErrors.
Context `{Core} `{!SlaveReplies}.

Lemma merge_headersInfo_None (infos : list HeadersInfo) : forall d,
  merge_headersInfo infos d = None <->
  existsb (fun headersInfo => negb (getShardSize (headers_branch headersInfo) =? SHARD_SIZE))
          infos = true.
Proof.
  induction infos as [|info infos IH]; intros d; cbn [merge_headersInfo existsb].
  - split; discriminate.
  - destruct (negb (getShardSize (headers_branch info) =? SHARD_SIZE)); cbn [orb].
    + split; reflexivity.
    + apply IH.
Qed.

Lemma merge_headers_None (responses : list GetUnconfirmedHeadersResponse) : forall d,
  merge_headers responses d = None <->
  exists response, In response responses /\ bad_headers response = true.
Proof.
  induction responses as [|r responses IH]; intros d; cbn [merge_headers].
  - split; [discriminate|intros (r & [] & _)].
  - destruct (negb (headers_errorCode r =? 0)) eqn:Herr.
    + split; [|reflexivity]. intros _. exists r.
      split; [left; reflexivity|]. unfold bad_headers. rewrite Herr. reflexivity.
    + destruct (merge_headersInfo (headersInfoList r) d) as [d'|] eqn:Hinfo.
      * assert (Hgood : bad_headers r = false).
        { unfold bad_headers. rewrite Herr. cbn [orb].
          destruct (existsb _ (headersInfoList r)) eqn:Hex; [|reflexivity].
          apply (proj2 (merge_headersInfo_None _ d)) in Hex. congruence. }
        rewrite IH. split.
        -- intros (r' & Hin & Hbad). exists r'. split; [right; exact Hin|exact Hbad].
        -- intros (r' & [Heq|Hin] & Hbad);
             [subst r'; rewrite Hgood in Hbad; discriminate|]. exists r'. auto.
      * split; [|reflexivity]. intros _. exists r. split; [left; reflexivity|].
        unfold bad_headers. rewrite Herr. cbn [orb].
        apply (proj1 (merge_headersInfo_None _ d)). exact Hinfo.
Qed.

(** When one slave answers the headers request with an error code, or
    with headers of a branch of another shard size, the root step returns
    no block: all slaves were asked for their headers, no minor block is
    requested and no root block is created. *)
Theorem bad_headers_give_no_block (self : MasterServer) (address : Address)
    (slave : Slave) :
  In slave (slavePool self) ->
  bad_headers (reply_getUnconfirmedHeaders slave) = true ->
  createRootBlockToMineOrFallbackToMinorBlock self address
  = (map RpcGetUnconfirmedHeaders (slavePool self), Ok NoBlock).
Proof.
  intros Hin Hbad. rewrite createRoot_run.
  assert (Hnone : merge_headers (map reply_getUnconfirmedHeaders (slavePool self)) [] = None).
  { apply merge_headers_None. exists (reply_getUnconfirmedHeaders slave).
    split; [apply in_map; exact Hin|exact Hbad]. }
  rewrite Hnone. reflexivity.
Qed.
End HeadersErrors.

Section DispatcherErrorExamples.
Import Sample Fixtures.
#[local] Existing Instance payloads.

Lemma merged_map_last_writer_wins_witness :
  PyDict.get 2 [(2, ecoA'); (3, ecoB)] = Some ecoA'
  /\ PyDict.get 5 [(2, ecoA'); (3, ecoB)] = None.
Proof.
  pose proof (merged_map_last_writer_wins
                [ {| eco_errorCode := 0; ecoInfoList := [ecoA; ecoB] |};
                  {| eco_errorCode := 0; ecoInfoList := [ecoA'] |} ]
                [(2, ecoA'); (3, ecoB)] Logic.eq_refl) as Hget.
  split; [exact (Hget 2)|exact (Hget 5)].
Defined.

Lemma eco_error_gives_no_block_witness :
  @getNextBlockToMine _ core (replies eco_reply_error headers_reply id) master 0 0 true
     (fun _ => three_quarters)
  = ([RpcGetEcoInfoList s1; RpcGetEcoInfoList s2], Ok NoBlock).
Proof.
  apply (@eco_error_gives_no_block payloads core (replies eco_reply_error headers_reply id)
           master (0 : @Address payloads) 0 true (fun _ => three_quarters) s2).
  - right. left. reflexivity.
  - vm_compute. discriminate.
Defined.

Lemma zero_root_difficulty_raises_witness :
  @getNextBlockToMine _ core_zero_difficulty (replies eco_reply headers_reply id) master
     0 2 true (fun _ => three_quarters)
  = ([RpcGetEcoInfoList s1], Raise ZeroDivisionError).
Proof.
  apply (@zero_root_difficulty_raises payloads core_zero_difficulty
           (replies eco_reply headers_reply id)
           master (0 : @Address payloads) 2 true (fun _ => three_quarters)).
  - intros slave [<-|[]]. reflexivity.
  - reflexivity.
Defined.

Lemma zero_difficulty_candidate_raises_witness :
  @select_loop _ core None true (fun _ => three_quarters)
     ([(2, ecoA)] ++ (3, haltedB) :: []) (initial_selection None zero)
  = Raise ZeroDivisionError.
Proof.
  apply (@zero_difficulty_candidate_raises payloads core None true
           (fun _ => three_quarters) [(2, ecoA)] [] 3 haltedB (initial_selection None zero)).
  - intros b e [[= <- <-]|[]] _. eexists. vm_compute. reflexivity.
  - simpl. lia.
  - reflexivity.
Defined.

Lemma bad_headers_give_no_block_witness :
  @createRootBlockToMineOrFallbackToMinorBlock _ core
     (replies eco_reply headers_reply_error id) master 0
  = ([RpcGetUnconfirmedHeaders s1; RpcGetUnconfirmedHeaders s2], Ok NoBlock).
Proof.
  apply (@bad_headers_give_no_block payloads core (replies eco_reply headers_reply_error id)
           master (0 : @Address payloads) s2).
  - right. left. reflexivity.
  - vm_compute. reflexivity.
Defined.
End DispatcherErrorExamples.

(** ** Cluster registry *)

Section Registry.
Context `{Core} `{!SlaveReplies}.

Lemma register_shards_fold slave (index : gmap Z (list Slave)) :
  register_shards slave index
  = fold_left (register_shard slave) (range SHARD_SIZE) index.
Proof. reflexivity. Qed.

Lemma register_shard_grows slave (index : gmap Z (list Slave)) shardId b l :
  index !! b = Some l ->
  exists l', register_shard slave index shardId !! b = Some (l ++ l').
Proof.
  intros Hl. unfold register_shard. destruct (hasShard slave shardId).
  - destruct (decide (Branch_create SHARD_SIZE shardId = b)) as [<-|Hne].
    + rewrite lookup_insert_eq, Hl. exists [slave]. reflexivity.
    + rewrite lookup_insert_ne by exact Hne. exists []. rewrite app_nil_r. exact Hl.
  - exists []. rewrite app_nil_r. exact Hl.
Qed.

Lemma register_fold_grows slave shardIds : forall (index : gmap Z (list Slave)) b l,
  index !! b = Some l ->
  exists l', fold_left (register_shard slave) shardIds index !! b = Some (l ++ l').
Proof.
  induction shardIds as [|i shardIds IH]; intros index b l Hl.
  - exists []. rewrite app_nil_r. exact Hl.
  - cbn [fold_left].
    destruct (register_shard_grows slave index i b l Hl) as [l1 Hl1].
    destruct (IH _ b _ Hl1) as [l2 Hl2].
    exists (l1 ++ l2). rewrite app_assoc. exact Hl2.
Qed.

Lemma register_fold_adds slave shardIds : forall (index : gmap Z (list Slave)) shardId,
  In shardId shardIds ->
  hasShard slave shardId = true ->
  exists l,
    fold_left (register_shard slave) shardIds index !! Branch_create SHARD_SIZE shardId
    = Some l /\ In slave l.
Proof.
  induction shardIds as [|i shardIds IH]; intros index shardId Hin Hhas; [destruct Hin|].
  cbn [fold_left]. destruct Hin as [->|Hin]; [|apply IH; assumption].
  assert (Hnow : register_shard slave index shardId !! Branch_create SHARD_SIZE shardId
                 = Some (default [] (index !! Branch_create SHARD_SIZE shardId) ++ [slave])).
  { unfold register_shard. rewrite Hhas. apply lookup_insert_eq. }
  destruct (register_fold_grows slave shardIds _ _ _ Hnow) as [l' Hl'].
  eexists. split; [exact Hl'|].
  apply in_or_app. left. apply in_or_app. right. left. reflexivity.
Qed.

Lemma register_fold_sound slave shardIds (Q : Slave -> Z -> Prop) :
  (forall shardId, In shardId shardIds -> hasShard slave shardId = true ->
                   Q slave (Branch_create SHARD_SIZE shardId)) ->
  forall index : gmap Z (list Slave),
    (forall b l, index !! b = Some l -> l <> [] /\ forall s, In s l -> Q s b) ->
    forall b l,
      fold_left (register_shard slave) shardIds index !! b = Some l ->
      l <> [] /\ forall s, In s l -> Q s b.
Proof.
  induction shardIds as [|i shardIds IH]; intros Hq index Hidx; [exact Hidx|].
  cbn [fold_left]. apply IH; [intros j Hj; apply Hq; right; exact Hj|].
  intros b l. unfold register_shard. destruct (hasShard slave i) eqn:Hhas; [|apply Hidx].
  destruct (decide (Branch_create SHARD_SIZE i = b)) as [<-|Hne].
  - rewrite lookup_insert_eq. intros [= <-]. split.
    + intros Hnil. apply app_eq_nil in Hnil as [_ Hnil]. discriminate.
    + intros s Hs. apply in_app_or in Hs as [Hs|[<-|[]]].
      * destruct (index !! Branch_create SHARD_SIZE i) as [l0|] eqn:Hl0; [|destruct Hs].
        apply (Hidx _ _ Hl0). exact Hs.
      * apply Hq; [left; reflexivity|exact Hhas].
  - rewrite lookup_insert_ne by exact Hne. apply Hidx.
Qed.

Lemma shutdown_registry self :
  slavePool (shutdown self) = slavePool self
  /\ branchToSlaves (shutdown self) = branchToSlaves self.
Proof.
  unfold shutdown.
  destruct (negb (done (shutdownFuture self)));
    match goal with |- context [if ?c then _ else _] => destruct c end;
    split; reflexivity.
Qed.

Lemma connect_slave_registry self slaveInfo t self' :
  connect_slave self slaveInfo = (t, Ok self') ->
  exists slave,
    new_SlaveConnection slaveInfo = Ok slave
    /\ slavePool self' = slavePool self ++ [slave]
    /\ branchToSlaves self' = register_shards slave (branchToSlaves self).
Proof.
  unfold connect_slave.
  destruct (new_SlaveConnection slaveInfo) as [slave|e]; [|discriminate].
  rewrite bind_lift_Ok. unfold verify_ping.
  destruct (reply_ping slave) as [pingId pingMasks].
  rewrite bind_emit. unfold bind, ret. cbn [fst snd].
  intros [= _ <-]. exists slave. split; [reflexivity|].
  cbn [slavePool branchToSlaves set_registry].
  destruct (negb (bool_decide (pingId = info_id slaveInfo))),
           (negb (bool_decide (pingMasks = info_shardMaskList slaveInfo)));
    repeat (destruct (shutdown_registry self) as [-> ->]
            || destruct (shutdown_registry (shutdown self)) as [-> ->]);
    split; reflexivity.
Qed.
End Registry.

Section RegistryInvariants.
Context `{Core} `{!SlaveReplies}.

Lemma connect_slave_sound self slaveInfo t self' :
  registry_sound self ->
  connect_slave self slaveInfo = (t, Ok self') ->
  registry_sound self'.
Proof.
  intros Hsound Hstep.
  destruct (connect_slave_registry _ _ _ _ Hstep) as (slave & _ & Hpool & Hindex).
  unfold registry_sound. rewrite Hpool, Hindex, register_shards_fold.
  apply (register_fold_sound slave (range SHARD_SIZE)
           (fun s b => In s (slavePool self ++ [slave])
                       /\ exists shardId,
                           0 <= shardId < SHARD_SIZE
                           /\ b = Branch_create SHARD_SIZE shardId
                           /\ hasShard s shardId = true)).
  - intros shardId Hin Hhas. split; [apply in_or_app; right; left; reflexivity|].
    exists shardId. apply range_In in Hin. auto.
  - intros b l Hl. destruct (Hsound b l Hl) as [Hne Hall]. split; [exact Hne|].
    intros s Hs. destruct (Hall s Hs) as [Hp Hshard].
    split; [apply in_or_app; left; exact Hp|exact Hshard].
Qed.

(** Bring-up keeps the registry sound: after it every list of
    [branchToSlaves] is non-empty and holds only slaves of the pool that
    have a shard of the branch, so [getSlaveConnection] returns the first
    slave of a registered branch and raises [KeyError] for any other; its
    [check] never fails. *)
Theorem bring_up_keeps_registry_sound slaveInfoList : forall self t self',
  registry_sound self ->
  connectToSlaves self slaveInfoList = (t, Ok self') ->
  registry_sound self'
  /\ forall branchValue,
      match branchToSlaves self' !! branchValue with
      | Some slaves =>
          exists slave, head slaves = Some slave
                        /\ getSlaveConnection self' branchValue = Ok slave
      | None => getSlaveConnection self' branchValue = Raise KeyError
      end.
Proof.
  assert (Hloop : forall self t self',
             registry_sound self ->
             connectToSlaves self slaveInfoList = (t, Ok self') ->
             registry_sound self').
  { induction slaveInfoList as [|slaveInfo rest IH]; intros self t self' Hsound.
    - simpl. intros [= _ <-]. exact Hsound.
    - cbn [connectToSlaves].
      destruct (connect_slave self slaveInfo) as [t1 [self1|e]] eqn:Hstep; [|discriminate].
      rewrite bind_pair_Ok. intros Hrest.
      apply (IH self1 (fst (connectToSlaves self1 rest)) self').
      + eapply connect_slave_sound; eassumption.
      + destruct (connectToSlaves self1 rest) as [t2 r]. simpl in *. congruence. }
  intros self t self' Hsound Hrun.
  pose proof (Hloop self t self' Hsound Hrun) as Hsound'.
  split; [exact Hsound'|]. intros b. unfold getSlaveConnection.
  destruct (branchToSlaves self' !! b) as [slaves|] eqn:Hl; [|reflexivity].
  destruct (Hsound' b slaves Hl) as [Hne _].
  destruct slaves as [|slave slaves]; [contradiction|]. exists slave. auto.
Qed.

Lemma connectToSlaves_grows slaveInfoList : forall self t self' b l,
  connectToSlaves self slaveInfoList = (t, Ok self') ->
  branchToSlaves self !! b = Some l ->
  exists l', branchToSlaves self' !! b = Some (l ++ l').
Proof.
  induction slaveInfoList as [|slaveInfo rest IH]; intros self t self' b l.
  - simpl. intros [= _ <-] Hl. exists []. rewrite app_nil_r. exact Hl.
  - cbn [connectToSlaves].
    destruct (connect_slave self slaveInfo) as [t1 [self1|e]] eqn:Hstep; [|discriminate].
    rewrite bind_pair_Ok. intros Hrest Hl.
    destruct (connect_slave_registry _ _ _ _ Hstep) as (slave & _ & _ & Hindex).
    destruct (register_fold_grows slave (range SHARD_SIZE) _ _ _ Hl) as [l1 Hl1].
    rewrite <- register_shards_fold, <- Hindex in Hl1.
    destruct (IH self1 (fst (connectToSlaves self1 rest)) self' b (l ++ l1)) as [l2 Hl2];
      [destruct (connectToSlaves self1 rest) as [t2 r]; simpl in *; congruence|exact Hl1|].
    exists (l1 ++ l2). rewrite app_assoc. exact Hl2.
Qed.

Lemma connectToSlaves_rest self1 rest (t : list Event) (self' : MasterServer) t1 :
  (t1 ++ fst (connectToSlaves self1 rest), snd (connectToSlaves self1 rest)) = (t, Ok self') ->
  connectToSlaves self1 rest = (fst (connectToSlaves self1 rest), Ok self').
Proof. destruct (connectToSlaves self1 rest) as [t2 r]. simpl. congruence. Qed.

Lemma connectToSlaves_pool slaveInfoList : forall self t self',
  connectToSlaves self slaveInfoList = (t, Ok self') ->
  exists slaves,
    Forall2 (fun slaveInfo slave => new_SlaveConnection slaveInfo = Ok slave)
            slaveInfoList slaves
    /\ slavePool self' = slavePool self ++ slaves.
Proof.
  induction slaveInfoList as [|info rest IH]; intros self t self'.
  - simpl. intros [= _ <-]. exists []. split; [constructor|symmetry; apply app_nil_r].
  - cbn [connectToSlaves].
    destruct (connect_slave self info) as [t1 [self1|e]] eqn:Hstep; [|discriminate].
    rewrite bind_pair_Ok. intros Hrun. apply connectToSlaves_rest in Hrun.
    destruct (connect_slave_registry _ _ _ _ Hstep) as (slave & Hnew & Hpool & _).
    destruct (IH _ _ _ Hrun) as (slaves & Hall & Hpool').
    exists (slave :: slaves). split; [constructor; assumption|].
    rewrite Hpool', Hpool, <- app_assoc. reflexivity.
Qed.

(** Bring-up, when it returns, has added exactly one connection per
    configured slave to the pool, and every configured slave is in the
    pool (whatever its masks) and in the list of the branch of every
    shard it has. *)
Theorem bring_up_registers_every_shard slaveInfoList : forall self t self',
  connectToSlaves self slaveInfoList = (t, Ok self') ->
  (exists slaves,
      Forall2 (fun slaveInfo slave => new_SlaveConnection slaveInfo = Ok slave)
              slaveInfoList slaves
      /\ Permutation (slavePool self') (slavePool self ++ slaves))
  /\ forall slaveInfo,
      In slaveInfo slaveInfoList ->
      exists slave,
        new_SlaveConnection slaveInfo = Ok slave
        /\ In slave (slavePool self')
        /\ forall shardId,
            0 <= shardId < SHARD_SIZE ->
            hasShard slave shardId = true ->
            exists slaves,
              branchToSlaves self' !! Branch_create SHARD_SIZE shardId = Some slaves
              /\ In slave slaves.
Proof.
  intros self t self' Hrun. split.
  { destruct (connectToSlaves_pool _ _ _ _ Hrun) as (slaves & Hall & ->).
    exists slaves. split; [exact Hall|reflexivity]. }
  revert self t self' Hrun.
  induction slaveInfoList as [|info rest IH];
    intros self t self' Hrun slaveInfo Hin; [destruct Hin|].
  cbn [connectToSlaves] in Hrun.
  destruct (connect_slave self info) as [t1 [self1|e]] eqn:Hstep; [|discriminate].
  rewrite bind_pair_Ok in Hrun. apply connectToSlaves_rest in Hrun.
  destruct Hin as [->|Hin]; [|exact (IH _ _ _ Hrun slaveInfo Hin)].
  destruct (connect_slave_registry _ _ _ _ Hstep) as (slave & Hnew & Hpool & Hindex).
  exists slave. split; [exact Hnew|]. split.
  - destruct (connectToSlaves_pool _ _ _ _ Hrun) as (slaves & _ & ->).
    rewrite Hpool. apply in_or_app. left. apply in_or_app. right. left. reflexivity.
  - intros shardId Hrange Hhas.
    destruct (register_fold_adds slave (range SHARD_SIZE) (branchToSlaves self) shardId)
      as (l & Hl & Hsl); [apply range_In; exact Hrange|exact Hhas|].
    rewrite <- register_shards_fold, <- Hindex in Hl.
    destruct (connectToSlaves_grows rest self1 _ self' _ _ Hrun Hl) as [l' Hl'].
    exists (l ++ l'). split; [exact Hl'|apply in_or_app; left; exact Hsl].
Qed.
End RegistryInvariants.

Section RegistryExamples.
Import Sample Fixtures.
#[local] Existing Instance payloads.

Example bring_up_two_slaves :
  @connectToSlaves _ core (replies eco_reply headers_reply id) fresh [info1; info2]
  = ([RpcPing s1; RpcPing s2], Ok brought_up).
Proof. vm_compute. reflexivity. Qed.

Lemma fresh_registry_sound : @registry_sound _ core fresh.
Proof. intros b l Hl. simpl in Hl. rewrite lookup_empty in Hl. discriminate. Qed.

Lemma bring_up_keeps_registry_sound_witness :
  @registry_sound _ core brought_up
  /\ @getSlaveConnection _ brought_up 3 = Ok s2
  /\ @getSlaveConnection _ brought_up 5 = Raise KeyError.
Proof.
  destruct (@bring_up_keeps_registry_sound payloads core
              (replies eco_reply headers_reply id) [info1; info2]
              fresh [RpcPing s1; RpcPing s2] brought_up fresh_registry_sound
              bring_up_two_slaves) as [Hsound Hget].
  split; [exact Hsound|]. split.
  - pose proof (Hget 3) as H3. simpl in H3. destruct H3 as (slave & [= <-] & H3). exact H3.
  - exact (Hget 5).
Defined.

Lemma bring_up_registers_every_shard_witness :
  In s2 (slavePool brought_up)
  /\ exists slaves, branchToSlaves brought_up !! 3 = Some slaves /\ In s2 slaves.
Proof.
  destruct (@bring_up_registers_every_shard payloads core
              (replies eco_reply headers_reply id) [info1; info2]
              fresh [RpcPing s1; RpcPing s2] brought_up bring_up_two_slaves)
    as [_ Hall].
  destruct (Hall info2) as (slave & Hnew & Hpool & Hshards);
    [right; left; reflexivity|].
  injection Hnew as <-.
  split; [exact Hpool|].
  apply (Hshards 1); [simpl; lia|reflexivity].
Defined.

(** A configured slave without a shard below [SHARD_SIZE] is in the pool
    all the same, and under no branch. *)
Example bring_up_slave_without_shard :
  exists self',
    @connectToSlaves _ core (replies eco_reply headers_reply id) fresh [info_far]
    = ([RpcPing s_far], Ok self')
    /\ slavePool self' = [s_far]
    /\ branchToSlaves self' = ∅.
Proof. eexists. split; [vm_compute; reflexivity|]. split; reflexivity. Qed.
End RegistryExamples.

(** ** Root-block update serializer: order, failure and the single drain *)

Section SerializerOrder.
Context `{Core} `{!SlaveReplies}.

Lemma broadcasts_app (t1 t2 : list Event) :
  broadcasts (t1 ++ t2) = broadcasts t1 ++ broadcasts t2.
Proof. unfold broadcasts. apply List.filter_app. Qed.

Lemma broadcasts_events self rBlock :
  broadcasts (broadcast_events self rBlock) = broadcast_events self rBlock.
Proof.
  unfold broadcasts, broadcast_events.
  induction (slavePool self) as [|s pool IH]; simpl; [reflexivity|]. rewrite IH. reflexivity.
Qed.

Lemma added_blocks_app (t1 t2 : list Event) :
  added_blocks (t1 ++ t2) = added_blocks t1 ++ added_blocks t2.
Proof. unfold added_blocks. apply omap_app. Qed.

Lemma added_blocks_events self rBlock : added_blocks (broadcast_events self rBlock) = [].
Proof.
  unfold added_blocks, broadcast_events.
  induction (slavePool self) as [|s pool IH]; simpl; [reflexivity|exact IH].
Qed.

Lemma try_addBlock_trace updateTip rs rBlock :
  broadcasts (trace_of (try_addBlock updateTip rs rBlock)) = []
  /\ (added_blocks (trace_of (try_addBlock updateTip rs rBlock)) = []
      \/ added_blocks (trace_of (try_addBlock updateTip rs rBlock)) = [rBlock]).
Proof.
  unfold try_addBlock. destruct updateTip; [split; [reflexivity|left; reflexivity]|].
  rewrite bind_emit. cbn [trace_of fst].
  destruct (addBlock rs rBlock) as [rs' [u|[]]]; split; try reflexivity; right; reflexivity.
Qed.

(** Whatever the drain ends with, the requests it sent are the
    broadcasts, each to every slave in the order of the pool, of a
    sub-sequence of the queue in the order of the queue, and the blocks it
    passed to [addBlock] are a sub-sequence of the queue as well: blocks
    are handled first in, first out, and none is handled twice. *)
Theorem drain_keeps_queue_order self queue : forall updateTip rs,
  exists sent added,
    sublist sent queue /\ sublist added queue
    /\ broadcasts (trace_of (drain self queue updateTip rs))
       = concat (map (broadcast_events self) sent)
    /\ added_blocks (trace_of (drain self queue updateTip rs)) = added.
Proof.
  induction queue as [|rBlock queue IH]; intros updateTip rs.
  - exists [], []. repeat split; constructor.
  - cbn [drain].
    destruct (try_addBlock_trace updateTip rs rBlock) as [Hb Ha].
    destruct (try_addBlock updateTip rs rBlock) as [t0 [[[u|] rs']|e]] eqn:Htry;
      cbn [trace_of fst] in Hb, Ha.
    + rewrite bind_pair_Ok, broadcast_addRootBlock_run, bind_pair_Ok. cbn [fst snd].
      destruct (IH u rs') as (sent & added & Hs & Hadd & Hbr & Hab).
      destruct (forallb _ _).
      * exists (rBlock :: sent), (added_blocks t0 ++ added).
        split; [constructor; exact Hs|]. split.
        { destruct Ha as [->| ->]; [apply sublist_cons; exact Hadd|].
          simpl. constructor. exact Hadd. }
        unfold trace_of in *. cbn [fst].
        rewrite !broadcasts_app, !added_blocks_app, Hb, Hbr, Hab,
          broadcasts_events, added_blocks_events.
        split; reflexivity.
      * exists [rBlock], (added_blocks t0).
        split; [constructor; apply sublist_nil_l|]. split.
        { destruct Ha as [->| ->]; [apply sublist_nil_l|].
          constructor. apply sublist_nil_l. }
        unfold trace_of. cbn [fst raise app].
        rewrite !broadcasts_app, !added_blocks_app, Hb,
          broadcasts_events, added_blocks_events.
        cbn [map concat app broadcasts added_blocks List.filter omap].
        rewrite !app_nil_r. split; reflexivity.
    + rewrite bind_pair_Ok. cbn [fst snd].
      destruct (IH updateTip rs') as (sent & added & Hs & Hadd & Hbr & Hab).
      exists sent, (added_blocks t0 ++ added).
      split; [apply sublist_cons; exact Hs|]. split.
      { destruct Ha as [->| ->]; [apply sublist_cons; exact Hadd|].
        simpl. constructor. exact Hadd. }
      unfold trace_of in *. cbn [fst].
      rewrite broadcasts_app, added_blocks_app, Hb, Hbr, Hab. split; reflexivity.
    + exists [], (added_blocks t0).
      split; [apply sublist_nil_l|]. split.
      { destruct Ha as [->| ->]; [apply sublist_nil_l|].
        constructor. apply sublist_nil_l. }
      unfold bind, trace_of. cbn [fst]. split; [exact Hb|reflexivity].
Qed.
End SerializerOrder.

Section SerializerFailure.
Context `{Core} `{!SlaveReplies}.

(** A slave that answers the broadcast of a block with an error code
    makes the drain raise at this block: the block was sent to every
    slave, and the blocks queued behind it are neither passed to
    [addBlock] nor broadcast. *)
Theorem failed_ack_aborts_drain self rBlock rest updateTip rs slave :
  In slave (slavePool self) ->
  reply_addRootBlock slave rBlock <> 0 ->
  (updateTip = true \/ exists updated, snd (addBlock rs rBlock) = Ok updated) ->
  outcome_of (drain self (rBlock :: rest) updateTip rs) = Raise CheckFailed
  /\ broadcasts (trace_of (drain self (rBlock :: rest) updateTip rs))
     = broadcast_events self rBlock
  /\ added_blocks (trace_of (drain self (rBlock :: rest) updateTip rs))
     = if updateTip then [] else [rBlock].
Proof.
  intros Hin Hbad Happlied.
  assert (Hfail : forallb (fun errorCode => errorCode =? 0)
                    (map (fun slaveConn => reply_addRootBlock slaveConn rBlock)
                         (slavePool self)) = false).
  { destruct (forallb _ _) eqn:Hall; [|reflexivity]. exfalso.
    rewrite forallb_forall in Hall.
    specialize (Hall (reply_addRootBlock slave rBlock)
                     (in_map (fun s => reply_addRootBlock s rBlock) _ _ Hin)).
    apply Hbad. lia. }
  cbn [drain]. unfold try_addBlock.
  destruct updateTip.
  - rewrite bind_ret_l, broadcast_addRootBlock_run, bind_pair_Ok. cbn [fst snd].
    rewrite Hfail. unfold outcome_of, trace_of, raise. cbn [fst snd].
    rewrite app_nil_r, broadcasts_events, added_blocks_events. auto.
  - destruct Happlied as [[=]|[updated Hu]].
    rewrite bind_emit. destruct (addBlock rs rBlock) as [rs' r]. cbn [snd] in Hu. subst r.
    cbn [ret fst snd]. rewrite bind_pair_Ok, broadcast_addRootBlock_run, bind_pair_Ok.
    cbn [fst snd]. rewrite Hfail. unfold outcome_of, trace_of, raise. cbn [fst snd].
    rewrite app_nil_r.
    change (RootStateAddBlock rBlock :: broadcast_events self rBlock)
      with ([RootStateAddBlock rBlock] ++ broadcast_events self rBlock).
    rewrite broadcasts_app, added_blocks_app, broadcasts_events, added_blocks_events.
    auto.
Qed.

Lemma updateRootBlocks_spec rBlocks : forall self,
  rootBlockUpdateQueue (fst (updateRootBlocks self rBlocks))
  = rootBlockUpdateQueue self ++ rBlocks
  /\ rootState (fst (updateRootBlocks self rBlocks)) = rootState self
  /\ slavePool (fst (updateRootBlocks self rBlocks)) = slavePool self
  /\ network (fst (updateRootBlocks self rBlocks)) = network self
  /\ isUpdatingRootBlock (fst (updateRootBlocks self rBlocks))
     = match rBlocks with [] => isUpdatingRootBlock self | _ => true end
  /\ snd (updateRootBlocks self rBlocks)
     = match rBlocks with
       | [] => 0%nat
       | _ => if isUpdatingRootBlock self then 0%nat else 1%nat
       end.
Proof.
  induction rBlocks as [|rBlock rBlocks IH]; intros self.
  - cbn [updateRootBlocks fst snd]. rewrite app_nil_r. repeat split; reflexivity.
  - cbn [updateRootBlocks]. unfold updateRootBlock.
    destruct (isUpdatingRootBlock self) eqn:Hflag; cbn [negb];
      match goal with
      | |- context [updateRootBlocks ?s rBlocks] =>
          destruct (IH s) as (Hq & Hrs & Hpool & Hnet & Hf & Hn);
          destruct (updateRootBlocks s rBlocks) as [self2 n]
      end;
      cbn [fst snd enqueue rootBlockUpdateQueue isUpdatingRootBlock rootState slavePool
           network] in *;
      rewrite Hq, <- app_assoc, Hf, Hn; cbn [app];
      destruct rBlocks; repeat split; try reflexivity; assumption.
Qed.
End SerializerFailure.

Section SerializerSchedule.
Context `{Core} `{!SlaveReplies}.

(** Calls of [updateRootBlock] that arrive before the drain runs queue
    their blocks behind the queue in the order of the calls and schedule
    one drain, or none when a drain is already under way; the drain then
    runs over the whole queue and, when it returns, leaves the queue empty
    and the flag cleared. *)
Theorem updates_schedule_one_drain self rBlocks :
  rBlocks <> [] ->
  let self1 := fst (updateRootBlocks self rBlocks) in
  rootBlockUpdateQueue self1 = rootBlockUpdateQueue self ++ rBlocks
  /\ isUpdatingRootBlock self1 = true
  /\ snd (updateRootBlocks self rBlocks)
     = (if isUpdatingRootBlock self then 0 else 1)%nat
  /\ updateRooBlockAsync self1
     = (do r <- drain self1 (rootBlockUpdateQueue self ++ rBlocks) false (rootState self);
        notify_peers self1 (fst r);;
        ret (after_drain (snd r) self1))
  /\ forall t self2,
      updateRooBlockAsync self1 = (t, Ok self2) ->
      rootBlockUpdateQueue self2 = [] /\ isUpdatingRootBlock self2 = false.
Proof.
  intros Hne self1.
  destruct (updateRootBlocks_spec rBlocks self) as (Hq & Hrs & _ & _ & Hf & Hn).
  fold self1 in Hq, Hrs, Hf.
  destruct rBlocks as [|rBlock rBlocks]; [contradiction|].
  assert (Hrun : updateRooBlockAsync self1
                 = (do r <- drain self1 (rootBlockUpdateQueue self ++ rBlock :: rBlocks)
                                  false (rootState self);
                    notify_peers self1 (fst r);;
                    ret (after_drain (snd r) self1))).
  { unfold updateRooBlockAsync. rewrite Hf, Hq, Hrs. reflexivity. }
  split; [exact Hq|]. split; [exact Hf|]. split; [exact Hn|]. split; [exact Hrun|].
  intros t self2. rewrite Hrun.
  destruct (drain self1 _ false (rootState self)) as [td [r|e]]; [|discriminate].
  rewrite bind_pair_Ok. cbn [fst snd].
  destruct (notify_peers self1 r.1) as [tn [[]|e]]; [|discriminate].
  rewrite bind_pair_Ok. cbn [fst snd ret]. intros [= _ <-]. split; reflexivity.
Qed.
End SerializerSchedule.

Section SerializerMoreExamples.
Import Sample SerializerFixtures.
#[local] Existing Instance payloads.

Lemma failed_ack_aborts_drain_witness :
  outcome_of (@drain _ core replies_nack master [0; 5] false 0) = Raise CheckFailed
  /\ broadcasts (trace_of (@drain _ core replies_nack master [0; 5] false 0))
     = [RpcAddRootBlock s1 0 false; RpcAddRootBlock s2 0 false]
  /\ added_blocks (trace_of (@drain _ core replies_nack master [0; 5] false 0)) = [0].
Proof.
  apply (@failed_ack_aborts_drain payloads core replies_nack master
           (0 : @RootBlock payloads) [5] false (0 : @RootState payloads) s2).
  - right. left. reflexivity.
  - vm_compute. discriminate.
  - right. exists false. reflexivity.
Defined.

Lemma updates_schedule_one_drain_witness :
  rootBlockUpdateQueue (fst (updateRootBlocks master [0; 5])) = [0; 5]
  /\ snd (updateRootBlocks master [0; 5]) = 1%nat
  /\ snd (updateRootBlocks (with_queue [7] master) [0; 5]) = 0%nat.
Proof.
  destruct (@updates_schedule_one_drain payloads core (replies eco_reply headers_reply id)
              master [0; 5]) as (Hq & _ & Hn & _); [discriminate|].
  destruct (@updates_schedule_one_drain payloads core (replies eco_reply headers_reply id)
              (with_queue [7] master) [0; 5]) as (_ & _ & Hn' & _); [discriminate|].
  split; [exact Hq|]. split; [exact Hn|exact Hn'].
Defined.
End SerializerMoreExamples.

(** ** Mesh setup and the start of the cluster *)

Section Mesh.
Context `{Core} `{!SlaveReplies} `{!MoreCore} `{!MoreReplies}.

Lemma sendConnectToSlaves_run slave slaveInfoList :
  sendConnectToSlaves slave slaveInfoList
  = ([RpcConnectToSlaves slave slaveInfoList],
     if (length (reply_connectToSlaves slave slaveInfoList) =? length slaveInfoList)%nat
     then Ok (negb (mesh_failure slaveInfoList slave))
     else Raise CheckFailed).
Proof.
  unfold sendConnectToSlaves, mesh_failure. rewrite bind_emit.
  destruct (length _ =? length slaveInfoList)%nat; cbn [negb fst snd raise ret];
    rewrite ?negb_involutive; reflexivity.
Qed.

Lemma shutdown_other_fields self :
  rootState (shutdown self) = rootState self
  /\ network (shutdown self) = network self
  /\ rootBlockUpdateQueue (shutdown self) = rootBlockUpdateQueue self
  /\ isUpdatingRootBlock (shutdown self) = isUpdatingRootBlock self.
Proof.
  unfold shutdown.
  destruct (negb (done (shutdownFuture self)));
    match goal with |- context [if ?c then _ else _] => destruct c end;
    repeat split; reflexivity.
Qed.

Lemma setup_run slaveInfoList slaves : forall self t self',
  setupSlaveToSlaveConnections self slaves slaveInfoList = (t, Ok self') ->
  t = map (fun slave => RpcConnectToSlaves slave slaveInfoList) slaves
  /\ futures self'
     = futures (if existsb (mesh_failure slaveInfoList) slaves then shutdown self else self)
  /\ slavePool self' = slavePool self
  /\ branchToSlaves self' = branchToSlaves self.
Proof.
  induction slaves as [|slave slaves IH]; intros self t self'.
  - simpl. intros [= <- <-]. auto.
  - cbn [setupSlaveToSlaveConnections existsb map].
    rewrite sendConnectToSlaves_run.
    destruct (length _ =? length slaveInfoList)%nat; [|discriminate].
    rewrite bind_pair_Ok. cbn [fst snd app]. rewrite negb_involutive.
    intros Hrest.
    match type of Hrest with
    | context [setupSlaveToSlaveConnections ?s slaves slaveInfoList] =>
        destruct (setupSlaveToSlaveConnections s slaves slaveInfoList) as [t2 r] eqn:Hr
    end.
    cbn [fst snd] in Hrest. injection Hrest as <- ->.
    destruct (IH _ _ _ Hr) as (-> & Hfut & Hpool & Hindex).
    split; [reflexivity|].
    destruct (mesh_failure slaveInfoList slave); cbn [orb] in *.
    + destruct (shutdown_registry self) as [Hp Hi].
      rewrite Hpool, Hindex, Hp, Hi. split; [|auto].
      destruct (existsb (mesh_failure slaveInfoList) slaves);
        rewrite Hfut, ?shutdown_idempotent; reflexivity.
    + auto.
Qed.

Lemma setup_returns slaveInfoList slaves : forall self,
  (forall slave, In slave slaves ->
                 length (reply_connectToSlaves slave slaveInfoList) = length slaveInfoList) ->
  exists self',
    setupSlaveToSlaveConnections self slaves slaveInfoList
    = (map (fun slave => RpcConnectToSlaves slave slaveInfoList) slaves, Ok self').
Proof.
  induction slaves as [|slave slaves IH]; intros self Hlen; [exists self; reflexivity|].
  cbn [setupSlaveToSlaveConnections map]. rewrite sendConnectToSlaves_run.
  rewrite (Hlen slave (or_introl Logic.eq_refl)), Nat.eqb_refl, bind_pair_Ok.
  cbn [fst snd app].
  match goal with
  | |- context [setupSlaveToSlaveConnections ?s slaves slaveInfoList] =>
      destruct (IH s) as [self' Hr]; [intros s' Hs'; apply Hlen; right; exact Hs'|];
      rewrite Hr
  end.
  exists self'. reflexivity.
Qed.

(** Mesh setup asks every slave of the pool, in order, to connect to all
    configured slaves, also after a failure; it shuts the master down
    exactly when some slave reports a non-empty result, and it leaves the
    registry as it is. *)
Theorem mesh_failure_shuts_down (self : MasterServer) (slaveInfoList : list SlaveInfo) :
  (forall slave, In slave (slavePool self) ->
                 length (reply_connectToSlaves slave slaveInfoList) = length slaveInfoList) ->
  exists self',
    setupSlaveToSlaveConnections self (slavePool self) slaveInfoList
    = (map (fun slave => RpcConnectToSlaves slave slaveInfoList) (slavePool self), Ok self')
    /\ futures self'
       = futures (if existsb (mesh_failure slaveInfoList) (slavePool self)
                  then shutdown self else self)
    /\ slavePool self' = slavePool self
    /\ branchToSlaves self' = branchToSlaves self.
Proof.
  intros Hlen. destruct (setup_returns slaveInfoList (slavePool self) self Hlen) as [self' Hr].
  exists self'. split; [exact Hr|].
  destruct (setup_run _ _ _ _ _ Hr) as (_ & Hfut & Hpool & Hindex). auto.
Qed.
End Mesh.

Section Start.
Context `{Core} `{!SlaveReplies} `{!MoreCore} `{!MoreReplies}.

Lemma hasAllShards_registry self1 self2 :
  branchToSlaves self1 = branchToSlaves self2 -> hasAllShards self1 = hasAllShards self2.
Proof. unfold hasAllShards. intros ->. reflexivity. Qed.

Lemma futures_done_shutdown self self' :
  futures self' = futures (shutdown self) -> done (clusterActiveFuture self') = true.
Proof.
  unfold futures. intros [= _ ->]. apply shutdown_done.
Qed.

(** [__initCluster], started with a pending readiness future, ends in
    one of three ways.  It resolves the readiness future, and leaves the
    shutdown future alone, only when all shards are covered, no PING
    answer differed from the configuration and no slave reported a mesh
    failure.  With a shard missing it returns before any slave is asked
    to connect to the others and does not resolve the readiness future
    itself.  With all shards covered after a handshake mismatch or a mesh
    failure, the master is shut down and [set_result] on the readiness
    future, which [shutdown] already failed, raises. *)
Theorem cluster_start_outcomes (self : MasterServer) (slaveInfoList : list SlaveInfo)
    (t : list MoreEvent) (outcome : InitOutcome) :
  clusterActiveFuture self = Pending ->
  initCluster self slaveInfoList = (t, Ok outcome) ->
  match outcome with
  | ClusterActive self' =>
      hasAllShards self' = true
      /\ existsb ping_mismatch slaveInfoList = false
      /\ existsb (mesh_failure slaveInfoList) (slavePool self') = false
      /\ clusterActiveFuture self' = HasResult
      /\ shutdownFuture self' = shutdownFuture self
  | MissingShards self' =>
      hasAllShards self' = false
      /\ (forall ev, In ev t -> exists ping, ev = Earlier ping)
      /\ futures self'
         = futures (if existsb ping_mismatch slaveInfoList then shutdown self else self)
  | InvalidStateError self' =>
      hasAllShards self' = true
      /\ (existsb ping_mismatch slaveInfoList
          || existsb (mesh_failure slaveInfoList) (slavePool self')) = true
      /\ futures self' = futures (shutdown self)
  end.
Proof.
  intros Hpending. unfold initCluster, earlier.
  destruct (connectToSlaves self slaveInfoList) as [t1 [self1|e]] eqn:Hconnect;
    cbn [fst snd]; [|discriminate].
  pose proof (connectToSlaves_futures _ _ _ _ Hconnect) as Hfut1.
  rewrite bind_pair_Ok.
  destruct (hasAllShards self1) eqn:Hall; cbn [negb].
  - destruct (setupSlaveToSlaveConnections self1 (slavePool self1) slaveInfoList)
      as [t2 [self2|e]] eqn:Hsetup; [|discriminate].
    destruct (setup_run _ _ _ _ _ Hsetup) as (_ & Hfut2 & Hpool & Hindex).
    rewrite bind_pair_Ok. cbn [fst snd].
    assert (Hall2 : hasAllShards self2 = true)
      by (rewrite (hasAllShards_registry self2 self1 Hindex); exact Hall).
    destruct (done (clusterActiveFuture self2)) eqn:Hdone; cbn [ret fst snd];
      intros [= _ <-].
    + split; [exact Hall2|]. rewrite Hpool.
      destruct (existsb ping_mismatch slaveInfoList) eqn:Hmis;
        destruct (existsb (mesh_failure slaveInfoList) (slavePool self1)) eqn:Hmesh;
        cbn [orb].
      * split; [reflexivity|]. rewrite Hfut2.
        rewrite (futures_shutdown _ _ Hfut1), shutdown_idempotent. reflexivity.
      * split; [reflexivity|]. rewrite Hfut2. exact Hfut1.
      * split; [reflexivity|]. rewrite Hfut2. apply futures_shutdown. exact Hfut1.
      * exfalso. rewrite Hfut1 in Hfut2. unfold futures in Hfut2.
        injection Hfut2 as _ Hc. rewrite Hc, Hpending in Hdone. discriminate.
    + assert (Hmesh : existsb (mesh_failure slaveInfoList) (slavePool self1) = false).
      { destruct (existsb (mesh_failure slaveInfoList) (slavePool self1)); [|reflexivity].
        rewrite (futures_done_shutdown _ _ Hfut2) in Hdone. discriminate. }
      rewrite Hmesh in Hfut2.
      assert (Hmis : existsb ping_mismatch slaveInfoList = false).
      { destruct (existsb ping_mismatch slaveInfoList); [|reflexivity].
        rewrite Hfut1 in Hfut2.
        rewrite (futures_done_shutdown _ _ Hfut2) in Hdone. discriminate. }
      rewrite Hmis in Hfut1. rewrite Hfut1 in Hfut2. unfold futures in Hfut2.
      injection Hfut2 as Hs _.
      cbn [set_clusterActiveFuture clusterActiveFuture shutdownFuture slavePool].
      rewrite Hpool.
      split; [rewrite <- Hall2; apply hasAllShards_registry; reflexivity|]. auto.
  - cbn [ret fst snd]. intros [= <- <-]. split; [exact Hall|]. split; [|exact Hfut1].
    intros ev Hin. rewrite app_nil_r in Hin.
    apply in_map_iff in Hin as (ping & <- & _). eauto.
Qed.
End Start.

Section StartExamples.
Import Sample Fixtures MoreSample.
#[local] Existing Instance payloads.
#[local] Existing Instance more_core.

Example start_succeeds :
  @initCluster _ core (replies eco_reply headers_reply id) more_core
     (more_replies mesh_ok stats_reply) fresh [info1; info2]
  = ([Earlier (RpcPing s1); Earlier (RpcPing s2);
      RpcConnectToSlaves s1 [info1; info2]; RpcConnectToSlaves s2 [info1; info2]],
     Ok (ClusterActive active)).
Proof. vm_compute. reflexivity. Qed.

(** A slave that answers PING with another id: the shards are covered,
    the master is shut down and resolving the readiness future raises. *)
Example start_after_mismatch :
  match outcome_of (@initCluster _ core (replies eco_reply headers_reply wrong_id) more_core
                      (more_replies mesh_ok stats_reply) fresh [info1; info2]) with
  | Ok (InvalidStateError self') =>
      futures self' = (HasResult, HasException "failed to start the cluster")
  | _ => False
  end.
Proof. vm_compute. reflexivity. Qed.

(** Only [s1] is configured: shard 1 is missing, no mesh is set up and
    neither future is resolved. *)
Example start_with_missing_shard :
  match @initCluster _ core (replies eco_reply headers_reply id) more_core
          (more_replies mesh_ok stats_reply) fresh [info1] with
  | (t, Ok (MissingShards self')) =>
      t = [Earlier (RpcPing s1)] /\ futures self' = (Pending, Pending)
  | _ => False
  end.
Proof. vm_compute. split; reflexivity. Qed.

Lemma cluster_start_outcomes_witness :
  @hasAllShards _ core active = true
  /\ existsb (@ping_mismatch _ (replies eco_reply headers_reply id)) [info1; info2] = false
  /\ clusterActiveFuture active = HasResult
  /\ shutdownFuture active = shutdownFuture fresh.
Proof.
  pose proof (@cluster_start_outcomes payloads core (replies eco_reply headers_reply id)
                more_core (more_replies mesh_ok stats_reply) fresh [info1; info2]
                _ (ClusterActive active) Logic.eq_refl start_succeeds)
    as (Hall & Hmis & _ & Hactive & Hshut).
  auto.
Defined.

Lemma mesh_failure_shuts_down_witness :
  exists self',
    @setupSlaveToSlaveConnections _ more_core (more_replies mesh_refused stats_reply)
       brought_up [s1; s2] [info1; info2]
    = ([RpcConnectToSlaves s1 [info1; info2]; RpcConnectToSlaves s2 [info1; info2]],
       Ok self')
    /\ futures self' = (HasResult, HasException "failed to start the cluster").
Proof.
  destruct (@mesh_failure_shuts_down payloads more_core
              (more_replies mesh_refused stats_reply) brought_up [info1; info2])
    as (self' & Hrun & Hfut & _).
  - intros slave [<-|[<-|[]]]; reflexivity.
  - exists self'. split; [exact Hrun|exact Hfut].
Defined.
End StartExamples.

(** ** Statistics *)

Section StatisticsFacts.
Context `{Core} `{!SlaveReplies} `{!MoreCore} `{!MoreReplies}.

Lemma set_shardStats_NoDup (l : list ShardStats) : forall d,
  NoDup (PyDict.keys d) -> NoDup (PyDict.keys (set_shardStats l d)).
Proof.
  unfold set_shardStats. induction l as [|s l IH]; intros d Hd; simpl; [exact Hd|].
  apply IH. apply dict_set_NoDup. exact Hd.
Qed.

Lemma last_stats_app k (l1 l2 : list ShardStats) :
  last_stats k (l1 ++ l2)
  = match last_stats k l2 with
    | Some s => Some s
    | None => last_stats k l1
    end.
Proof.
  unfold last_stats. rewrite rev_app_distr.
  induction (rev l2) as [|s l IH]; simpl; [reflexivity|].
  destruct (stats_branch s =? k); [reflexivity|exact IH].
Qed.

Lemma get_set_shardStats k (l : list ShardStats) : forall d,
  PyDict.get k (set_shardStats l d)
  = match last_stats k l with
    | Some s => Some s
    | None => PyDict.get k d
    end.
Proof.
  unfold set_shardStats.
  induction l as [|s l IH] using rev_ind; intros d; [reflexivity|].
  rewrite fold_left_app, last_stats_app. cbn [fold_left].
  unfold last_stats at 1. cbn [rev app List.find].
  destruct (Z.eqb_spec (stats_branch s) k) as [->|Hne].
  - apply dict_get_set_eq.
  - rewrite dict_get_set_ne by exact Hne. apply IH.
Qed.

Lemma merge_stats_facts (responses : list GetStatsResponse) : forall d0 d,
  merge_stats responses d0 = Ok d ->
  (NoDup (PyDict.keys d0) -> NoDup (PyDict.keys d))
  /\ (forall response, In response responses -> stats_errorCode response = 0)
  /\ forall k,
      PyDict.get k d
      = match last_stats k (concat (map shardStatsList responses)) with
        | Some s => Some s
        | None => PyDict.get k d0
        end.
Proof.
  induction responses as [|r responses IH]; intros d0 d; cbn [merge_stats].
  - intros [= <-]. split; [auto|]. split; [intros r []|reflexivity].
  - destruct (Z.eqb_spec (stats_errorCode r) 0) as [Hz|Hnz]; cbn [negb]; [|discriminate].
    intros Hm. destruct (IH _ _ Hm) as (Hnd & Hok & Hget).
    split; [intros Hd0; apply Hnd, set_shardStats_NoDup; exact Hd0|].
    split; [intros r' [<-|Hin]; [exact Hz|apply Hok; exact Hin]|].
    intros k. rewrite Hget. cbn [map concat]. rewrite last_stats_app, get_set_shardStats.
    destruct (last_stats k (concat (map shardStatsList responses))); reflexivity.
Qed.

Lemma merge_stats_error (responses : list GetStatsResponse) : forall d0,
  (exists response, In response responses /\ stats_errorCode response <> 0) ->
  merge_stats responses d0 = Raise CheckFailed.
Proof.
  induction responses as [|r responses IH]; intros d0 (r' & Hin & Hne); [destruct Hin|].
  cbn [merge_stats].
  destruct (Z.eqb_spec (stats_errorCode r) 0) as [Hz|Hnz]; cbn [negb]; [|reflexivity].
  apply IH. destruct Hin as [<-|Hin]; [contradiction|]. exists r'. auto.
Qed.

Lemma py_setitem_length {A} (l l' : list A) i v :
  py_setitem l i v = Some l' ->
  length l' = length l /\ - Z.of_nat (length l) <= i < Z.of_nat (length l).
Proof.
  unfold py_setitem.
  destruct ((0 <=? i) && (i <? Z.of_nat (length l))) eqn:Hpos.
  - intros [= <-]. rewrite length_insert. split; [reflexivity|]. lia.
  - destruct ((- Z.of_nat (length l) <=? i) && (i <? 0)) eqn:Hneg; [|discriminate].
    intros [= <-]. rewrite length_insert. split; [reflexivity|]. lia.
Qed.

Lemma fill_shards_length (values : list ShardStats) : forall shards shards',
  fill_shards values shards = Some shards' ->
  length shards' = length shards
  /\ forall s, In s values ->
               - Z.of_nat (length shards) <= getShardId (stats_branch s)
               < Z.of_nat (length shards).
Proof.
  induction values as [|s values IH]; intros shards shards'; cbn [fill_shards].
  - intros [= <-]. split; [reflexivity|intros s []].
  - destruct (py_setitem shards _ _) as [shards1|] eqn:Hset; [|discriminate].
    intros Hfill. destruct (py_setitem_length _ _ _ _ Hset) as [Hlen Hrange].
    destruct (IH _ _ Hfill) as [Hlen' Hall].
    split; [congruence|].
    intros s' [<-|Hin]; [exact Hrange|]. rewrite <- Hlen. apply Hall. exact Hin.
Qed.

Lemma fold_left_add (l : list Z) (acc : Z) : fold_left Z.add l acc = acc + foldr Z.add 0 l.
Proof. revert acc. induction l as [|x l IH]; intros acc; simpl; [lia|]. rewrite IH. lia. Qed.

Lemma getStats_run self :
  getStats self
  = match merge_stats (map reply_getStats (slavePool self)) [] with
    | Raise e => (map RpcGetStats (slavePool self), Raise e)
    | Ok d =>
        (map RpcGetStats (slavePool self),
         if negb (Z.of_nat (length d) =? SHARD_SIZE) then Raise CheckFailed
         else match fill_shards (PyDict.values d) (replicate (Z.to_nat SHARD_SIZE) None) with
              | None => Ok StatsIndexError
              | Some shards =>
                  Ok (StatsReturned
                        {| shardSize := SHARD_SIZE;
                           rootHeight := tip_height (rootState self);
                           total_txCount60s :=
                             fold_left Z.add (map txCount60s (PyDict.values d)) 0;
                           shards := shards |})
              end)
    end.
Proof.
  unfold getStats. rewrite forM_emit, bind_pair_Ok.
  destruct (merge_stats (map reply_getStats (slavePool self)) []) as [d|e];
    [|cbn [lift bind fst snd]; rewrite app_nil_r; reflexivity].
  rewrite bind_lift_Ok. cbn [fst snd].
  destruct (negb (Z.of_nat (length d) =? SHARD_SIZE));
    [cbn [raise fst snd]; rewrite app_nil_r; reflexivity|].
  destruct (fill_shards _ _); cbn [ret fst snd]; rewrite app_nil_r; reflexivity.
Qed.

(** When [getStats] returns statistics, every slave of the pool was
    asked and answered without an error code, exactly [SHARD_SIZE]
    different branches were reported, each branch counts once, with the
    statistics reported last for it (a replica is not counted twice), the
    total is the sum over these branches, and [shards] has one entry per
    shard id. *)
Theorem getStats_counts_each_branch_once (self : MasterServer) (t : list MoreEvent)
    (stats : Stats) :
  getStats self = (t, Ok (StatsReturned stats)) ->
  t = map RpcGetStats (slavePool self)
  /\ (forall slave, In slave (slavePool self) -> stats_errorCode (reply_getStats slave) = 0)
  /\ exists d,
      merge_stats (map reply_getStats (slavePool self)) [] = Ok d
      /\ NoDup (PyDict.keys d)
      /\ Z.of_nat (length d) = SHARD_SIZE
      /\ (forall branchValue,
            PyDict.get branchValue d
            = last_stats branchValue
                (concat (map shardStatsList (map reply_getStats (slavePool self)))))
      /\ total_txCount60s stats = foldr Z.add 0 (map txCount60s (PyDict.values d))
      /\ shardSize stats = SHARD_SIZE
      /\ rootHeight stats = tip_height (rootState self)
      /\ Z.of_nat (length (shards stats)) = SHARD_SIZE
      /\ forall s, In s (PyDict.values d) ->
                   - SHARD_SIZE <= getShardId (stats_branch s) < SHARD_SIZE.
Proof.
  rewrite getStats_run.
  destruct (merge_stats (map reply_getStats (slavePool self)) []) as [d|e] eqn:Hm;
    [|discriminate].
  destruct (Z.eqb_spec (Z.of_nat (length d)) SHARD_SIZE) as [Hsize|Hsize]; cbn [negb];
    [|discriminate].
  destruct (fill_shards (PyDict.values d) (replicate (Z.to_nat SHARD_SIZE) None))
    as [filled|] eqn:Hfill; [|discriminate].
  intros [= <- <-]. split; [reflexivity|].
  destruct (merge_stats_facts _ _ _ Hm) as (Hnd & Hok & Hget).
  destruct (fill_shards_length _ _ _ Hfill) as [Hlen Hrange].
  rewrite length_replicate in Hlen, Hrange.
  assert (Hnat : Z.of_nat (Z.to_nat SHARD_SIZE) = SHARD_SIZE) by lia.
  split.
  { intros slave Hin. apply Hok. apply in_map. exact Hin. }
  exists d. split; [reflexivity|]. split; [apply Hnd; constructor|]. split; [exact Hsize|].
  split.
  { intros k. rewrite Hget.
    destruct (last_stats k (concat (map shardStatsList (map reply_getStats (slavePool self)))));
      reflexivity. }
  cbn [total_txCount60s shardSize rootHeight shards].
  split; [rewrite fold_left_add; lia|]. split; [reflexivity|]. split; [reflexivity|].
  split; [rewrite Hlen; exact Hnat|].
  intros s Hin. pose proof (Hrange s Hin) as Hs. lia.
Qed.

(** [getStats] fails its [check] after asking every slave when one of
    them answers with an error code, and when the number of different
    branches reported is not [SHARD_SIZE]. *)
Theorem getStats_checks (self : MasterServer) :
  ((exists slave, In slave (slavePool self) /\ stats_errorCode (reply_getStats slave) <> 0) ->
   getStats self = (map RpcGetStats (slavePool self), Raise CheckFailed))
  /\ (forall d,
        merge_stats (map reply_getStats (slavePool self)) [] = Ok d ->
        Z.of_nat (length d) <> SHARD_SIZE ->
        getStats self = (map RpcGetStats (slavePool self), Raise CheckFailed)).
Proof.
  split.
  - intros (slave & Hin & Hne). rewrite getStats_run, merge_stats_error; [reflexivity|].
    exists (reply_getStats slave). split; [apply in_map; exact Hin|exact Hne].
  - intros d Hd Hsize. rewrite getStats_run, Hd.
    destruct (Z.eqb_spec (Z.of_nat (length d)) SHARD_SIZE); [contradiction|reflexivity].
Qed.
End StatisticsFacts.

(** ** Client requests *)

Section ClientFacts.
Context `{Core} `{!SlaveReplies} `{!MoreCore} `{!MoreReplies}.

(** A raw minor block of an unregistered branch is refused without any
    request; otherwise, on a sound registry, it is sent to the first slave
    of the branch only, and accepted exactly when that slave answers with
    the error code 0. *)
Theorem raw_minor_block_goes_to_first_slave (self : MasterServer) (branchValue : Z)
    (blockData : BlockData) :
  registry_sound self ->
  match branchToSlaves self !! branchValue with
  | None => addRawMinorBlock self branchValue blockData = ([], Ok false)
  | Some slaves =>
      exists slave,
        head slaves = Some slave
        /\ addRawMinorBlock self branchValue blockData
           = ([RpcAddMinorBlock slave blockData],
              Ok (reply_addMinorBlock slave blockData =? 0))
  end.
Proof.
  intros Hsound. unfold addRawMinorBlock, getSlaveConnection.
  destruct (branchToSlaves self !! branchValue) as [slaves|] eqn:Hl; [|reflexivity].
  destruct (Hsound _ _ Hl) as [Hne _].
  destruct slaves as [|slave slaves]; [contradiction|].
  exists slave. split; [reflexivity|].
  rewrite bind_lift_Ok, bind_emit. reflexivity.
Qed.

(** [getBalance] and [getTransactionCount] are two views of one request:
    each sends GET_ACCOUNT_DATA to the first slave of the branch of the
    address and returns that branch with its field of the answer; both
    fail the [check] on an error code, and both raise, without any
    request, when the branch is not registered. *)
Theorem account_views_share_one_request (self : MasterServer) (address : Address) :
  let branchValue := Branch_create SHARD_SIZE (address_getShardId address SHARD_SIZE) in
  match getSlaveConnection self branchValue with
  | Ok slave =>
      let resp := reply_getAccountData slave address in
      getBalance self address
      = ([RpcGetAccountData slave address],
         if account_errorCode resp =? 0 then Ok (branchValue, balance resp)
         else Raise CheckFailed)
      /\ getTransactionCount self address
         = ([RpcGetAccountData slave address],
            if account_errorCode resp =? 0 then Ok (branchValue, transactionCount resp)
            else Raise CheckFailed)
  | Raise e =>
      getBalance self address = ([], Raise e)
      /\ getTransactionCount self address = ([], Raise e)
  end.
Proof.
  intros branchValue.
  unfold getBalance, getTransactionCount, getAccountData, slave_getAccountData.
  fold branchValue.
  destruct (getSlaveConnection self branchValue) as [slave|e]; [|split; reflexivity].
  cbn zeta. rewrite bind_lift_Ok, bind_emit.
  destruct (account_errorCode (reply_getAccountData slave address) =? 0);
    split; reflexivity.
Qed.

End ClientFacts.

Section ClientExamples.
Import Sample Fixtures MoreSample.
#[local] Existing Instance payloads.
#[local] Existing Instance more_core.

Lemma active_registry_sound : @registry_sound _ core active.
Proof.
  intros b l Hl. unfold active in Hl. cbn [branchToSlaves] in Hl.
  destruct (decide (b = 2)) as [->|Hb2].
  - vm_compute in Hl. injection Hl as <-. split; [discriminate|].
    intros s [<-|[]]. split; [left; reflexivity|]. exists 0.
    split; [vm_compute; split; [discriminate|reflexivity]|]. split; reflexivity.
  - destruct (decide (b = 3)) as [->|Hb3].
    + vm_compute in Hl. injection Hl as <-. split; [discriminate|].
      intros s [<-|[]]. split; [right; left; reflexivity|]. exists 1.
      split; [vm_compute; split; [discriminate|reflexivity]|]. split; reflexivity.
    + rewrite lookup_insert_ne in Hl by congruence.
      rewrite lookup_singleton_ne in Hl by congruence. discriminate.
Qed.

Lemma raw_minor_block_goes_to_first_slave_witness :
  @addRawMinorBlock _ more_core (more_replies mesh_ok stats_reply) active 5 [1; 2]
  = ([], Ok false).
Proof.
  exact (@raw_minor_block_goes_to_first_slave payloads core more_core
           (more_replies mesh_ok stats_reply) active 5 [1; 2] active_registry_sound).
Defined.

Example raw_minor_block_runs :
  @addRawMinorBlock _ more_core (more_replies mesh_ok stats_reply) active 3 []
  = ([RpcAddMinorBlock s2 []], Ok true)
  /\ @addRawMinorBlock _ more_core (more_replies mesh_ok stats_reply) active 3 [1]
     = ([RpcAddMinorBlock s2 [1]], Ok false).
Proof. split; vm_compute; reflexivity. Qed.

Example account_views_run :
  @getBalance _ core more_core (more_replies mesh_ok stats_reply) active 5
  = ([RpcGetAccountData s2 5], Ok (3, 70))
  /\ @getTransactionCount _ core more_core (more_replies mesh_ok stats_reply) active 5
     = ([RpcGetAccountData s2 5], Ok (3, 3))
  /\ @getBalance _ core more_core (more_replies mesh_ok stats_reply) active (-4)
     = ([RpcGetAccountData s1 (-4)], Raise CheckFailed)
  /\ @getBalance _ core more_core (more_replies mesh_ok stats_reply) fresh 5
     = ([], Raise KeyError).
Proof. repeat split; vm_compute; reflexivity. Qed.

Example addRootBlock_runs :
  @addRootBlock _ core (replies eco_reply headers_reply id) more_core active (-1)
  = ([RootStateValidateBlock (-1)], Raise ValueError)
  /\ trace_of (@addRootBlock _ core (replies eco_reply headers_reply id) more_core active 5)
     = [RootStateValidateBlock 5; Earlier (RootStateAddBlock 5);
        Earlier (RpcAddRootBlock s1 5 false); Earlier (RpcAddRootBlock s2 5 false)].
Proof. split; vm_compute; reflexivity. Qed.

Lemma getStats_counts_each_branch_once_witness :
  exists stats,
    @getStats _ core more_core (more_replies mesh_ok stats_reply) active
    = ([RpcGetStats s1; RpcGetStats s2], Ok (StatsReturned stats))
    /\ total_txCount60s stats = 42
    /\ shards stats = [Some (5, 40); Some (3, 2)].
Proof.
  exists {| shardSize := 2; rootHeight := 0; total_txCount60s := 42;
            shards := [Some (5, 40); Some (3, 2)] |}.
  assert (Hrun : @getStats _ core more_core (more_replies mesh_ok stats_reply) active
                 = ([RpcGetStats s1; RpcGetStats s2],
                    Ok (StatsReturned
                          {| shardSize := 2; rootHeight := 0; total_txCount60s := 42;
                             shards := [Some (5, 40); Some (3, 2)] |})))
    by (vm_compute; reflexivity).
  split; [exact Hrun|].
  destruct (@getStats_counts_each_branch_once payloads core more_core
              (more_replies mesh_ok stats_reply) active _ _ Hrun)
    as (_ & _ & d & _ & _ & _ & _ & Htotal & _).
  split; [reflexivity|reflexivity].
Defined.
End ClientExamples.

Section AddRootBlockFlow.
Context `{Core} `{!SlaveReplies} `{!MoreCore} `{!MoreReplies}.

Lemma drain_one self rBlock rs rs' updated :
  addBlock rs rBlock = (rs', Ok updated) ->
  (forall slave, In slave (slavePool self) -> reply_addRootBlock slave rBlock = 0) ->
  drain self [rBlock] false rs
  = (RootStateAddBlock rBlock :: broadcast_events self rBlock, Ok (updated, rs')).
Proof.
  intros Hadd Hack. cbn [drain]. unfold try_addBlock. rewrite bind_emit, Hadd.
  cbn [ret fst snd]. rewrite bind_pair_Ok, broadcast_addRootBlock_run, bind_pair_Ok.
  cbn [fst snd].
  assert (Hall : forallb (fun errorCode => errorCode =? 0)
                   (map (fun slaveConn => reply_addRootBlock slaveConn rBlock)
                        (slavePool self)) = true).
  { apply forallb_forall. intros c Hc. apply in_map_iff in Hc as (s & <- & Hs).
    apply Z.eqb_eq, Hack, Hs. }
  rewrite Hall. cbn [ret fst snd app]. rewrite app_nil_r. reflexivity.
Qed.

Lemma notify_peers_run self updateTip :
  notify_peers self updateTip
  = (match network self with
     | Some net => if updateTip then map PeerSendUpdatedTip (iteratePeers net) else []
     | None => []
     end, Ok tt).
Proof.
  unfold notify_peers. destruct (network self) as [net|]; [|reflexivity].
  destruct updateTip; [|reflexivity].
  assert (Hrun : forall xs : list Peer,
             forM (fun peer => emit (PeerSendUpdatedTip peer)) xs
             = (map PeerSendUpdatedTip xs, Ok (map (fun _ => tt) xs))).
  { induction xs as [|x xs IH]; [reflexivity|].
    cbn [forM]. rewrite IH. unfold bind, emit, ret. simpl.
    rewrite app_nil_r. reflexivity. }
  rewrite Hrun, bind_pair_Ok. cbn [ret fst snd]. rewrite app_nil_r. reflexivity.
Qed.

(** The way of one valid root block through an idle master with an empty
    queue: it is validated, added to the root state, broadcast to every
    slave of the pool in order, and the peers are told about the new tip
    exactly when [addBlock] reports one; afterwards the queue is empty,
    the flag is cleared and the root state is the one [addBlock] left. *)
Theorem addRootBlock_single_block (self : MasterServer) (block : RootBlock)
    (rs' : RootState) (updated : bool) :
  validateBlock (rootState self) block = Ok tt ->
  isUpdatingRootBlock self = false ->
  rootBlockUpdateQueue self = [] ->
  addBlock (rootState self) block = (rs', Ok updated) ->
  (forall slave, In slave (slavePool self) -> reply_addRootBlock slave block = 0) ->
  addRootBlock self block
  = (RootStateValidateBlock block
       :: map Earlier
            (RootStateAddBlock block :: broadcast_events self block
               ++ match network self with
                  | Some net => if updated then map PeerSendUpdatedTip (iteratePeers net)
                                else []
                  | None => []
                  end),
     Ok (after_drain rs' (enqueue block true self))).
Proof.
  intros Hvalid Hidle Hqueue Hadd Hack.
  unfold addRootBlock. rewrite bind_emit, Hvalid, bind_lift_Ok, Hidle. cbn [negb].
  unfold updateRooBlockAsync.
  cbn [enqueue isUpdatingRootBlock rootBlockUpdateQueue rootState negb].
  rewrite Hqueue. cbn [app].
  rewrite (drain_one (enqueue block true self) block (rootState self) rs' updated Hadd Hack).
  rewrite bind_pair_Ok. cbn [fst snd]. rewrite notify_peers_run.
  rewrite bind_pair_Ok. cbn [ret fst snd enqueue network].
  unfold earlier. cbn [fst snd]. rewrite app_nil_r.
  unfold broadcast_events. cbn [enqueue slavePool]. reflexivity.
Qed.
End AddRootBlockFlow.

Section AddRootBlockExamples.
Import Sample Fixtures MoreSample.
#[local] Existing Instance payloads.
#[local] Existing Instance more_core.

Lemma addRootBlock_single_block_witness :
  @addRootBlock _ core (replies eco_reply headers_reply id) more_core master 5
  = ([RootStateValidateBlock 5; Earlier (RootStateAddBlock 5);
      Earlier (RpcAddRootBlock s1 5 false); Earlier (RpcAddRootBlock s2 5 false);
      Earlier (PeerSendUpdatedTip "p7"); Earlier (PeerSendUpdatedTip "p8")],
     Ok (after_drain 5 master)).
Proof.
  exact (@addRootBlock_single_block payloads core (replies eco_reply headers_reply id)
           more_core master 5 5 true eq_refl eq_refl eq_refl eq_refl
           (fun _ _ => eq_refl)).
Defined.
End AddRootBlockExamples.
